(** * Allocation ledger of the trading-automation server

    Shallow embedding of the deposit / pause / resume handlers of the
    simplified Express server (the file that declares [investorStates],
    [strategyStatus] and [platformTotalFees]), and of its quote,
    analysis and strategy-list endpoints.

    JavaScript numbers are IEEE 754 binary64 values.  They are modelled
    with the standard library's [spec_float] and its operations at
    precision 53 and maximal exponent 1024, so every sum, product and
    comparison below is the one the engine performs. *)

From Stdlib Require Import ZArith Lia List String Ascii Bool.
From Stdlib Require Import Floats.SpecFloat.
From Stdlib Require Import Reals Lra.
From stdpp Require Import gmap strings.

Open Scope Z_scope.

(* ===================================================================== *)
(** ** JavaScript numbers *)
(* ===================================================================== *)

Module JSNumber.

Definition number : Type := spec_float.

Definition prec : Z := 53.
Definition emax : Z := 1024.

Definition add (x y : number) : number := SFadd prec emax x y.
Definition sub (x y : number) : number := SFsub prec emax x y.
Definition mul (x y : number) : number := SFmul prec emax x y.

(** [x > y], [x < y] and [x <= y]; every comparison with NaN is
    false. *)
Definition gt (x y : number) : bool := SFltb y x.
Definition lt (x y : number) : bool := SFltb x y.
Definition le (x y : number) : bool := SFleb x y.

(** [Number.isFinite]. *)
Definition isFinite (x : number) : bool :=
  match x with
  | S754_zero _ | S754_finite _ _ _ => true
  | S754_infinity _ | S754_nan => false
  end.

Definition pos_zero : number := S754_zero false.

(** The Number value of a decimal quantity [(-1)^neg * M * 10^E] with
    [0 <= M]: the nearest binary64 value, ties to even.  A zero keeps
    the sign of the literal.  The division of the library rounds the
    exact quotient of the two integers once. *)
Definition of_decimal (neg : bool) (M E : Z) : number :=
  match M with
  | Zpos p =>
      match E with
      | Zneg k => SFdiv prec emax (S754_finite neg p 0)
                        (S754_finite false (Z.to_pos (10 ^ Zpos k)) 0)
      | _ => binary_round prec emax neg (Z.to_pos (Zpos p * 10 ^ E)) 0
      end
  | _ => S754_zero neg
  end.

(** Numeric literals of the source text. *)
Definition lit_0_5 : number := of_decimal false 5 (-1).
Definition lit_0_005 : number := of_decimal false 5 (-3).

(** *** Strings

    A string is the list of the bytes of its UTF-8 text, an unpaired
    surrogate of a JavaScript string being written as the three bytes
    of its code.  [code_points] reads the characters; a byte that starts
    no well-formed sequence reads as U+FFFD, as it does when the request
    body is decoded. *)

Definition replacement_character : N := 65533.

Definition is_continuation (b : N) : bool := ((128 <=? b) && (b <? 192))%N.

Fixpoint code_points (l : list ascii) : list N :=
  match l with
  | [] => []
  | a1 :: l1 =>
      let b1 := N_of_ascii a1 in
      if (b1 <? 128)%N then b1 :: code_points l1
      else
        match l1 with
        | a2 :: l2 =>
            let b2 := N_of_ascii a2 in
            if ((194 <=? b1) && (b1 <? 224))%N && is_continuation b2
            then ((b1 - 192) * 64 + (b2 - 128))%N :: code_points l2
            else
              match l2 with
              | a3 :: l3 =>
                  let b3 := N_of_ascii a3 in
                  let c3 := ((b1 - 224) * 4096 + (b2 - 128) * 64
                             + (b3 - 128))%N in
                  if ((224 <=? b1) && (b1 <? 240))%N && is_continuation b2
                     && is_continuation b3 && (2048 <=? c3)%N
                  then c3 :: code_points l3
                  else
                    match l3 with
                    | a4 :: l4 =>
                        let b4 := N_of_ascii a4 in
                        let c4 := ((b1 - 240) * 262144 + (b2 - 128) * 4096
                                   + (b3 - 128) * 64 + (b4 - 128))%N in
                        if ((240 <=? b1) && (b1 <? 248))%N
                           && is_continuation b2 && is_continuation b3
                           && is_continuation b4
                           && ((65536 <=? c4) && (c4 <? 1114112))%N
                        then c4 :: code_points l4
                        else replacement_character :: code_points l1
                    | [] => replacement_character :: code_points l1
                    end
              | [] => replacement_character :: code_points l1
              end
        | [] => [replacement_character]
        end
  end.

(** A character of one byte. *)
Definition plain (c : ascii) : Prop := (N_of_ascii c <? 128)%N = true.

(** The text of a list of characters that are all ASCII. *)
Fixpoint ascii_text (l : list N) : option (list ascii) :=
  match l with
  | [] => Some []
  | c :: l' =>
      if (c <? 128)%N
      then match ascii_text l' with
           | Some t => Some (ascii_of_N c :: t)
           | None => None
           end
      else None
  end.

(** *** [StringToNumber]

    The grammar [StringNumericLiteral] of the language standard:
    optional white space around an optional literal, which is a signed
    decimal literal (with [Infinity], fraction and exponent parts) or an
    unsigned binary, octal or hexadecimal integer literal.  The empty
    literal is [+0]; text outside the grammar is [NaN]; a literal is
    rounded once to the nearest binary64 value, ties to even, whatever
    the number of its digits.

    [StrWhiteSpaceChar] is [WhiteSpace] or [LineTerminator]: TAB, VT,
    FF, ZWNBSP (U+FEFF) and the space separators (category Zs: U+0020,
    U+00A0, U+1680, U+2000 to U+200A, U+202F, U+205F, U+3000), then LF,
    CR, LS (U+2028) and PS (U+2029). *)

Definition StrWhiteSpaceChar : list N :=
  [ 9; 11; 12; 65279;
    32; 160; 5760; 8192; 8193; 8194; 8195; 8196; 8197; 8198; 8199; 8200;
    8201; 8202; 8239; 8287; 12288;
    10; 13; 8232; 8233 ]%N.

Definition is_StrWhiteSpaceChar (c : N) : bool :=
  existsb (N.eqb c) StrWhiteSpaceChar.

Fixpoint skip_white (l : list N) : list N :=
  match l with
  | c :: l' => if is_StrWhiteSpaceChar c then skip_white l' else l
  | [] => []
  end.

Definition trim (l : list N) : list N :=
  rev (skip_white (rev (skip_white l))).

Definition digit_val (c : ascii) : option Z :=
  let n := Z.of_N (N_of_ascii c) in
  if (48 <=? n) && (n <=? 57) then Some (n - 48)
  else if (97 <=? n) && (n <=? 102) then Some (n - 87)
  else if (65 <=? n) && (n <=? 70) then Some (n - 55)
  else None.

(** The longest prefix of digits in base [b]: its value on top of
    [acc], the number of digits read on top of [cnt], and the rest. *)
Fixpoint digits (b : Z) (l : list ascii) (acc cnt : Z) : Z * Z * list ascii :=
  match l with
  | c :: l' =>
      match digit_val c with
      | Some d => if d <? b then digits b l' (acc * b + d) (cnt + 1)
                  else (acc, cnt, l)
      | None => (acc, cnt, l)
      end
  | [] => (acc, cnt, [])
  end.

Definition is_char (c : ascii) (l : list ascii) : bool :=
  existsb (Ascii.eqb c) l.

(** [ExponentPart], optional, up to the end of the literal. *)
Definition ExponentPart (l : list ascii) : option Z :=
  match l with
  | [] => Some 0
  | c :: l1 =>
      if is_char c ["e"; "E"]%char then
        let '(neg, l2) :=
          match l1 with
          | s :: r => if Ascii.eqb s "-" then (true, r)
                      else if Ascii.eqb s "+" then (false, r)
                      else (false, l1)
          | [] => (false, l1)
          end in
        match digits 10 l2 0 0 with
        | (v, n, []) => if 0 <? n then Some (if neg then - v else v) else None
        | _ => None
        end
      else None
  end.

Definition StrUnsignedDecimalLiteral (neg : bool) (l : list ascii) : number :=
  if String.eqb (string_of_list_ascii l) "Infinity"
  then S754_infinity neg
  else
    let '(i, ni, r1) := digits 10 l 0 0 in
    let '(f, nf, r2) :=
      match r1 with
      | c :: r => if Ascii.eqb c "." then digits 10 r 0 0 else (0, 0, r1)
      | [] => (0, 0, r1)
      end in
    if 0 <? ni + nf then
      match ExponentPart r2 with
      | Some ex => of_decimal neg (i * 10 ^ nf + f) (ex - nf)
      | None => S754_nan
      end
    else S754_nan.

Definition NonDecimalIntegerLiteral (b : Z) (l : list ascii) : number :=
  match digits b l 0 0 with
  | (v, n, []) => if 0 <? n then of_decimal false v 0 else S754_nan
  | _ => S754_nan
  end.

(** [StrNumericLiteral], on the text between the white space; every
    character of a literal is ASCII. *)
Definition StrNumericLiteral (l : list ascii) : number :=
  match l with
  | [] => pos_zero
  | c :: r =>
      if Ascii.eqb c "+" then StrUnsignedDecimalLiteral false r
      else if Ascii.eqb c "-" then StrUnsignedDecimalLiteral true r
      else
        match r with
        | k :: r' =>
            if Ascii.eqb c "0" && is_char k ["x"; "X"]%char
            then NonDecimalIntegerLiteral 16 r'
            else if Ascii.eqb c "0" && is_char k ["o"; "O"]%char
            then NonDecimalIntegerLiteral 8 r'
            else if Ascii.eqb c "0" && is_char k ["b"; "B"]%char
            then NonDecimalIntegerLiteral 2 r'
            else StrUnsignedDecimalLiteral false (c :: r)
        | [] => StrUnsignedDecimalLiteral false (c :: r)
        end
  end.

Definition StringToNumber (s : string) : number :=
  match ascii_text (trim (code_points (list_ascii_of_string s))) with
  | Some l => StrNumericLiteral l
  | None => S754_nan
  end.

(** *** [toFixed(8)] and [Number(x.toFixed(8))]

    [Number.prototype.toFixed(8)] prints ["NaN"], ["Infinity"] or
    ["-Infinity"] for a value that is not finite.  For a finite [x] of
    magnitude below [10^21] it takes the integer [n] for which
    [n / 10^8 - |x|] is closest to zero (the larger [n] on a tie) and
    prints the digits of [n] with a decimal point before the last eight,
    after a minus sign when [x < 0]. *)

Definition toFixed8_n (m : positive) (e : Z) : Z :=
  match e with
  | Zneg k => (2 * (Zpos m * 10 ^ 8) + 2 ^ Zpos k) / (2 * 2 ^ Zpos k)
  | _ => Zpos m * 2 ^ e * 10 ^ 8
  end.

Definition ge_1e21 (m : positive) (e : Z) : bool :=
  match e with
  | Zneg k => 10 ^ 21 * 2 ^ Zpos k <=? Zpos m
  | _ => 10 ^ 21 <=? Zpos m * 2 ^ e
  end.

Definition digit_char (d : Z) : ascii := ascii_of_N (Z.to_N (48 + d)).

(** The [k] low-order decimal digits of [v], the most significant
    first. *)
Fixpoint fixed_digits (k : nat) (v : Z) : list ascii :=
  match k with
  | O => []
  | S k' => digit_char ((v / 10 ^ Z.of_nat k') mod 10) :: fixed_digits k' v
  end.

(** The number of decimal digits of [v], at least one. *)
Fixpoint decimal_length (fuel : nat) (v : Z) : nat :=
  match fuel with
  | O => 1%nat
  | S fuel' => if v <? 10 then 1%nat else S (decimal_length fuel' (v / 10))
  end.

(** The text of [x.toFixed(8)].  For a finite [x] of magnitude [10^21]
    or more the method hands over to [Number::toString]; that case is
    [None] here. *)
Definition toFixed8 (x : number) : option string :=
  match x with
  | S754_nan => Some "NaN"%string
  | S754_infinity s => Some (if s then "-Infinity" else "Infinity")%string
  | S754_zero _ => Some "0.00000000"%string
  | S754_finite s m e =>
      if ge_1e21 m e then None
      else
        let n := toFixed8_n m e in
        let i := n / 10 ^ 8 in
        Some (string_of_list_ascii
                ((if s then ["-"%char] else [])
                   ++ fixed_digits (decimal_length 22 i) i
                   ++ "."%char :: fixed_digits 8 n))
  end.

(** [Number(x.toFixed(8))].  The text that [Number::toString] prints for
    a value denotes that value, so the composition is the identity where
    [toFixed] hands over to it. *)
Definition Number_toFixed8 (x : number) : number :=
  match toFixed8 x with
  | Some text => StringToNumber text
  | None => x
  end.

End JSNumber.

Import JSNumber.

(* ===================================================================== *)
(** ** Process state and requests *)
(* ===================================================================== *)

Inductive Allocation : Type := STABLE | INVESTED.
Inductive Status : Type := ACTIVE | PAUSED.

Definition Allocation_eqb (a b : Allocation) : bool :=
  match a, b with
  | STABLE, STABLE | INVESTED, INVESTED => true
  | _, _ => false
  end.

(** The value type of the map [investorStates].  A [Date] is its time
    value, the milliseconds since the epoch. *)
Record InvestorState : Type := mkInvestorState {
  strategyId : string;
  balance : number;
  allocation : Allocation;
  lastDecisionAt : Z
}.

(** The three module-level bindings that the handlers read and write. *)
Record Server : Type := mkServer {
  strategyStatus : gmap string Status;
  investorStates : gmap string InvestorState;
  platformTotalFees : number
}.

(** The state at process start. *)
Definition start : Server :=
  {| strategyStatus := ∅; investorStates := ∅; platformTotalFees := pos_zero |}.

(** The values of a parsed JSON body, and [undefined] for a field that
    is absent.  An object is the list of its own properties. *)
#[warnings="-register-all"]
Inductive JsValue : Type :=
  | JUndefined
  | JNull
  | JBoolean (b : bool)
  | JNumber (x : number)
  | JString (s : string)
  | JArray (elements : list JsValue)
  | JObject (properties : list (string * JsValue)).

(** [v ?? d]. *)
Definition nullish (v d : JsValue) : JsValue :=
  match v with
  | JUndefined | JNull => d
  | _ => v
  end.

Definition has_own (key : string) (properties : list (string * JsValue))
  : bool :=
  existsb (λ p, String.eqb (fst p) key) properties.

(** Converting an object to a primitive calls its [valueOf] and
    [toString].  A parsed object inherits both; [valueOf] returns the
    object itself and [toString] the text ["[object Object]"].  An own
    property of a parsed object is never callable, so an own [valueOf]
    changes nothing, and with an own [toString] no method is left that
    returns a primitive: the conversion throws a [TypeError].  An array
    is printed by [join], which converts every element other than
    [null] and [undefined] to a string, and throws when one of them
    does. *)
Fixpoint throws (v : JsValue) : bool :=
  match v with
  | JObject properties => has_own "toString" properties
  | JArray elements => existsb throws elements
  | _ => false
  end.

(** [Number(v)], where the conversion does not throw.  An object prints
    as ["[object Object]"], which is no number.  An array prints as its
    elements separated by commas: the empty array as the empty text,
    which is [0]; an array of two or more elements as a text with a
    comma, which is no number; an array of one element as that element,
    [null] and [undefined] as the empty text.  The text that
    [Number::toString] prints for a number denotes that number, [-0]
    apart, which prints as ["0"]. *)
Fixpoint ToNumber (v : JsValue) : number :=
  match v with
  | JUndefined => S754_nan
  | JNull => pos_zero
  | JBoolean true => of_decimal false 1 0
  | JBoolean false => pos_zero
  | JNumber x => x
  | JString s => StringToNumber s
  | JObject _ => S754_nan
  | JArray [] => pos_zero
  | JArray [e] =>
      match e with
      | JUndefined | JNull => pos_zero
      | JBoolean _ => S754_nan
      | JNumber (S754_zero _) => pos_zero
      | JNumber x => x
      | JString s => StringToNumber s
      | JArray _ => ToNumber e
      | JObject _ => S754_nan
      end
  | JArray (_ :: _ :: _) => S754_nan
  end.

(** The body of a deposit request.  The handler reads [investor],
    [strategyId] and [asset] at the type [string | undefined]; [amount]
    is read untyped. *)
Record DepositBody : Type := mkDepositBody {
  body_investor : option string;
  body_strategyId : option string;
  body_amount : JsValue;
  body_asset : option string
}.

Record IdBody : Type := mkIdBody { body_id : option string }.

(** [!s] is false exactly for a defined, non-empty string. *)
Definition truthy (s : option string) : option string :=
  match s with
  | Some EmptyString => None
  | _ => s
  end.

(** The [data] object of a successful deposit response. *)
Record DepositData : Type := mkDepositData {
  d_investor : string;
  d_strategyId : string;
  d_asset : string;
  newBalance : number;
  d_allocation : Allocation;
  feeCharged : number;
  d_platformTotalFees : number;
  simulated : bool;
  decidedAt : Z
}.

Inductive Payload : Type :=
  | Data (d : DepositData)
  | Message (message : string)
  | Failure (error message : string).

Record Response : Type := mkResponse { status : Z; payload : Payload }.

Definition validation_failed (message : string) : Response :=
  {| status := 400; payload := Failure "Validation failed" message |}.

(** The answer of the deposit handler to a request that fails its
    validation, its answer from the [catch] block, and its answer to an
    accepted request. *)
Definition rejection : Response :=
  validation_failed
    "Fields investor, strategyId and positive amount are required".

Definition failed : Response :=
  {| status := 500;
     payload := Failure "Deposit failed"
                        "Unexpected error during strategy deposit" |}.

Definition ok (d : DepositData) : Response :=
  {| status := 200; payload := Data d |}.

(* ===================================================================== *)
(** ** The handlers *)
(* ===================================================================== *)

(** [decideAllocation], with the value drawn by [Math.random()] as its
    argument. *)
Definition decideAllocation (random : number) : Allocation :=
  let signal := sub random lit_0_5 in
  if gt signal pos_zero then INVESTED else STABLE.

Definition feeRate : number := lit_0_005.

(** [investorStates.get(investor) || { strategyId, balance: 0, ... }] *)
Definition lookupOrCreate (srv : Server) (investor strategyId : string)
  : InvestorState :=
  match investorStates srv !! investor with
  | Some current => current
  | None => {| strategyId := strategyId; balance := pos_zero;
               allocation := STABLE; lastDecisionAt := 0 |}
  end.

(** The fee branch: the fee charged, the balance and the platform total
    after it, from the balance after the deposit was added. *)
Definition chargeFee (switch : bool) (bal fees : number)
  : number * number * number :=
  if switch then
    let fee := Number_toFixed8 (mul bal feeRate) in
    (fee, Number_toFixed8 (sub bal fee), Number_toFixed8 (add fees fee))
  else (pos_zero, bal, fees).

(** The handler after validation: the account is read or created, the
    amount added, the decision taken, the fee charged on a switch, and the
    account written back.  The handler updates the record in place and
    stores it with [investorStates.set] at the end; the map after the
    request is the same either way. *)
Definition applyDeposit (investor strategyId : string) (amount : number)
    (asset : option string) (random : number) (now : Z) (srv : Server)
  : Server * DepositData :=
  let current := lookupOrCreate srv investor strategyId in
  let bal := add (balance current) amount in
  let simulatedDecision := decideAllocation random in
  let '(fee, bal', fees') :=
    chargeFee (negb (Allocation_eqb (allocation current) simulatedDecision))
              bal (platformTotalFees srv) in
  let current' := {| strategyId := strategyId; balance := bal';
                     allocation := simulatedDecision;
                     lastDecisionAt := now |} in
  ({| strategyStatus := strategyStatus srv;
      investorStates := <[investor := current']> (investorStates srv);
      platformTotalFees := fees' |},
   {| d_investor := investor; d_strategyId := strategyId;
      d_asset := default "XLM"%string (truthy asset);
      newBalance := bal'; d_allocation := simulatedDecision;
      feeCharged := fee; d_platformTotalFees := fees';
      simulated := true; decidedAt := now |}).

(** The amount as the handler sees it: [Number(body.amount ?? 0)], and
    whether that conversion throws. *)
Definition coerceAmount (body : option DepositBody) : number :=
  ToNumber (nullish (from_option body_amount JUndefined body)
                    (JNumber pos_zero)).

Definition amountThrows (body : option DepositBody) : bool :=
  throws (nullish (from_option body_amount JUndefined body)
                  (JNumber pos_zero)).

(** [POST /api/strategy/deposit].  [random] is the value that
    [Math.random()] returns during the request and [now] the clock.
    The amount is converted before the validation, inside the [try]:
    when the conversion throws, the [catch] block answers. *)
Definition deposit (body : option DepositBody) (random : number) (now : Z)
    (srv : Server) : Server * Response :=
  let investor := body ≫= body_investor in
  let strategyId := body ≫= body_strategyId in
  if amountThrows body then (srv, failed)
  else
    let amount := coerceAmount body in
    let asset := body ≫= body_asset in
    match truthy investor, truthy strategyId with
    | Some investor, Some strategyId =>
        if negb (isFinite amount) || le amount pos_zero then
          (srv, rejection)
        else
          let '(srv', d) :=
            applyDeposit investor strategyId amount asset random now srv in
          (srv', ok d)
    | _, _ => (srv, rejection)
    end.

Definition setStatus (id : string) (s : Status) (srv : Server) : Server :=
  {| strategyStatus := <[id := s]> (strategyStatus srv);
     investorStates := investorStates srv;
     platformTotalFees := platformTotalFees srv |}.

(** [POST /api/strategies/pause] *)
Definition pauseStrategy (body : option IdBody) (srv : Server)
  : Server * Response :=
  match truthy (body ≫= body_id) with
  | Some id =>
      (setStatus id PAUSED srv,
       {| status := 200;
          payload := Message ("Strategy " ++ id ++ " paused successfully") |})
  | None => (srv, validation_failed "Strategy ID is required")
  end.

(** [POST /api/strategies/resume] *)
Definition resumeStrategy (body : option IdBody) (srv : Server)
  : Server * Response :=
  match truthy (body ≫= body_id) with
  | Some id =>
      (setStatus id ACTIVE srv,
       {| status := 200;
          payload := Message ("Strategy " ++ id ++ " resumed successfully") |})
  | None => (srv, validation_failed "Strategy ID is required")
  end.

(** The status that [GET /api/strategies] reports for an identifier:
    [strategyStatus.get(id) || 'ACTIVE']. *)
Definition statusOf (id : string) (srv : Server) : Status :=
  default ACTIVE (strategyStatus srv !! id).

(* ===================================================================== *)
(** ** Sequences of requests and derived notions *)
(* ===================================================================== *)

(** A deposit request together with what the environment supplies while
    it is handled. *)
Record Request : Type := mkRequest {
  r_body : option DepositBody;
  r_random : number;
  r_now : Z
}.

(** Requests are handled one after the other, each to completion. *)
Fixpoint run (reqs : list Request) (srv : Server) : Server * list Response :=
  match reqs with
  | [] => (srv, [])
  | r :: reqs' =>
      let '(srv1, resp) := deposit (r_body r) (r_random r) (r_now r) srv in
      let '(srv2, resps) := run reqs' srv1 in
      (srv2, resp :: resps)
  end.

(** The test of the handler on the coerced amount, negated: the amount
    is accepted. *)
Definition acceptedAmount (amount : number) : bool :=
  negb (negb (isFinite amount) || le amount pos_zero).

(** A finite number strictly greater than zero. *)
Definition finitePositive (amount : number) : bool :=
  isFinite amount && gt amount pos_zero.

(** The record that the handler builds for an unknown investor. *)
Definition freshAccount (strategyId : string) : InvestorState :=
  {| strategyId := strategyId; balance := pos_zero;
     allocation := STABLE; lastDecisionAt := 0 |}.

Definition withAccount (investor : string) (a : InvestorState) (srv : Server)
  : Server :=
  {| strategyStatus := strategyStatus srv;
     investorStates := <[investor := a]> (investorStates srv);
     platformTotalFees := platformTotalFees srv |}.

(** A request that passes validation for a given investor. *)
Definition validFor (investor : string) (r : Request) : Prop :=
  truthy (r_body r ≫= body_investor) = Some investor
  ∧ is_Some (truthy (r_body r ≫= body_strategyId))
  ∧ acceptedAmount (coerceAmount (r_body r)) = true.

Definition dataOf (resp : Response) : option DepositData :=
  match payload resp with
  | Data d => Some d
  | _ => None
  end.

(** Left-to-right sum with the addition of the language. *)
Definition sumOf (l : list number) : number := fold_left add l pos_zero.

(** The balance of an account replayed from what its deposits returned:
    each deposit adds its amount; a deposit that changed the allocation
    also subtracts the fee it reported and rounds the difference to
    eight decimals. *)
Fixpoint replay (bal : number) (alloc : Allocation)
    (l : list (number * DepositData)) : number :=
  match l with
  | [] => bal
  | (amount, d) :: l' =>
      let post := add bal amount in
      replay (if Allocation_eqb alloc (d_allocation d) then post
              else Number_toFixed8 (sub post (feeCharged d)))
             (d_allocation d) l'
  end.

Definition balanceOf (investor : string) (srv : Server) : option number :=
  balance <$> investorStates srv !! investor.

(** Request bodies used in the examples. *)
Definition depositOf (investor strategyId : string) (amount : JsValue)
  : option DepositBody :=
  Some {| body_investor := Some investor; body_strategyId := Some strategyId;
          body_amount := amount; body_asset := None |}.

Definition idOf (id : string) : option IdBody := Some {| body_id := Some id |}.

(** Two values that [Math.random()] can return: [0.75] makes the decision
    [INVESTED], [0.25] makes it [STABLE]. *)
Definition random_high : number := of_decimal false 75 (-2).
Definition random_low : number := of_decimal false 25 (-2).

Definition num (n : Z) : number := of_decimal false n 0.

Definition amountOf (r : Request) : number := coerceAmount (r_body r).

(** The balance and the allocation that the next deposit of an investor
    starts from. *)
Definition currentBalance (investor : string) (srv : Server) : number :=
  balance (lookupOrCreate srv investor "").

Definition currentAllocation (investor : string) (srv : Server) : Allocation :=
  allocation (lookupOrCreate srv investor "").

(** Conservation as the specification words it, for the deposits [reqs]
    of one investor handled from [srv]: the final balance and the sum of
    the deposits minus the sum of the fees charged agree at eight
    decimals. *)
Definition conserved (investor : string) (reqs : list Request) (srv : Server)
  : Prop :=
  let deposits := sumOf (map amountOf reqs) in
  let fees := sumOf (map feeCharged (omap dataOf (snd (run reqs srv)))) in
  ∃ final, balanceOf investor (fst (run reqs srv)) = Some final
           ∧ Number_toFixed8 final = Number_toFixed8 (sub deposits fees).

(** Three deposits of [0.000000004], the decision alternating. *)
Definition dust : number := of_decimal false 4 (-9).

Definition dustDeposits : list Request :=
  [ {| r_body := depositOf "inv1" "s1" (JNumber dust);
       r_random := random_high; r_now := 1 |};
    {| r_body := depositOf "inv1" "s1" (JNumber dust);
       r_random := random_low; r_now := 2 |};
    {| r_body := depositOf "inv1" "s1" (JNumber dust);
       r_random := random_high; r_now := 3 |} ].

(** Two deposits of [1e308]: their sum exceeds the largest finite
    number. *)
Definition big : number := of_decimal false 1 308.

Definition overflowDeposits : list Request :=
  [ {| r_body := depositOf "inv1" "s1" (JNumber big);
       r_random := random_low; r_now := 1 |};
    {| r_body := depositOf "inv1" "s1" (JNumber big);
       r_random := random_high; r_now := 2 |} ].

(* ===================================================================== *)
(** ** Values of numbers, for the arithmetic proofs *)
(* ===================================================================== *)

Definition bpow (e : Z) : R := powerRZ 2 e.

(** The real number that a finite value denotes, zero otherwise. *)
Definition B2R (x : number) : R :=
  match x with
  | S754_finite s m e =>
      ((if s then -1 else 1) * IZR (Zpos m) * bpow e)%R
  | _ => 0%R
  end.

(** The mantissa and the exponent of a finite value are within the
    format; every binary64 value is well formed. *)
Definition wellFormed (x : number) : Prop :=
  match x with
  | S754_finite _ m e => Zpos m < 2 ^ prec ∧ e <= emax - prec
  | _ => True
  end.

Definition fexp64 (e : Z) : Z := fexp prec emax e.

(** [Number(x.toFixed(8))] without the text in between: the number
    nearest to [n / 10^8]. *)
Definition nearest8 (x : number) : number :=
  match x with
  | S754_finite s m e =>
      if ge_1e21 m e then x else of_decimal s (toFixed8_n m e) (-8)
  | S754_zero _ => pos_zero
  | S754_infinity _ | S754_nan => x
  end.

(** The fee as the specification words it: the product of the balance
    and the rate [0.005], rounded to eight decimals by standard
    rounding, a tie away from zero.  For the balance
    [(-1)^s * m * 2^e] the fee counts [round (m * 2^e * 500000)] units
    of [10^-8]; [half_away p e] is the integer nearest to [p * 2^e],
    the one away from zero on a tie. *)
Definition half_away (p e : Z) : Z :=
  match e with
  | Zneg k => (2 * p + 2 ^ Zpos k) / (2 * 2 ^ Zpos k)
  | _ => p * 2 ^ e
  end.

Definition roundedFee (postDepositBalance : number) : number :=
  match postDepositBalance with
  | S754_finite s m e => of_decimal s (half_away (Zpos m * 500000) e) (-8)
  | _ => postDepositBalance
  end.

(** The record of a shifted mantissa holds the integer part of the
    quotient [N / D] and, in its two bits, where the rest of the
    quotient lies: at zero, below one half, at one half or above. *)
Definition located (N D : Z) (mrs : shr_record) : Prop :=
  0 < D
  ∧ 0 <= N - shr_m mrs * D < D
  ∧ shr_r mrs = (D <=? 2 * (N - shr_m mrs * D))
  ∧ shr_s mrs = negb (N - shr_m mrs * D =? 0)
                && negb (2 * (N - shr_m mrs * D) =? D).

(** The sign of a number that is not NaN. *)
Definition signed (s : bool) (x : number) : Prop :=
  match x with
  | S754_nan => False
  | S754_zero s' | S754_infinity s' | S754_finite s' _ _ => s' = s
  end.

(** A zero of either sign, a positive value or positive infinity. *)
Definition nonneg (x : number) : Prop :=
  match x with
  | S754_nan => False
  | S754_zero _ => True
  | S754_infinity s | S754_finite s _ _ => s = false
  end.

Definition finiteNonneg (x : number) : Prop :=
  nonneg x ∧ wellFormed x ∧ isFinite x = true.

(** NaN, or a number that is not negative. *)
Definition notNegative (x : number) : Prop :=
  (x = S754_nan ∨ nonneg x) ∧ wellFormed x.

(** No balance and no fee total is a negative number. *)
Definition ledgerInv (srv : Server) : Prop :=
  (∀ investor a, investorStates srv !! investor = Some a →
                 notNegative (balance a))
  ∧ notNegative (platformTotalFees srv).

(** The fee total is a binary64 value that is NaN, or not negative and
    not above what [Number(x.toFixed(8))] makes of it. *)
Definition feesInv (fees : number) : Prop :=
  valid_binary prec emax fees = true
  ∧ (fees = S754_nan
     ∨ (nonneg fees ∧ le fees (Number_toFixed8 fees) = true)).

(** [b] is NaN or not below [a]. *)
Definition notBelow (a b : number) : Prop := b = S754_nan ∨ le a b = true.

(** A JSON number is a binary64 value, also inside an array or an
    object. *)
Fixpoint numberValue (v : JsValue) : Prop :=
  match v with
  | JNumber x => valid_binary prec emax x = true
  | JArray elements =>
      (fix all (l : list JsValue) : Prop :=
         match l with
         | [] => True
         | e :: l' => numberValue e ∧ all l'
         end) elements
  | JObject properties =>
      (fix all (l : list (string * JsValue)) : Prop :=
         match l with
         | [] => True
         | (_, e) :: l' => numberValue e ∧ all l'
         end) properties
  | _ => True
  end.

Definition wellTyped (body : option DepositBody) : Prop :=
  match body with
  | Some b => numberValue (body_amount b)
  | None => True
  end.

Definition wellTypedRequests (reqs : list Request) : Prop :=
  Forall (λ r, wellTyped (r_body r)) reqs.

(* ===================================================================== *)
(** ** Calls to the handlers that write the state *)
(* ===================================================================== *)

(** A call to one of the three handlers that write the state, with what
    the environment supplies while it is handled. *)
Inductive Call : Type :=
  | CallDeposit (r : Request)
  | CallPause (body : option IdBody)
  | CallResume (body : option IdBody).

Definition handle (c : Call) (srv : Server) : Server * Response :=
  match c with
  | CallDeposit r => deposit (r_body r) (r_random r) (r_now r) srv
  | CallPause body => pauseStrategy body srv
  | CallResume body => resumeStrategy body srv
  end.

(** Calls are handled one after the other, each to completion. *)
Fixpoint serve (calls : list Call) (srv : Server) : Server * list Response :=
  match calls with
  | [] => (srv, [])
  | c :: calls' =>
      let '(srv1, resp) := handle c srv in
      let '(srv2, resps) := serve calls' srv1 in
      (srv2, resp :: resps)
  end.

(** The deposit requests among the calls, in their order. *)
Definition depositOfCall (c : Call) : option Request :=
  match c with
  | CallDeposit r => Some r
  | _ => None
  end.

Definition depositsOf (calls : list Call) : list Request :=
  omap depositOfCall calls.

(** The responses to the deposit requests among the calls. *)
Fixpoint depositResponses (calls : list Call) (resps : list Response)
  : list Response :=
  match calls, resps with
  | CallDeposit _ :: calls', resp :: resps' =>
      resp :: depositResponses calls' resps'
  | _ :: calls', _ :: resps' => depositResponses calls' resps'
  | _, _ => []
  end.

(** The identifier and the status that a call writes to
    [strategyStatus], if it writes one. *)
Definition statusWritten (c : Call) : option (string * Status) :=
  match c with
  | CallPause body => (λ id, (id, PAUSED)) <$> truthy (body ≫= body_id)
  | CallResume body => (λ id, (id, ACTIVE)) <$> truthy (body ≫= body_id)
  | CallDeposit _ => None
  end.

(** The entry of [id] after the calls, from the entry [s] before them:
    the status of the last call that wrote it. *)
Fixpoint lastStatus (id : string) (calls : list Call) (s : option Status)
  : option Status :=
  match calls with
  | [] => s
  | c :: calls' =>
      lastStatus id calls'
        match statusWritten c with
        | Some (id', st) => if String.eqb id' id then Some st else s
        | None => s
        end
  end.

(** The investor whose account a request writes, if it is accepted. *)
Definition acceptedInvestor (r : Request) : option string :=
  match truthy (r_body r ≫= body_investor),
        truthy (r_body r ≫= body_strategyId) with
  | Some investor, Some _ =>
      if acceptedAmount (coerceAmount (r_body r)) then Some investor else None
  | _, _ => None
  end.

Definition accepted (r : Request) : bool :=
  match acceptedInvestor r with
  | Some _ => true
  | None => false
  end.

(** The request is an accepted deposit of [investor]. *)
Definition acceptedFor (investor : string) (r : Request) : bool :=
  match acceptedInvestor r with
  | Some i => String.eqb i investor
  | None => false
  end.

(** The last request of the list that is an accepted deposit of
    [investor]. *)
Definition lastAcceptedFor (investor : string) (reqs : list Request)
  : option Request :=
  last (List.filter (acceptedFor investor) reqs).

(** Two states with the same accounts and the same fee total. *)
Definition sameLedger (srv1 srv2 : Server) : Prop :=
  investorStates srv1 = investorStates srv2
  ∧ platformTotalFees srv1 = platformTotalFees srv2.

(** What a deposit writes to the ledger, the time stamp apart. *)
Definition ledgerEntry (d : DepositData)
  : string * number * Allocation * number * number :=
  (d_investor d, newBalance d, d_allocation d, feeCharged d,
   d_platformTotalFees d).

(* ===================================================================== *)
(** ** The endpoints that only read *)
(* ===================================================================== *)

(** [ToBoolean], and [v || d]. *)
Definition ToBoolean (v : JsValue) : bool :=
  match v with
  | JUndefined | JNull => false
  | JBoolean b => b
  | JNumber (S754_zero _) | JNumber S754_nan => false
  | JNumber _ => true
  | JString s => negb (String.eqb s "")
  | JArray _ | JObject _ => true
  end.

Definition or_else (v d : JsValue) : JsValue :=
  if ToBoolean v then v else d.

(** Numeric literals of the read-only endpoints. *)
Definition lit_0_12 : number := of_decimal false 12 (-2).
Definition lit_0_02 : number := of_decimal false 2 (-2).
Definition lit_0_003 : number := of_decimal false 3 (-3).
Definition lit_0_99 : number := of_decimal false 99 (-2).
Definition lit_0_01 : number := of_decimal false 1 (-2).
Definition lit_0_7 : number := of_decimal false 7 (-1).
Definition lit_0_3 : number := of_decimal false 3 (-1).
Definition lit_100 : number := of_decimal false 100 0.

(** [0.12 + Math.random() * 0.02], the price that the mock endpoints
    report, from the value drawn. *)
Definition mockPrice (random : number) : number :=
  add lit_0_12 (mul random lit_0_02).

(** The body of a quote request; every field is read untyped. *)
Record QuoteBody : Type := mkQuoteBody {
  q_pair : JsValue;
  q_side : JsValue;
  q_amount : JsValue
}.

(** The [data] object of a quote. *)
Record QuoteData : Type := mkQuoteData {
  qd_pair : JsValue;
  qd_side : JsValue;
  inputAmount : JsValue;
  outputAmount : number;
  price : number;
  priceImpact : number;
  fee : number;
  minimumReceived : number;
  route : list string;
  qd_timestamp : Z
}.

(** [POST /api/soroswap/quote].  The handler destructures [req.body]; on a
    request without a body that throws, and so does the product with an
    amount whose conversion throws: both are [None] here.  [random1]
    and [random2] are the two values drawn, in the order of the object
    literal: for [outputAmount], then for [price]; [now] is the clock. *)
Definition quote (body : option QuoteBody) (random1 random2 : number) (now : Z)
  : option QuoteData :=
  match body with
  | None => None
  | Some b =>
      let amount := or_else (q_amount b) (JNumber lit_100) in
      if throws amount then None else
      Some {| qd_pair := or_else (q_pair b) (JString "XLM/USDC");
              qd_side := or_else (q_side b) (JString "BUY");
              inputAmount := amount;
              outputAmount := mul (ToNumber amount) (mockPrice random1);
              price := mockPrice random2;
              priceImpact := lit_0_01;
              fee := mul (ToNumber amount) lit_0_003;
              minimumReceived := mul (ToNumber amount) lit_0_99;
              route := ["XLM"; "USDC"]%string;
              qd_timestamp := now |}
  end.

Inductive Action : Type := BUY | SELL.

(** The [data] object of [POST /api/ai/analyze]. *)
Record Signal : Type := mkSignal {
  sg_pair : JsValue;
  action : Action;
  sg_price : number;
  quantity : number;
  confidence : number;
  indicators : list JsValue;
  sg_timestamp : Z
}.

Record AnalyzeBody : Type := mkAnalyzeBody { a_symbol : JsValue }.

(** [POST /api/ai/analyze], with the three values drawn: for [action],
    for [price] and for [confidence], and the clock.  A request without
    a body makes the destructuring throw, which is [None] here. *)
Definition analyze (body : option AnalyzeBody) (random1 random2 random3 : number)
    (now : Z) : option Signal :=
  match body with
  | None => None
  | Some b =>
      Some {| sg_pair := or_else (a_symbol b) (JString "XLM/USDC");
              action := if gt random1 lit_0_5 then BUY else SELL;
              sg_price := mockPrice random2;
              quantity := lit_100;
              confidence := add lit_0_7 (mul random3 lit_0_3);
              indicators := [];
              sg_timestamp := now |}
  end.

(** The one strategy that [GET /api/strategies] lists.  Its status is
    read from [strategyStatus]; the four dates are the clock at the
    moments the object literal is evaluated. *)
Record StrategyConfig : Type := mkStrategyConfig {
  c_pair : string;
  c_amount : number;
  gridSize : number;
  gridSpacing : number;
  priceRange_min : number;
  priceRange_max : number
}.

Record Performance : Type := mkPerformance {
  totalTrades : number;
  winningTrades : number;
  losingTrades : number;
  winRate : number;
  totalProfit : number;
  totalLoss : number;
  netProfit : number;
  maxDrawdown : number;
  sharpeRatio : number;
  startDate : Z;
  lastUpdate : Z
}.

Record Strategy : Type := mkStrategy {
  s_id : string;
  s_name : string;
  s_type : string;
  s_status : Status;
  s_config : StrategyConfig;
  s_performance : Performance;
  createdAt : Z;
  updatedAt : Z
}.

Definition listStrategies (t1 t2 t3 t4 : Z) (srv : Server) : list Strategy :=
  [ {| s_id := "grid-strategy-1";
       s_name := "XLM/USDC Grid Strategy";
       s_type := "GRID";
       s_status := statusOf "grid-strategy-1" srv;
       s_config :=
         {| c_pair := "XLM/USDC"; c_amount := num 1000;
            gridSize := num 10; gridSpacing := lit_0_01;
            priceRange_min := of_decimal false 10 (-2);
            priceRange_max := of_decimal false 15 (-2) |};
       s_performance :=
         {| totalTrades := num 15; winningTrades := num 12;
            losingTrades := num 3; winRate := of_decimal false 8 (-1);
            totalProfit := num 150; totalLoss := num 30;
            netProfit := num 120; maxDrawdown := of_decimal false 5 (-2);
            sharpeRatio := of_decimal false 15 (-1);
            startDate := t1; lastUpdate := t2 |};
       createdAt := t3; updatedAt := t4 |} ].

(* ===================================================================== *)
(** ** Validation and the shape of an accepted deposit *)
(* ===================================================================== *)

Lemma finitePositive_accepted amount :
  finitePositive amount = acceptedAmount amount.
Proof.
  unfold finitePositive, acceptedAmount, gt, le, pos_zero, SFltb, SFleb.
  destruct amount as [s|s| |s m e]; try destruct s; reflexivity.
Qed.

(** A conversion that throws has no value: [ToNumber] is [NaN] there,
    which no validation accepts. *)
Lemma throws_ToNumber : ∀ v, throws v = true → ToNumber v = S754_nan.
Proof.
  fix IH 1. intros v. destruct v as [| |b|x|s|l|props]; try discriminate.
  - destruct l as [|e [|e2 l]]; [discriminate| |reflexivity].
    pose proof (IH e) as IHe.
    destruct e as [| |b|x|s|l'|props]; try discriminate; [|reflexivity].
    cbn [throws existsb]. rewrite orb_false_r. intros H.
    change (ToNumber (JArray [JArray l'])) with (ToNumber (JArray l')).
    apply IHe. exact H.
  - reflexivity.
Qed.

Lemma accepted_not_throws body :
  acceptedAmount (coerceAmount body) = true → amountThrows body = false.
Proof.
  unfold amountThrows, coerceAmount. intros H.
  destruct (throws _) eqn:Ht; [|reflexivity].
  rewrite (throws_ToNumber _ Ht) in H. discriminate H.
Qed.

Lemma deposit_failed body random now srv :
  amountThrows body = true → deposit body random now srv = (srv, failed).
Proof. unfold deposit. intros ->. reflexivity. Qed.

Lemma deposit_rejected body random now srv :
  amountThrows body = false →
  truthy (body ≫= body_investor) = None
  ∨ truthy (body ≫= body_strategyId) = None
  ∨ acceptedAmount (coerceAmount body) = false →
  deposit body random now srv = (srv, rejection).
Proof.
  unfold deposit, acceptedAmount. intros ->.
  intros [H | [H | H]].
  - rewrite H. reflexivity.
  - rewrite H. destruct (truthy (body ≫= body_investor)); reflexivity.
  - apply negb_false_iff in H. rewrite H.
    destruct (truthy (body ≫= body_investor)); [|reflexivity].
    destruct (truthy (body ≫= body_strategyId)); reflexivity.
Qed.

Lemma deposit_accepted body random now srv investor strategyId :
  truthy (body ≫= body_investor) = Some investor →
  truthy (body ≫= body_strategyId) = Some strategyId →
  acceptedAmount (coerceAmount body) = true →
  deposit body random now srv =
    let '(srv', d) := applyDeposit investor strategyId (coerceAmount body)
                        (body ≫= body_asset) random now srv in
    (srv', {| status := 200; payload := Data d |}).
Proof.
  intros Hi Hs H. pose proof (accepted_not_throws _ H) as Ht.
  unfold deposit, acceptedAmount in *. rewrite Ht, Hi, Hs.
  apply negb_true_iff in H. rewrite H. reflexivity.
Qed.

Lemma deposit_ok_inv body random now srv srv' d :
  deposit body random now srv = (srv', {| status := 200; payload := Data d |}) →
  ∃ investor strategyId,
    truthy (body ≫= body_investor) = Some investor
    ∧ truthy (body ≫= body_strategyId) = Some strategyId
    ∧ acceptedAmount (coerceAmount body) = true
    ∧ applyDeposit investor strategyId (coerceAmount body)
        (body ≫= body_asset) random now srv = (srv', d).
Proof.
  intros H.
  destruct (amountThrows body) eqn:Ht.
  { rewrite deposit_failed in H by assumption. discriminate. }
  destruct (truthy (body ≫= body_investor)) as [i|] eqn:Hi.
  2:{ rewrite deposit_rejected in H by auto. discriminate. }
  destruct (truthy (body ≫= body_strategyId)) as [s|] eqn:Hs.
  2:{ rewrite deposit_rejected in H by auto. discriminate. }
  destruct (acceptedAmount (coerceAmount body)) eqn:Ha.
  2:{ rewrite deposit_rejected in H by auto. discriminate. }
  exists i, s. rewrite (deposit_accepted _ _ _ _ i s) in H by assumption.
  destruct applyDeposit as [s1 d1]. inversion H; subst. auto.
Qed.

Lemma lookupOrCreate_balance srv investor s1 s2 :
  balance (lookupOrCreate srv investor s1) = balance (lookupOrCreate srv investor s2).
Proof. unfold lookupOrCreate. destruct (_ !! _); reflexivity. Qed.

Lemma lookupOrCreate_allocation srv investor s1 s2 :
  allocation (lookupOrCreate srv investor s1)
  = allocation (lookupOrCreate srv investor s2).
Proof. unfold lookupOrCreate. destruct (_ !! _); reflexivity. Qed.

(** What one accepted deposit does to the account and to the counter. *)
Lemma applyDeposit_spec investor strategyId amount asset random now srv srv' d :
  applyDeposit investor strategyId amount asset random now srv = (srv', d) →
  let current := lookupOrCreate srv investor strategyId in
  let post := add (balance current) amount in
  let switch := negb (Allocation_eqb (allocation current) (d_allocation d)) in
  d_investor d = investor ∧ d_strategyId d = strategyId
  ∧ d_allocation d = decideAllocation random
  ∧ chargeFee switch post (platformTotalFees srv)
    = (feeCharged d, newBalance d, d_platformTotalFees d)
  ∧ investorStates srv'
    = <[investor := {| strategyId := strategyId; balance := newBalance d;
                       allocation := d_allocation d; lastDecisionAt := now |}]>
        (investorStates srv)
  ∧ platformTotalFees srv' = d_platformTotalFees d
  ∧ strategyStatus srv' = strategyStatus srv.
Proof.
  unfold applyDeposit. intros H.
  destruct (chargeFee _ _ _) as [[fee bal'] fees'] eqn:Hc.
  inversion H; subst; clear H. cbn. rewrite Hc. repeat split; reflexivity.
Qed.

Lemma chargeFee_balance switch post fees :
  snd (fst (chargeFee switch post fees))
  = if switch
    then Number_toFixed8 (sub post (fst (fst (chargeFee switch post fees))))
    else post.
Proof. destruct switch; reflexivity. Qed.

Lemma chargeFee_fees switch post fees :
  snd (chargeFee switch post fees)
  = if switch
    then Number_toFixed8 (add fees (fst (fst (chargeFee switch post fees))))
    else fees.
Proof. destruct switch; reflexivity. Qed.

Lemma current_after investor a srv' m :
  investorStates srv' = <[investor := a]> m →
  currentBalance investor srv' = balance a
  ∧ currentAllocation investor srv' = allocation a.
Proof.
  intros H. unfold currentBalance, currentAllocation, lookupOrCreate.
  rewrite H, lookup_insert_eq. split; reflexivity.
Qed.

Lemma deposit_step investor r srv :
  validFor investor r →
  ∃ d, deposit (r_body r) (r_random r) (r_now r) srv
       = (fst (deposit (r_body r) (r_random r) (r_now r) srv), ok d)
    ∧ currentBalance investor
        (fst (deposit (r_body r) (r_random r) (r_now r) srv))
      = replay (currentBalance investor srv) (currentAllocation investor srv)
               [(amountOf r, d)]
    ∧ currentAllocation investor
        (fst (deposit (r_body r) (r_random r) (r_now r) srv))
      = d_allocation d.
Proof.
  intros (Hi & [s Hs] & Ha).
  rewrite (deposit_accepted _ _ _ _ investor s) by assumption.
  destruct (applyDeposit _ _ _ _ _ _ _) as [srv' d] eqn:Happ.
  exists d. split; [reflexivity|]. cbn [fst].
  apply applyDeposit_spec in Happ
    as (_ & _ & _ & Hc & Hst & _ & _).
  cbv zeta in Hc.
  destruct (current_after _ _ _ _ Hst) as [-> ->].
  cbn [balance allocation replay]. unfold currentBalance, currentAllocation.
  rewrite (lookupOrCreate_balance srv investor "" s),
          (lookupOrCreate_allocation srv investor "" s).
  split; [|reflexivity].
  pose proof (chargeFee_balance
    (negb (Allocation_eqb (allocation (lookupOrCreate srv investor s))
                          (d_allocation d)))
    (add (balance (lookupOrCreate srv investor s)) (coerceAmount (r_body r)))
    (platformTotalFees srv)) as Hb.
  rewrite Hc in Hb. cbn [fst snd] in Hb. rewrite Hb. unfold amountOf.
  destruct (Allocation_eqb _ _); reflexivity.
Qed.

(** The fee total across one request. *)
Lemma platform_fees_recurrence body random now srv :
  platformTotalFees start = pos_zero
  ∧ match dataOf (snd (deposit body random now srv)) with
    | Some d =>
        d_platformTotalFees d
        = platformTotalFees (fst (deposit body random now srv))
        ∧ platformTotalFees (fst (deposit body random now srv))
          = if Allocation_eqb
                 (allocation (lookupOrCreate srv (d_investor d) (d_strategyId d)))
                 (d_allocation d)
            then platformTotalFees srv
            else Number_toFixed8 (add (platformTotalFees srv) (feeCharged d))
    | None =>
        platformTotalFees (fst (deposit body random now srv))
        = platformTotalFees srv
    end.
Proof.
  split; [reflexivity|].
  destruct (amountThrows body) eqn:Ht;
    [rewrite deposit_failed by assumption; reflexivity|].
  destruct (truthy (body ≫= body_investor)) as [i|] eqn:Hi;
    [|rewrite deposit_rejected by auto; reflexivity].
  destruct (truthy (body ≫= body_strategyId)) as [s|] eqn:Hs;
    [|rewrite deposit_rejected by auto; reflexivity].
  destruct (acceptedAmount (coerceAmount body)) eqn:Ha;
    [|rewrite deposit_rejected by auto; reflexivity].
  rewrite (deposit_accepted _ _ _ _ i s) by assumption.
  destruct (applyDeposit _ _ _ _ _ _ _) as [srv' d] eqn:Happ.
  cbn [fst snd dataOf payload].
  apply applyDeposit_spec in Happ as (-> & -> & _ & Hc & _ & Hf & _).
  cbv zeta in Hc. split; [symmetry; exact Hf|]. rewrite Hf.
  pose proof (chargeFee_fees
    (negb (Allocation_eqb (allocation (lookupOrCreate srv i s)) (d_allocation d)))
    (add (balance (lookupOrCreate srv i s)) (coerceAmount body))
    (platformTotalFees srv)) as Hb.
  rewrite Hc in Hb. cbn [fst snd] in Hb. rewrite Hb.
  destruct (Allocation_eqb _ _); reflexivity.
Qed.

Lemma validFor_dec_true investor r s :
  truthy (r_body r ≫= body_investor) = Some investor →
  truthy (r_body r ≫= body_strategyId) = Some s →
  acceptedAmount (coerceAmount (r_body r)) = true →
  validFor investor r.
Proof. intros H1 H2 H3. repeat split; eauto. Qed.

(** Every request is answered in one of three ways: the conversion of
    its amount throws or it is rejected, and the state is the one
    before, or it is accepted and the account and the fee total are
    written whole.  The handler has no other outcome. *)
Lemma deposit_rejected_or_applied body random now srv :
  deposit body random now srv = (srv, failed)
  ∨ deposit body random now srv = (srv, rejection)
  ∨ ∃ investor strategyId srv' d,
      deposit body random now srv = (srv', ok d)
      ∧ applyDeposit investor strategyId (coerceAmount body)
          (body ≫= body_asset) random now srv = (srv', d)
      ∧ investorStates srv' !! investor
        = Some {| strategyId := strategyId; balance := newBalance d;
                  allocation := d_allocation d; lastDecisionAt := decidedAt d |}
      ∧ platformTotalFees srv' = d_platformTotalFees d.
Proof.
  destruct (amountThrows body) eqn:Ht;
    [left; apply deposit_failed; assumption|right].
  destruct (truthy (body ≫= body_investor)) as [i|] eqn:Hi;
    [|left; apply deposit_rejected; auto].
  destruct (truthy (body ≫= body_strategyId)) as [s|] eqn:Hs;
    [|left; apply deposit_rejected; auto].
  destruct (acceptedAmount (coerceAmount body)) eqn:Ha;
    [|left; apply deposit_rejected; auto].
  right. rewrite (deposit_accepted _ _ _ _ i s) by assumption.
  destruct (applyDeposit i s (coerceAmount body) (body ≫= body_asset) random now srv)
    as [srv' d] eqn:Happ.
  exists i, s, srv', d. split; [reflexivity|]. split; [exact Happ|].
  unfold applyDeposit in Happ.
  destruct (chargeFee _ _ _) as [[fee bal'] fees'].
  injection Happ as <- <-. cbn. rewrite lookup_insert_eq. split; reflexivity.
Qed.

(* ===================================================================== *)
(** ** Validation gating and the fee rule *)
(* ===================================================================== *)

(** Claim C3 fails as stated.  The amount is converted inside the
    [try] block of the handler, before the validation.  The amount
    [{"toString": 1}] of a JSON body is not a finite number greater
    than zero, yet the request is not answered with the validation
    error: the conversion throws, and the handler answers with the
    failure of its [catch] block, status 500. *)
Lemma object_amount_is_answered_500 :
  let body := depositOf "inv1" "grid-1" (JObject [("toString", JNumber (num 1))]) in
  amountThrows body = true
  ∧ finitePositive (coerceAmount body) = false
  ∧ deposit body random_high 1 start = (start, failed)
  ∧ status failed = 500
  ∧ failed ≠ rejection.
Proof.
  cbv zeta.
  split; [vm_compute; reflexivity|].
  split; [vm_compute; reflexivity|].
  split; [vm_compute; reflexivity|].
  split; [reflexivity|]. intros H. discriminate H.
Qed.

(** Claim C3, as the code has it.  Validation gating: a deposit request
    whose investor is missing or empty, whose strategyId is missing or
    empty, or whose amount does not convert to a finite number strictly
    greater than zero, is answered with an error, and the whole state,
    the accounts and the fee total included, is the one before the
    request.  The error is the validation error (status 400) when the
    conversion of the amount returns, and the failure of the [catch]
    block (status 500) when the conversion throws. *)
Theorem deposit_validation_gating body random now srv :
  truthy (body ≫= body_investor) = None
  ∨ truthy (body ≫= body_strategyId) = None
  ∨ finitePositive (coerceAmount body) = false →
  deposit body random now srv
  = (srv, if amountThrows body then failed else rejection)
  ∧ status rejection = 400
  ∧ status failed = 500.
Proof.
  intros H. split; [|split; reflexivity].
  destruct (amountThrows body) eqn:Ht.
  - apply deposit_failed. exact Ht.
  - apply deposit_rejected; [exact Ht|].
    rewrite <- finitePositive_accepted. exact H.
Qed.

Lemma deposit_validation_gating_witness :
  (truthy (depositOf "" "s1" (JNumber (num 100)) ≫= body_investor) = None
   ∨ truthy (depositOf "" "s1" (JNumber (num 100)) ≫= body_strategyId) = None
   ∨ finitePositive (coerceAmount (depositOf "" "s1" (JNumber (num 100)))) = false)
  ∧ (deposit (depositOf "" "s1" (JNumber (num 100))) random_high 1 start
       = (start,
          if amountThrows (depositOf "" "s1" (JNumber (num 100)))
          then failed else rejection)
     ∧ status rejection = 400
     ∧ status failed = 500).
Proof.
  split.
  - left. reflexivity.
  - apply deposit_validation_gating. left. reflexivity.
Defined.

(** Claim C2 fails as stated.  A first deposit of [0.046875], which is
    [3 / 64] exactly, with a switching decision: the balance after the
    deposit times [0.005] is [0.000234375], which standard rounding
    takes to [0.00023438].  The handler charges [0.00023437]: its
    product is the binary64 product, which lies just below
    [0.000234375], and [toFixed(8)] rounds that. *)
Lemma fee_is_not_the_rounded_product :
  let body := depositOf "inv1" "grid-1" (JNumber (of_decimal false 46875 (-6))) in
  let current := lookupOrCreate start "inv1" "grid-1" in
  let postDepositBalance := add (balance current) (coerceAmount body) in
  ∃ d, snd (deposit body random_high 1 start) = ok d
    ∧ postDepositBalance = S754_finite false 6755399441055744 (-57)
    ∧ allocation current = STABLE
    ∧ d_allocation d = INVESTED
    ∧ toFixed8 (mul postDepositBalance lit_0_005) = Some "0.00023437"%string
    ∧ feeCharged d = of_decimal false 23437 (-8)
    ∧ roundedFee postDepositBalance = of_decimal false 23438 (-8)
    ∧ feeCharged d ≠ roundedFee postDepositBalance.
Proof.
  cbv zeta. eexists.
  do 7 (split; [vm_compute; reflexivity|]).
  intros H. vm_compute in H. discriminate H.
Qed.

(** Claim C2, as the code has it.  Fee only on switch: for every
    accepted deposit the fee charged is exactly [0] when the decision is
    the allocation the account already has, and exactly
    [Number((balance * 0.005).toFixed(8))] otherwise, where [balance] is
    the balance after the amount was added and before the fee is
    subtracted, the product is the binary64 product, and [toFixed(8)]
    rounds the exact value of that product, the larger candidate on a
    tie. *)
Theorem fee_only_on_switch body random now srv srv' d :
  deposit body random now srv = (srv', {| status := 200; payload := Data d |}) →
  let current := lookupOrCreate srv (d_investor d) (d_strategyId d) in
  let postDepositBalance := add (balance current) (coerceAmount body) in
  feeCharged d =
    if Allocation_eqb (decideAllocation random) (allocation current)
    then pos_zero
    else Number_toFixed8 (mul postDepositBalance lit_0_005).
Proof.
  intros H. apply deposit_ok_inv in H as (i & s & Hi & Hs & Ha & H).
  unfold applyDeposit in H.
  destruct (chargeFee _ _ _) as [[fee bal'] fees'] eqn:Hc.
  inversion H; subst; clear H. cbn.
  unfold chargeFee in Hc.
  destruct (allocation (lookupOrCreate srv i s)), (decideAllocation random);
    cbn in Hc |- *; inversion Hc; reflexivity.
Qed.

Lemma fee_only_on_switch_witness :
  let body := depositOf "inv1" "grid-1" (JNumber (num 1000)) in
  let d := {| d_investor := "inv1"; d_strategyId := "grid-1"; d_asset := "XLM";
              newBalance := num 995; d_allocation := INVESTED;
              feeCharged := num 5; d_platformTotalFees := num 5;
              simulated := true; decidedAt := 1 |} in
  let srv' := fst (deposit body random_high 1 start) in
  deposit body random_high 1 start = (srv', ok d)
  ∧ feeCharged d
    = if Allocation_eqb (decideAllocation random_high)
           (allocation (lookupOrCreate start (d_investor d) (d_strategyId d)))
      then pos_zero
      else Number_toFixed8
             (mul (add (balance (lookupOrCreate start (d_investor d)
                                   (d_strategyId d)))
                       (coerceAmount body)) lit_0_005).
Proof.
  intros body d srv'.
  assert (H : deposit body random_high 1 start = (srv', ok d)).
  { apply injective_projections; [reflexivity|vm_compute; reflexivity]. }
  split; [exact H|].
  exact (fee_only_on_switch body random_high 1 start srv' d H).
Defined.

(* ===================================================================== *)
(** ** Account creation, pause and resume *)
(* ===================================================================== *)

Lemma lookupOrCreate_absent srv investor strategyId :
  investorStates srv !! investor = None →
  lookupOrCreate srv investor strategyId = freshAccount strategyId.
Proof. unfold lookupOrCreate. intros ->. reflexivity. Qed.

Lemma lookupOrCreate_withAccount srv investor strategyId a :
  lookupOrCreate (withAccount investor a srv) investor strategyId = a.
Proof. unfold lookupOrCreate, withAccount. cbn. rewrite lookup_insert_eq. reflexivity. Qed.

Lemma applyDeposit_withAccount investor strategyId amount asset random now srv :
  investorStates srv !! investor = None →
  applyDeposit investor strategyId amount asset random now
    (withAccount investor (freshAccount strategyId) srv)
  = applyDeposit investor strategyId amount asset random now srv.
Proof.
  intros Hnone. unfold applyDeposit.
  rewrite lookupOrCreate_withAccount, (lookupOrCreate_absent srv) by assumption.
  cbn. destruct (chargeFee _ _ _) as [[fee bal'] fees'].
  rewrite insert_insert_eq. reflexivity.
Qed.

(** Claim C7.  Lazy account creation: the first valid deposit of an
    investor without a record starts from the record with balance [0],
    allocation [STABLE] and [lastDecisionAt] at the epoch; the request is
    handled exactly as if that record had been stored beforehand, and the
    account exists afterwards. *)
Theorem lazy_account_creation body random now srv investor strategyId :
  truthy (body ≫= body_investor) = Some investor →
  truthy (body ≫= body_strategyId) = Some strategyId →
  finitePositive (coerceAmount body) = true →
  investorStates srv !! investor = None →
  lookupOrCreate srv investor strategyId
    = {| strategyId := strategyId; balance := pos_zero;
         allocation := STABLE; lastDecisionAt := 0 |}
  ∧ deposit body random now srv
    = deposit body random now
        (withAccount investor (freshAccount strategyId) srv)
  ∧ is_Some (investorStates (fst (deposit body random now srv)) !! investor).
Proof.
  intros Hi Hs Ha Hnone. rewrite finitePositive_accepted in Ha.
  split; [apply lookupOrCreate_absent; assumption|].
  rewrite !(deposit_accepted _ _ _ _ investor strategyId) by assumption.
  rewrite applyDeposit_withAccount by assumption.
  split; [reflexivity|].
  unfold applyDeposit. destruct (chargeFee _ _ _) as [[fee bal'] fees'].
  cbn. rewrite lookup_insert_eq. eauto.
Qed.

Lemma lazy_account_creation_witness :
  let body := depositOf "inv1" "grid-1" (JNumber (num 1000)) in
  truthy (body ≫= body_investor) = Some "inv1"%string
  ∧ truthy (body ≫= body_strategyId) = Some "grid-1"%string
  ∧ finitePositive (coerceAmount body) = true
  ∧ investorStates start !! "inv1"%string = None
  ∧ (lookupOrCreate start "inv1" "grid-1"
       = {| strategyId := "grid-1"; balance := pos_zero;
            allocation := STABLE; lastDecisionAt := 0 |}
     ∧ deposit body random_high 1 start
       = deposit body random_high 1
           (withAccount "inv1" (freshAccount "grid-1") start)
     ∧ is_Some (investorStates (fst (deposit body random_high 1 start))
                  !! "inv1"%string)).
Proof.
  intros body.
  assert (H1 : truthy (body ≫= body_investor) = Some "inv1"%string) by reflexivity.
  assert (H2 : truthy (body ≫= body_strategyId) = Some "grid-1"%string) by reflexivity.
  assert (H3 : finitePositive (coerceAmount body) = true) by (vm_compute; reflexivity).
  assert (H4 : investorStates start !! "inv1"%string = None) by reflexivity.
  repeat split; try assumption;
    apply (lazy_account_creation body random_high 1 start "inv1" "grid-1" H1 H2 H3 H4).
Defined.

(** Claim C8.  Pause and resume: pausing twice leaves the status
    [PAUSED] and the state of the first pause; a strategy never set
    reads [ACTIVE] and resuming sets [ACTIVE]; both operations answer
    with the validation error and change nothing when the identifier is
    missing or empty; neither changes an account or the fee total. *)
Theorem pause_resume_semantics id srv nobody :
  truthy (Some id) = Some id →
  truthy (nobody ≫= body_id) = None →
  let paused := fst (pauseStrategy (idOf id) srv) in
  let pausedTwice := fst (pauseStrategy (idOf id) paused) in
  let resumed := fst (resumeStrategy (idOf id) srv) in
  (statusOf id paused = PAUSED ∧ statusOf id pausedTwice = PAUSED
   ∧ pausedTwice = paused)
  ∧ (strategyStatus srv !! id = None → statusOf id srv = ACTIVE)
  ∧ statusOf id resumed = ACTIVE
  ∧ pauseStrategy nobody srv = (srv, validation_failed "Strategy ID is required")
  ∧ resumeStrategy nobody srv = (srv, validation_failed "Strategy ID is required")
  ∧ (investorStates paused = investorStates srv
     ∧ platformTotalFees paused = platformTotalFees srv)
  ∧ (investorStates resumed = investorStates srv
     ∧ platformTotalFees resumed = platformTotalFees srv).
Proof.
  intros Hid Hno. cbn zeta.
  unfold pauseStrategy, resumeStrategy, idOf. cbn [mbind option_bind body_id].
  rewrite Hid, Hno. cbn [fst].
  unfold statusOf, setStatus. cbn.
  rewrite !lookup_insert_eq, insert_insert_eq.
  repeat split; try reflexivity.
  intros ->. reflexivity.
Qed.

Lemma pause_resume_semantics_witness :
  truthy (Some "s1"%string) = Some "s1"%string
  ∧ truthy (None ≫= body_id) = None
  ∧ statusOf "s1" (fst (pauseStrategy (idOf "s1")
                          (fst (pauseStrategy (idOf "s1") start)))) = PAUSED
  ∧ statusOf "s1" (fst (resumeStrategy (idOf "s1") start)) = ACTIVE.
Proof.
  assert (H1 : truthy (Some "s1"%string) = Some "s1"%string) by reflexivity.
  assert (H2 : truthy (@None IdBody ≫= body_id) = None) by reflexivity.
  pose proof (pause_resume_semantics "s1" start None H1 H2) as H.
  cbn zeta in H.
  repeat split; try assumption; apply H.
Defined.

(* ===================================================================== *)
(** ** Two consequences of the code *)
(* ===================================================================== *)

(** Claim C9.  A valid deposit can return a balance strictly below the
    balance before it: with 10000 on the account, depositing 1 with a
    switching decision is charged 50.005 on the whole 10001 and leaves
    9950.995. *)
Theorem small_deposit_can_shrink_balance :
  let srv := fst (deposit (depositOf "inv1" "s1" (JNumber (num 10000)))
                    random_low 1 start) in
  let body := depositOf "inv1" "s1" (JNumber (num 1)) in
  ∃ d,
    balanceOf "inv1" srv = Some (num 10000)
    ∧ finitePositive (coerceAmount body) = true
    ∧ snd (deposit body random_high 2 srv) = ok d
    ∧ feeCharged d = of_decimal false 50005 (-3)
    ∧ newBalance d = of_decimal false 9950995 (-3)
    ∧ lt (newBalance d) (num 10000) = true.
Proof.
  cbv zeta. eexists.
  do 5 (split; [vm_compute; reflexivity|]). vm_compute; reflexivity.
Qed.

(** Claim C10.  The amount is validated after [Number(... ?? 0)]: a
    request whose amount is a string is handled as the request with the
    number that the string denotes (["100"] is accepted as [100]; it
    is [100] also after a no-break space, U+00A0, the bytes 194 and 160
    of the text, which [Number] skips as it skips every white space of
    Unicode), and a request without an amount is coerced to [0] and
    rejected. *)
Theorem amount_is_coerced_before_validation :
  (∀ s investor strategyId asset random now srv,
      deposit (Some {| body_investor := investor; body_strategyId := strategyId;
                       body_amount := JString s; body_asset := asset |})
              random now srv
      = deposit (Some {| body_investor := investor; body_strategyId := strategyId;
                         body_amount := JNumber (StringToNumber s);
                         body_asset := asset |})
                random now srv)
  ∧ StringToNumber "100" = num 100
  ∧ StringToNumber (String "194" (String "160" "100")) = num 100
  ∧ (∃ d, snd (deposit (depositOf "inv1" "s1" (JString "100")) random_low 1 start)
          = ok d ∧ newBalance d = num 100)
  ∧ (∀ investor strategyId asset,
        coerceAmount (Some {| body_investor := investor;
                              body_strategyId := strategyId;
                              body_amount := JUndefined;
                              body_asset := asset |}) = pos_zero)
  ∧ coerceAmount None = pos_zero
  ∧ (∀ investor strategyId asset random now srv,
        deposit (Some {| body_investor := investor;
                         body_strategyId := strategyId;
                         body_amount := JUndefined; body_asset := asset |})
                random now srv = (srv, rejection)).
Proof.
  split; [reflexivity|].
  split; [vm_compute; reflexivity|].
  split; [vm_compute; reflexivity|].
  split; [eexists; split; (vm_compute; reflexivity)|].
  split; [reflexivity|].
  split; [reflexivity|].
  intros. apply deposit_rejected; [reflexivity|]. right; right. reflexivity.
Qed.

(* ===================================================================== *)
(** ** Conservation of the balance *)
(* ===================================================================== *)

(** Claim C1 fails as stated.  Three valid deposits of [0.000000004]
    with alternating decisions are each rounded away: the final balance
    is [0] and no fee was charged, while the deposits sum to
    [0.000000012], which is [0.00000001] at eight decimals. *)
Lemma conservation_fails_on_dust :
  Forall (validFor "inv1") dustDeposits
  ∧ balanceOf "inv1" (fst (run dustDeposits start)) = Some pos_zero
  ∧ sumOf (map feeCharged (omap dataOf (snd (run dustDeposits start)))) = pos_zero
  ∧ toFixed8 pos_zero = Some "0.00000000"%string
  ∧ toFixed8 (sub (sumOf (map amountOf dustDeposits)) pos_zero)
    = Some "0.00000001"%string
  ∧ ¬ conserved "inv1" dustDeposits start.
Proof.
  split.
  { repeat (apply Forall_cons; split); try apply Forall_nil_2.
    all: apply (validFor_dec_true _ _ "s1"); vm_compute; reflexivity. }
  do 4 (split; [vm_compute; reflexivity|]).
  unfold conserved. intros (final & Hf & Heq).
  assert (Hb : balanceOf "inv1" (fst (run dustDeposits start)) = Some pos_zero)
    by (vm_compute; reflexivity).
  rewrite Hb in Hf. injection Hf as <-.
  vm_compute in Heq. discriminate Heq.
Qed.

(** Claim C1, as the code has it.  Over any sequence of valid deposits
    of one investor the final balance is the starting balance replayed
    through the deposits: each adds its amount; a deposit that switched
    the allocation also subtracts the fee it reported and rounds the
    difference to eight decimals.  Nothing else is rounded. *)
Theorem balance_is_replayed investor reqs srv :
  Forall (validFor investor) reqs →
  ∃ ds, snd (run reqs srv) = map ok ds
    ∧ length ds = length reqs
    ∧ currentBalance investor (fst (run reqs srv))
      = replay (currentBalance investor srv) (currentAllocation investor srv)
               (zip (map amountOf reqs) ds).
Proof.
  revert srv. induction reqs as [|r reqs IH]; intros srv Hall.
  - exists []. repeat split; reflexivity.
  - apply Forall_cons in Hall as [Hr Hall].
    destruct (deposit_step investor r srv Hr) as (d & Hd & Hbal & Hal).
    cbn [run]. rewrite Hd.
    set (srv1 := fst (deposit (r_body r) (r_random r) (r_now r) srv)) in *.
    destruct (IH srv1 Hall) as (ds & Hresp & Hlen & Hfin).
    destruct (run reqs srv1) as [srv2 resps] eqn:Hrun. cbn [fst snd] in *.
    exists (d :: ds). split; [cbn; rewrite Hresp; reflexivity|].
    split; [cbn; rewrite Hlen; reflexivity|].
    rewrite Hfin, Hbal, Hal. reflexivity.
Qed.

Lemma balance_is_replayed_witness :
  Forall (validFor "inv1") dustDeposits
  ∧ ∃ ds, snd (run dustDeposits start) = map ok ds
      ∧ length ds = length dustDeposits
      ∧ currentBalance "inv1" (fst (run dustDeposits start))
        = replay (currentBalance "inv1" start) (currentAllocation "inv1" start)
                 (zip (map amountOf dustDeposits) ds).
Proof.
  assert (H : Forall (validFor "inv1") dustDeposits).
  { repeat (apply Forall_cons; split); try apply Forall_nil_2.
    all: apply (validFor_dec_true _ _ "s1"); vm_compute; reflexivity. }
  split; [exact H|].
  exact (balance_is_replayed "inv1" dustDeposits start H).
Defined.

(* ===================================================================== *)
(** ** The text of toFixed read back by Number *)
(* ===================================================================== *)

Section Text.

Lemma digit_cases d :
  0 <= d < 10 →
  d = 0 ∨ d = 1 ∨ d = 2 ∨ d = 3 ∨ d = 4 ∨ d = 5 ∨ d = 6 ∨ d = 7 ∨ d = 8 ∨ d = 9.
Proof. lia. Qed.

Ltac each_digit d H :=
  destruct (digit_cases d H)
    as [->|[->|[->|[->|[->|[->|[->|[->|[->| ->]]]]]]]]].

Lemma digit_val_char d : 0 <= d < 10 → digit_val (digit_char d) = Some d.
Proof. intros H. each_digit d H; reflexivity. Qed.

Lemma digit_char_plain d c :
  0 <= d < 10 →
  In c ["+"; "-"; "I"; "x"; "X"; "o"; "O"; "b"; "B"; "."]%char →
  Ascii.eqb (digit_char d) c = false.
Proof.
  intros H Hc. cbn [In] in Hc.
  repeat (destruct Hc as [<-|Hc]; [each_digit d H; reflexivity|]).
  contradiction.
Qed.

Lemma digit_char_not_white d :
  0 <= d < 10 → is_StrWhiteSpaceChar (N_of_ascii (digit_char d)) = false.
Proof. intros H. each_digit d H; reflexivity. Qed.

Lemma digit_char_plain_byte d : 0 <= d < 10 → plain (digit_char d).
Proof. intros H. each_digit d H; reflexivity. Qed.

Lemma fixed_digits_plain k v : Forall plain (fixed_digits k v).
Proof.
  induction k as [|k IH]; cbn [fixed_digits]; constructor; [|exact IH].
  apply digit_char_plain_byte, Z.mod_pos_bound. lia.
Qed.

Lemma code_points_plain l : Forall plain l → code_points l = map N_of_ascii l.
Proof.
  induction 1 as [|c l Hc _ IH]; [reflexivity|].
  cbn [code_points map]. unfold plain in Hc. rewrite Hc, IH. reflexivity.
Qed.

Lemma ascii_text_plain l : Forall plain l → ascii_text (map N_of_ascii l) = Some l.
Proof.
  induction 1 as [|c l Hc _ IH]; [reflexivity|].
  cbn [ascii_text map]. unfold plain in Hc.
  rewrite Hc, IH, ascii_N_embedding. reflexivity.
Qed.

Lemma mod10_range v : 0 <= v mod 10 < 10.
Proof. apply Z.mod_pos_bound. lia. Qed.

(** Reading back printed digits. *)
Lemma digits_fixed k : ∀ v rest acc cnt,
  0 <= v →
  digits 10 (fixed_digits k v ++ rest) acc cnt
  = digits 10 rest (acc * 10 ^ Z.of_nat k + v mod 10 ^ Z.of_nat k)
           (cnt + Z.of_nat k).
Proof.
  induction k as [|k IH]; intros v rest acc cnt Hv.
  - cbn [fixed_digits app]. change (Z.of_nat 0) with 0.
    rewrite Z.pow_0_r, Z.mod_1_r. f_equal; lia.
  - cbn [fixed_digits app digits].
    rewrite digit_val_char by apply mod10_range.
    destruct (Z.ltb_spec ((v / 10 ^ Z.of_nat k) mod 10) 10) as [_|Hge];
      [|pose proof (mod10_range (v / 10 ^ Z.of_nat k)); lia].
    rewrite IH by assumption. f_equal; [|lia].
    rewrite Nat2Z.inj_succ, Z.pow_succ_r by lia.
    assert (Hp : 0 < 10 ^ Z.of_nat k) by (apply Z.pow_pos_nonneg; lia).
    rewrite (Z.mul_comm 10), Z.rem_mul_r by lia. ring.
Qed.

Lemma decimal_length_spec fuel : ∀ v,
  0 <= v < 10 ^ Z.of_nat (S fuel) →
  v < 10 ^ Z.of_nat (decimal_length fuel v).
Proof.
  induction fuel as [|fuel IH]; intros v Hv.
  - exact (proj2 Hv).
  - cbn [decimal_length]. destruct (Z.ltb_spec v 10) as [Hlt|Hge].
    + change (10 ^ Z.of_nat 1) with 10. exact Hlt.
    + rewrite Nat2Z.inj_succ, Z.pow_succ_r by lia.
      assert (Hdiv : v / 10 < 10 ^ Z.of_nat (decimal_length fuel (v / 10))).
      { apply IH. split; [apply Z.div_pos; lia|].
        apply Z.div_lt_upper_bound; [lia|].
        rewrite Nat2Z.inj_succ, Z.pow_succ_r in Hv by lia. lia. }
      pose proof (Z.mul_succ_div_gt v 10 ltac:(lia)). lia.
Qed.

Lemma decimal_length_pos fuel v : (1 <= decimal_length fuel v)%nat.
Proof. destruct fuel; cbn; [lia|]. destruct (v <? 10); lia. Qed.

Lemma trim_id c mid last :
  is_StrWhiteSpaceChar c = false →
  is_StrWhiteSpaceChar last = false →
  trim (c :: mid ++ [last]) = c :: mid ++ [last].
Proof.
  intros Hc Hl. unfold trim. cbn [skip_white]. rewrite Hc.
  change (c :: mid ++ [last]) with ((c :: mid) ++ [last]).
  rewrite rev_app_distr. cbn [rev app skip_white]. rewrite Hl.
  change (last :: rev mid ++ [c]) with ((last :: rev (c :: mid))).
  change (last :: rev (c :: mid)) with (rev [last] ++ rev (c :: mid)).
  rewrite <- rev_app_distr, rev_involutive. reflexivity.
Qed.

(** Text of one-byte characters with no white space at either end is
    read as it stands. *)
Lemma StringToNumber_plain c mid last :
  Forall plain (c :: mid ++ [last]) →
  is_StrWhiteSpaceChar (N_of_ascii c) = false →
  is_StrWhiteSpaceChar (N_of_ascii last) = false →
  StringToNumber (string_of_list_ascii (c :: mid ++ [last]))
  = StrNumericLiteral (c :: mid ++ [last]).
Proof.
  intros Hp Hc Hl. unfold StringToNumber.
  rewrite list_ascii_of_string_of_list_ascii, code_points_plain by assumption.
  assert (E : map N_of_ascii (c :: mid ++ [last])
              = N_of_ascii c :: map N_of_ascii mid ++ [N_of_ascii last])
    by (cbn [map]; rewrite map_app; reflexivity).
  rewrite E, trim_id, <- E, ascii_text_plain by assumption. reflexivity.
Qed.

(** Reading the digits of an integer part and of eight decimals. *)
Lemma StrUnsignedDecimalLiteral_fixed neg L n :
  0 <= n →
  n / 10 ^ 8 < 10 ^ Z.of_nat (S L) →
  StrUnsignedDecimalLiteral neg
    (fixed_digits (S L) (n / 10 ^ 8) ++ "."%char :: fixed_digits 8 n)
  = of_decimal neg n (-8).
Proof.
  intros Hn Hi. unfold StrUnsignedDecimalLiteral.
  set (i := n / 10 ^ 8) in *.
  assert (Hi0 : 0 <= i) by (apply Z.div_pos; lia).
  (* not the word Infinity *)
  assert (Hword : String.eqb
                    (string_of_list_ascii
                       (fixed_digits (S L) i ++ "."%char :: fixed_digits 8 n))
                    "Infinity" = false).
  { cbn [fixed_digits app string_of_list_ascii String.eqb].
    rewrite digit_char_plain; [reflexivity|apply mod10_range|].
    cbn; tauto. }
  rewrite Hword.
  rewrite digits_fixed by assumption.
  rewrite Z.mod_small by lia.
  cbn [digits digit_val]. cbn [Ascii.eqb Bool.eqb].
  change (digit_val "."%char) with (@None Z). cbn iota.
  change (Ascii.eqb "." ".") with true. cbn iota.
  rewrite <- (app_nil_r (fixed_digits 8 n)).
  rewrite digits_fixed by assumption. cbn [digits].
  change (Z.of_nat 8) with 8.
  assert (Hcnt : (0 <? 0 + Z.of_nat (S L) + (0 + 8)) = true) by (apply Z.ltb_lt; lia).
  rewrite Hcnt. cbn [ExponentPart].
  f_equal.
  - pose proof (Z.div_mod n (10 ^ 8) ltac:(lia)). fold i in H. lia.
Qed.

Lemma is_char_digit d l :
  0 <= d < 10 →
  incl l ["+"; "-"; "I"; "x"; "X"; "o"; "O"; "b"; "B"; "."]%char →
  is_char (digit_char d) l = false.
Proof.
  intros Hd Hl. unfold is_char. induction l as [|c l IH]; [reflexivity|].
  cbn [existsb]. rewrite digit_char_plain; [|assumption|apply Hl; left; reflexivity].
  apply IH. intros x Hx. apply Hl. right. exact Hx.
Qed.

Lemma fixed_digits_last k v :
  ∃ mid, fixed_digits (S k) v = mid ++ [digit_char (v mod 10)].
Proof.
  induction k as [|k [mid IH]].
  - exists (@nil ascii). cbn [fixed_digits app]. change (Z.of_nat 0) with 0.
    rewrite Z.pow_0_r, Z.div_1_r. reflexivity.
  - exists (digit_char ((v / 10 ^ Z.of_nat (S k)) mod 10) :: mid).
    change (fixed_digits (S (S k)) v)
      with (digit_char ((v / 10 ^ Z.of_nat (S k)) mod 10) :: fixed_digits (S k) v).
    rewrite IH. reflexivity.
Qed.

(** What [Number] reads in the text that [toFixed(8)] prints for the
    integer [n]. *)
Lemma StringToNumber_fixed (neg : bool) n :
  0 <= n <= 10 ^ 29 →
  StringToNumber
    (string_of_list_ascii
       ((if neg then ["-"%char] else @nil ascii)
          ++ fixed_digits (decimal_length 22 (n / 10 ^ 8)) (n / 10 ^ 8)
          ++ "."%char :: fixed_digits 8 n))
  = of_decimal neg n (-8).
Proof.
  intros Hn.
  set (i := n / 10 ^ 8).
  assert (Hi0 : 0 <= i) by (apply Z.div_pos; lia).
  assert (Hi : i < 10 ^ Z.of_nat 23).
  { apply Z.div_lt_upper_bound; [lia|].
    change (10 ^ 8 * 10 ^ Z.of_nat 23) with (10 ^ 31).
    assert (10 ^ 29 < 10 ^ 31) by (vm_compute; reflexivity). lia. }
  pose proof (decimal_length_spec 22 i ltac:(lia)) as Hlen.
  pose proof (decimal_length_pos 22 i) as Hpos.
  destruct (decimal_length 22 i) as [|L]; [lia|]. clear Hpos.
  destruct (fixed_digits_last 7 n) as [mid Hmid].
  pose proof (StrUnsignedDecimalLiteral_fixed neg L n ltac:(lia) Hlen) as Hlit.
  fold i in Hlit.
  set (d0 := (i / 10 ^ Z.of_nat L) mod 10) in *.
  assert (Hd0 : 0 <= d0 < 10) by apply mod10_range.
  assert (Hlast : is_StrWhiteSpaceChar (N_of_ascii (digit_char (n mod 10))) = false)
    by apply digit_char_not_white, mod10_range.
  assert (Hpl : Forall plain (fixed_digits (S L) i ++ "."%char :: fixed_digits 8 n)).
  { apply Forall_app. split; [apply fixed_digits_plain|].
    constructor; [reflexivity|apply fixed_digits_plain]. }
  destruct neg.
  - (* a minus sign first *)
    cbn [app]. rewrite Hmid.
    replace ("-"%char :: fixed_digits (S L) i ++ "."%char :: mid ++ [digit_char (n mod 10)])
      with ("-"%char :: (fixed_digits (S L) i ++ "."%char :: mid) ++ [digit_char (n mod 10)])
      by (rewrite <- app_assoc; reflexivity).
    rewrite StringToNumber_plain;
      [|constructor; [reflexivity|]; rewrite <- app_assoc; cbn [app];
        rewrite <- Hmid; exact Hpl
       |reflexivity|assumption].
    unfold StrNumericLiteral.
    change (Ascii.eqb "-" "+") with false. change (Ascii.eqb "-" "-") with true.
    cbn iota. rewrite <- app_assoc. cbn [app]. rewrite <- Hmid. exact Hlit.
  - (* a digit first *)
    cbn [app]. rewrite Hmid.
    cbn [fixed_digits app]. fold d0.
    replace (digit_char d0 :: fixed_digits L i ++ "."%char :: mid ++ [digit_char (n mod 10)])
      with (digit_char d0 :: (fixed_digits L i ++ "."%char :: mid) ++ [digit_char (n mod 10)])
      by (rewrite <- app_assoc; reflexivity).
    rewrite StringToNumber_plain;
      [|rewrite <- app_assoc; cbn [app]; rewrite <- Hmid; exact Hpl
       |apply digit_char_not_white; assumption|assumption].
    unfold StrNumericLiteral.
    rewrite !digit_char_plain by (assumption || (cbn; tauto)).
    rewrite <- app_assoc. cbn [app]. rewrite <- Hmid.
    cbn [fixed_digits app] in Hlit. fold d0 in Hlit.
    destruct L as [|L'].
    + cbn [fixed_digits app]. cbn [is_char existsb].
      change (Ascii.eqb "." "x") with false. change (Ascii.eqb "." "X") with false.
      change (Ascii.eqb "." "o") with false. change (Ascii.eqb "." "O") with false.
      change (Ascii.eqb "." "b") with false. change (Ascii.eqb "." "B") with false.
      cbn [orb]. rewrite !andb_false_r. exact Hlit.
    + cbn [fixed_digits app].
      rewrite !is_char_digit
        by (apply mod10_range || (intros x Hx; cbn in Hx |- *; tauto)).
      rewrite !andb_false_r. exact Hlit.
Qed.

End Text.

(* ===================================================================== *)
(** ** Digits and shifts of mantissas *)
(* ===================================================================== *)

Section Mantissa.

Lemma digits2_pos_size p : digits2_pos p = Pos.size p.
Proof. induction p; cbn; congruence. Qed.

Lemma Zdigits2_nonneg m : 0 <= Zdigits2 m.
Proof. destruct m; cbn; lia. Qed.

Lemma Zdigits2_upper m : 0 <= m → m < 2 ^ Zdigits2 m.
Proof.
  destruct m as [|p|p]; cbn; [lia| |lia]. intros _.
  rewrite digits2_pos_size.
  pose proof (Pos.size_gt p) as H.
  apply Pos2Z.pos_lt_pos in H. rewrite Pos2Z.inj_pow in H. exact H.
Qed.

Lemma Zdigits2_lower m : 0 < m → 2 ^ (Zdigits2 m - 1) <= m.
Proof.
  destruct m as [|p|p]; cbn; [lia| |lia]. intros _.
  rewrite digits2_pos_size.
  pose proof (Pos.size_le p) as H.
  apply Pos2Z.pos_le_pos in H. rewrite Pos2Z.inj_pow in H.
  change (Z.pos p~0) with (2 * Z.pos p) in H.
  assert (Hs : 0 < Z.pos (Pos.size p)) by lia.
  replace (Z.pos (Pos.size p)) with (Z.succ (Z.pos (Pos.size p) - 1)) in H by lia.
  rewrite Z.pow_succ_r in H by lia. lia.
Qed.

Lemma Zdigits2_le m k : 0 <= m → 0 <= k → m < 2 ^ k → Zdigits2 m <= k.
Proof.
  intros Hm Hk Hlt.
  destruct (Z.eq_dec m 0) as [->|Hne]; [cbn; lia|].
  pose proof (Zdigits2_lower m ltac:(lia)) as Hl.
  pose proof (Zdigits2_nonneg m) as Hn.
  destruct (Z_le_gt_dec (Zdigits2 m) k) as [|Hgt]; [assumption|exfalso].
  assert (2 ^ k <= 2 ^ (Zdigits2 m - 1)) by (apply Z.pow_le_mono_r; lia).
  lia.
Qed.

Lemma shr_1_m mrs : 0 <= shr_m mrs → shr_m (shr_1 mrs) = shr_m mrs / 2.
Proof.
  destruct mrs as [m r s]. cbn [shr_m]. intros Hm.
  destruct m as [|p|p]; [reflexivity| |lia].
  destruct p as [p|p|]; cbn [shr_1 shr_m].
  - rewrite Pos2Z.inj_xI. apply Z.div_unique with 1; lia.
  - rewrite Pos2Z.inj_xO. apply Z.div_unique with 0; lia.
  - reflexivity.
Qed.

Lemma shr_1_nonneg mrs : 0 <= shr_m mrs → 0 <= shr_m (shr_1 mrs).
Proof.
  intros H. rewrite shr_1_m by assumption. apply Z.div_pos; lia.
Qed.

Lemma iter_shr_1_m p : ∀ mrs,
  0 <= shr_m mrs →
  shr_m (SpecFloat.iter_pos shr_1 p mrs) = shr_m mrs / 2 ^ Zpos p.
Proof.
  induction p as [p IH|p IH|]; intros mrs Hm; cbn [SpecFloat.iter_pos].
  - assert (H1 := shr_1_nonneg _ Hm).
    assert (H2 : 0 <= shr_m (SpecFloat.iter_pos shr_1 p (shr_1 mrs)))
      by (rewrite IH by assumption; apply Z.div_pos; lia).
    rewrite IH, IH, shr_1_m by assumption.
    rewrite !Z.div_div by lia.
    f_equal. rewrite <- Z.pow_add_r by lia.
    rewrite <- (Z.pow_1_r 2) at 1. rewrite <- Z.pow_add_r by lia.
    f_equal. lia.
  - assert (H2 : 0 <= shr_m (SpecFloat.iter_pos shr_1 p mrs))
      by (rewrite IH by assumption; apply Z.div_pos; lia).
    rewrite IH, IH by assumption.
    rewrite !Z.div_div by lia.
    f_equal. rewrite <- Z.pow_add_r by lia. f_equal. lia.
  - rewrite shr_1_m by assumption. reflexivity.
Qed.

Lemma shr_spec mrs e n :
  0 <= shr_m mrs →
  shr_m (fst (shr mrs e n)) = shr_m mrs / 2 ^ Z.max 0 n
  ∧ snd (shr mrs e n) = e + Z.max 0 n.
Proof.
  intros Hm. destruct n as [|p|p]; cbn [shr fst snd].
  - rewrite Z.max_id. cbn. rewrite Z.div_1_r. lia.
  - rewrite Z.max_r by lia. split; [apply iter_shr_1_m; assumption|reflexivity].
  - rewrite Z.max_l by lia. cbn. rewrite Z.div_1_r. lia.
Qed.

Lemma shr_record_of_loc_m m l : shr_m (shr_record_of_loc m l) = m.
Proof. destruct l as [|[]]; reflexivity. Qed.

Lemma shr_fexp_spec m e l :
  0 <= m →
  let n := Z.max 0 (fexp64 (Zdigits2 m + e) - e) in
  shr_m (fst (shr_fexp prec emax m e l)) = m / 2 ^ n
  ∧ snd (shr_fexp prec emax m e l) = e + n.
Proof.
  intros Hm n. unfold shr_fexp.
  pose proof (shr_spec (shr_record_of_loc m l) e
                (fexp prec emax (Zdigits2 m + e) - e)) as H.
  rewrite shr_record_of_loc_m in H. apply H. assumption.
Qed.

Lemma round_nearest_even_bounds m l :
  m <= round_nearest_even m l <= m + 1.
Proof.
  destruct l as [|[]]; cbn; try lia. destruct (Z.even m); lia.
Qed.

Lemma div_pow2_lt m d n :
  0 <= m < 2 ^ d → 0 <= n <= d → m / 2 ^ n < 2 ^ (d - n).
Proof.
  intros Hm Hn. apply Z.div_lt_upper_bound.
  - apply Z.pow_pos_nonneg; lia.
  - rewrite <- Z.pow_add_r by lia. replace (n + (d - n)) with d by lia. lia.
Qed.

Lemma div_pow2_small m d n :
  0 <= m < 2 ^ d → 0 <= d <= n → m / 2 ^ n = 0.
Proof.
  intros Hm Hn. apply Z.div_small.
  assert (2 ^ d <= 2 ^ n) by (apply Z.pow_le_mono_r; lia). lia.
Qed.

End Mantissa.

(* ===================================================================== *)
(** ** Powers of two as real numbers *)
(* ===================================================================== *)

Section Powers.

Lemma bpow_pos e : (0 < bpow e)%R.
Proof. apply powerRZ_lt. lra. Qed.

Lemma bpow_add a b : bpow (a + b) = (bpow a * bpow b)%R.
Proof. apply powerRZ_add. lra. Qed.

Lemma bpow_IZR k : 0 <= k → bpow k = IZR (2 ^ k).
Proof.
  intros Hk. destruct k as [|p|p]; [reflexivity| |lia].
  unfold bpow. symmetry. apply Zpower_pos_powerRZ.
Qed.

Lemma bpow_ge_1 k : 0 <= k → (1 <= bpow k)%R.
Proof.
  intros Hk. rewrite bpow_IZR by assumption.
  apply IZR_le. assert (0 < 2 ^ k) by (apply Z.pow_pos_nonneg; lia). lia.
Qed.

Lemma bpow_le a b : a <= b → (bpow a <= bpow b)%R.
Proof.
  intros Hab. replace b with (a + (b - a)) by lia. rewrite bpow_add.
  pose proof (bpow_pos a). pose proof (bpow_ge_1 (b - a) ltac:(lia)).
  nra.
Qed.

Lemma bpow_neg_IZR k : 0 <= k → bpow (- k) = (/ IZR (2 ^ k))%R.
Proof.
  intros Hk. unfold bpow. rewrite powerRZ_neg'. f_equal.
  apply bpow_IZR. assumption.
Qed.

Lemma bpow_m1074 : (bpow (-1074) <= 1 / 1000000000)%R.
Proof.
  apply Rle_trans with (bpow (-30)); [apply bpow_le; lia|].
  change (-30) with (Z.opp 30).
  rewrite (bpow_neg_IZR 30) by lia. change (2 ^ 30) with 1073741824. lra.
Qed.

Lemma bpow_m25 : (bpow (-25) <= 1 / 20)%R.
Proof.
  change (-25) with (Z.opp 25). rewrite bpow_neg_IZR by lia.
  change (2 ^ 25) with 33554432. lra.
Qed.

Lemma div_pow2_value m n e :
  0 <= m → 0 <= n →
  (IZR (m / 2 ^ n) * bpow (e + n) <= IZR m * bpow e)%R.
Proof.
  intros Hm Hn.
  assert (Hp : 0 < 2 ^ n) by (apply Z.pow_pos_nonneg; lia).
  pose proof (Z.mul_div_le m (2 ^ n) Hp) as Hle.
  apply IZR_le in Hle. rewrite mult_IZR in Hle.
  rewrite <- bpow_IZR in Hle by assumption.
  rewrite bpow_add. pose proof (bpow_pos e). nra.
Qed.

Lemma IZR_pos_ge_1 p : (1 <= IZR (Zpos p))%R.
Proof. apply IZR_le. lia. Qed.

Lemma B2R_pos m e : (0 < B2R (S754_finite false m e))%R.
Proof.
  cbn. pose proof (IZR_pos_ge_1 m). pose proof (bpow_pos e). nra.
Qed.

End Powers.

(* ===================================================================== *)
(** ** Rounding to the format *)
(* ===================================================================== *)

Section Rounding.

Lemma fexp64_eq e : fexp64 e = Z.max (e - 53) (-1074).
Proof. reflexivity. Qed.

Lemma binary_round_aux_cases s mx ex lx :
  0 <= mx →
  let n1 := Z.max 0 (fexp64 (Zdigits2 mx + ex) - ex) in
  let e1 := ex + n1 in
  ∃ m2, mx / 2 ^ n1 <= m2 <= mx / 2 ^ n1 + 1 ∧
    let n2 := Z.max 0 (fexp64 (Zdigits2 m2 + e1) - e1) in
    binary_round_aux prec emax s mx ex lx =
      match m2 / 2 ^ n2 with
      | Z0 => S754_zero s
      | Zpos m => if e1 + n2 <=? emax - prec
                  then S754_finite s m (e1 + n2) else S754_infinity s
      | Zneg _ => S754_nan
      end.
Proof.
  intros Hm n1 e1. unfold binary_round_aux.
  destruct (shr_fexp_spec mx ex lx Hm) as [Hm1 He1].
  destruct (shr_fexp prec emax mx ex lx) as [mrs' e'].
  cbn [fst snd] in Hm1, He1. fold n1 in Hm1, He1. fold e1 in He1. subst e'.
  set (m2 := round_nearest_even (shr_m mrs') (loc_of_shr_record mrs')).
  exists m2.
  pose proof (round_nearest_even_bounds (shr_m mrs') (loc_of_shr_record mrs')) as Hb.
  fold m2 in Hb. rewrite Hm1 in Hb. split; [exact Hb|].
  assert (Hm2 : 0 <= m2).
  { assert (0 <= mx / 2 ^ n1) by (apply Z.div_pos; lia). lia. }
  cbv zeta. set (n2 := Z.max 0 (fexp64 (Zdigits2 m2 + e1) - e1)).
  destruct (shr_fexp_spec m2 e1 loc_Exact Hm2) as [Hm3 He3].
  destruct (shr_fexp prec emax m2 e1 loc_Exact) as [mrs'' e''].
  cbn [fst snd] in Hm3, He3. fold n2 in Hm3, He3. subst e''.
  rewrite Hm3. reflexivity.
Qed.

Lemma binary_round_aux_spec s mx ex lx :
  0 <= mx →
  match binary_round_aux prec emax s mx ex lx with
  | S754_zero s' => s' = s
  | S754_infinity s' =>
      s' = s ∧ emax - prec < Z.max ex (fexp64 (Zdigits2 mx + ex + 1))
  | S754_finite s' m e =>
      s' = s ∧ e <= emax - prec ∧ Zpos m < 2 ^ prec
      ∧ (IZR (Zpos m) * bpow e
         <= IZR mx * bpow ex + bpow (Z.max ex (fexp64 (Zdigits2 mx + ex))))%R
  | S754_nan => False
  end.
Proof.
  intros Hmx.
  destruct (binary_round_aux_cases s mx ex lx Hmx) as (m2 & Hm2 & ->).
  set (d := Zdigits2 mx) in *.
  set (n1 := Z.max 0 (fexp64 (d + ex) - ex)) in *.
  set (e1 := ex + n1) in *.
  set (d2 := Zdigits2 m2).
  set (n2 := Z.max 0 (fexp64 (d2 + e1) - e1)).
  assert (Hd : 0 <= d) by apply Zdigits2_nonneg.
  assert (Hup : mx < 2 ^ d) by (apply Zdigits2_upper; assumption).
  assert (Hn1 : 0 <= n1) by (unfold n1; lia).
  assert (Hm1 : 0 <= mx / 2 ^ n1) by (apply Z.div_pos; lia).
  assert (H0m2 : 0 <= m2) by lia.
  assert (Hd2 : 0 <= d2) by apply Zdigits2_nonneg.
  assert (Hup2 : m2 < 2 ^ d2) by (apply Zdigits2_upper; assumption).
  assert (Hn2 : 0 <= n2) by (unfold n2; lia).
  assert (He1 : e1 = Z.max ex (fexp64 (d + ex))) by (unfold e1, n1; lia).
  (* digits of the rounded mantissa *)
  assert (Hdig : d2 <= d - n1 + 1 ∨ (d2 <= 1 ∧ d < n1)).
  { destruct (Z_le_gt_dec n1 d) as [Hle|Hgt].
    - left. apply Zdigits2_le; [lia|lia|].
      pose proof (div_pow2_lt mx d n1 ltac:(lia) ltac:(lia)) as Hlt.
      replace (d - n1 + 1) with (Z.succ (d - n1)) by lia.
      rewrite Z.pow_succ_r by lia.
      assert (0 < 2 ^ (d - n1)) by (apply Z.pow_pos_nonneg; lia). lia.
    - right. split; [|lia].
      rewrite (div_pow2_small mx d n1) in Hm2 by lia.
      apply Zdigits2_le; [lia|lia|]. change (2 ^ 1) with 2. lia. }
  assert (Hexp : e1 + n2 <= Z.max ex (fexp64 (d + ex + 1))).
  { unfold n2. rewrite He1 in *. unfold n1 in Hdig.
    rewrite !fexp64_eq in *. lia. }
  destruct (m2 / 2 ^ n2) as [|m|m] eqn:Hq.
  - reflexivity.
  - destruct (e1 + n2 <=? emax - prec) eqn:Hle.
    + apply Z.leb_le in Hle. split; [reflexivity|]. split; [exact Hle|]. split.
      * (* the mantissa fits *)
        rewrite <- Hq.
        destruct (Z_le_gt_dec n2 d2) as [Hle2|Hgt2].
        -- pose proof (div_pow2_lt m2 d2 n2 ltac:(lia) ltac:(lia)) as Hlt.
           assert (2 ^ (d2 - n2) <= 2 ^ prec).
           { apply Z.pow_le_mono_r; [lia|]. unfold n2, prec.
             rewrite fexp64_eq. lia. }
           lia.
        -- rewrite (div_pow2_small m2 d2 n2) in Hq by lia. discriminate.
      * (* the value *)
        rewrite <- Hq.
        pose proof (div_pow2_value m2 n2 e1 H0m2 Hn2) as Hv2.
        pose proof (div_pow2_value mx n1 ex Hmx Hn1) as Hv1.
        fold e1 in Hv1. rewrite <- He1.
        assert (Hr : (IZR m2 <= IZR (mx / 2 ^ n1) + 1)%R).
        { rewrite <- plus_IZR. apply IZR_le. lia. }
        pose proof (bpow_pos e1). nra.
    + apply Z.leb_gt in Hle. split; [reflexivity|]. unfold emax, prec in *. lia.
  - assert (0 <= m2 / 2 ^ n2) by (apply Z.div_pos; lia). lia.
Qed.

Lemma signed_nonneg x : signed false x → nonneg x.
Proof. destruct x; cbn; auto. Qed.

Lemma le_zero_nonneg x : le pos_zero x = true ↔ nonneg x.
Proof.
  unfold le, SFleb, pos_zero.
  destruct x as [s|s| |s m e]; try destruct s; cbn; intuition congruence.
Qed.

Lemma binary_round_aux_shape s mx ex lx :
  0 <= mx →
  signed s (binary_round_aux prec emax s mx ex lx)
  ∧ wellFormed (binary_round_aux prec emax s mx ex lx).
Proof.
  intros Hmx. pose proof (binary_round_aux_spec s mx ex lx Hmx) as H.
  destruct (binary_round_aux prec emax s mx ex lx); cbn; intuition.
Qed.

Lemma iter_xO m d : Zpos (Pos.iter xO m d) = Zpos m * 2 ^ Zpos d.
Proof.
  induction d as [|d IH] using Pos.peano_ind.
  - cbn. lia.
  - rewrite Pos.iter_succ, Pos2Z.inj_xO, IH, Pos2Z.inj_succ.
    rewrite Z.pow_succ_r by lia. ring.
Qed.

Lemma shl_align_spec m ex ez :
  ez <= ex →
  Zpos (fst (shl_align m ex ez)) = Zpos m * 2 ^ (ex - ez)
  ∧ snd (shl_align m ex ez) = ez.
Proof.
  intros Hle. unfold shl_align.
  destruct (ez - ex) as [|d|d] eqn:Hd; cbn [fst snd].
  - replace (ex - ez) with 0 by lia. split; lia.
  - lia.
  - rewrite iter_xO. replace (ex - ez) with (Zpos d) by lia. split; lia.
Qed.

Lemma binary_round_shape s m e :
  signed s (binary_round prec emax s m e)
  ∧ wellFormed (binary_round prec emax s m e).
Proof.
  unfold binary_round. destruct (shl_align _ _ _) as [mz ez].
  apply binary_round_aux_shape. lia.
Qed.

Lemma binary_normalize_nonneg m e :
  0 <= m →
  nonneg (binary_normalize prec emax m e false)
  ∧ wellFormed (binary_normalize prec emax m e false).
Proof.
  intros Hm. destruct m as [|p|p]; cbn [binary_normalize]; [cbn; auto| |lia].
  destruct (binary_round_shape false p e). split; [apply signed_nonneg|]; assumption.
Qed.

Lemma add_nonneg x y :
  nonneg x → nonneg y → wellFormed x → wellFormed y →
  nonneg (add x y) ∧ wellFormed (add x y).
Proof.
  unfold add.
  destruct x as [sx|sx| |sx mx ex], y as [sy|sy| |sy my ey];
    cbn [nonneg]; intros Hx Hy Wx Wy; try contradiction; subst;
    try (cbn; auto; fail).
  - destruct sx, sy; cbn; auto.
  - cbn [SFadd cond_Zopp]. apply binary_normalize_nonneg. lia.
Qed.

(** A difference whose subtrahend is not the larger value is not
    negative. *)
Lemma sub_nonneg mb eb mf ef :
  (B2R (S754_finite false mf ef) <= B2R (S754_finite false mb eb))%R →
  nonneg (sub (S754_finite false mb eb) (S754_finite false mf ef))
  ∧ wellFormed (sub (S754_finite false mb eb) (S754_finite false mf ef)).
Proof.
  cbn [B2R]. rewrite !Rmult_1_l. intros Hle.
  unfold sub. cbn [SFsub cond_Zopp].
  set (ez := Z.min eb ef).
  destruct (shl_align_spec mb eb ez ltac:(lia)) as [Hb _].
  destruct (shl_align_spec mf ef ez ltac:(lia)) as [Hf _].
  apply binary_normalize_nonneg. rewrite Hb, Hf.
  apply Zle_minus_le_0. apply le_IZR. rewrite !mult_IZR.
  rewrite <- !bpow_IZR by lia.
  apply Rmult_le_reg_r with (bpow ez); [apply bpow_pos|].
  rewrite !Rmult_assoc, <- !bpow_add.
  replace (eb - ez + ez) with eb by lia. replace (ef - ez + ez) with ef by lia.
  exact Hle.
Qed.

End Rounding.

(* ===================================================================== *)
(** ** The fee and the balance it is taken from *)
(* ===================================================================== *)

Section Fee.

Lemma feeRate_eq : feeRate = S754_finite false 5764607523034235 (-60).
Proof. vm_compute. reflexivity. Qed.

(** The product with the fee rate does not overflow and stays below
    0.52 percent of the balance, up to the smallest positive number. *)
Lemma mul_feeRate_spec mb eb :
  wellFormed (S754_finite false mb eb) →
  match mul (S754_finite false mb eb) feeRate with
  | S754_zero s => s = false
  | S754_finite s m e =>
      s = false ∧ wellFormed (S754_finite s m e)
      ∧ (B2R (S754_finite s m e)
         <= B2R (S754_finite false mb eb) * (52 / 10000) + bpow (-1074))%R
  | _ => False
  end.
Proof.
  intros [Hmb Heb]. rewrite feeRate_eq. unfold mul. cbn [SFmul xorb].
  set (mc := 5764607523034235%positive).
  pose proof (binary_round_aux_spec false (Zpos (mb * mc)) (eb + -60) loc_Exact
                ltac:(lia)) as H.
  set (d := Zdigits2 (Zpos (mb * mc))) in *.
  assert (Hmc : Zpos mc < 2 ^ 53) by (vm_compute; reflexivity).
  assert (Hprod : Zpos (mb * mc) < 2 ^ 106).
  { rewrite Pos2Z.inj_mul. change (2 ^ 106) with (2 ^ 53 * 2 ^ 53).
    unfold prec in Hmb. nia. }
  assert (Hd : d <= 106) by (apply Zdigits2_le; lia).
  assert (Hd0 : 0 <= d) by apply Zdigits2_nonneg.
  destruct (binary_round_aux prec emax false (Zpos (mb * mc)) (eb + -60) loc_Exact)
    as [s|s| |s m e].
  - exact H.
  - destruct H as [_ H]. rewrite fexp64_eq in H. unfold emax, prec in *. lia.
  - exact H.
  - destruct H as (-> & He & Hm & Hv). split; [reflexivity|].
    split; [split; assumption|].
    cbn [B2R]. rewrite !Rmult_1_l.
    set (B := (IZR (Zpos mb) * bpow eb)%R).
    assert (HB : (0 < B)%R).
    { unfold B. pose proof (IZR_pos_ge_1 mb). pose proof (bpow_pos eb). nra. }
    (* the exact product *)
    assert (Hexact : (IZR (Zpos (mb * mc)) * bpow (eb + -60)
                      = B * (IZR (Zpos mc) * bpow (-60)))%R).
    { rewrite Pos2Z.inj_mul, mult_IZR, bpow_add. unfold B. ring. }
    (* the rounding error *)
    assert (Herr : (bpow (Z.max (eb + -60) (fexp64 (d + (eb + -60))))
                    <= B * bpow (-59) + bpow (-1074))%R).
    { rewrite fexp64_eq.
      pose proof (bpow_pos (-59)). pose proof (bpow_pos (-1074)).
      assert (H1 : (bpow (eb + -60) <= B * bpow (-59))%R).
      { rewrite bpow_add. unfold B.
        pose proof (IZR_pos_ge_1 mb). pose proof (bpow_pos eb).
        pose proof (bpow_le (-60) (-59) ltac:(lia)). pose proof (bpow_pos (-60)).
        apply Rle_trans with (bpow eb * bpow (-59))%R; [nra|].
        apply Rmult_le_compat_r; [lra|nra]. }
      assert (H2 : (bpow (d + (eb + -60) - 53) <= B * bpow (-59))%R).
      { replace (d + (eb + -60) - 53) with ((d - 54) + (eb + -59)) by lia.
        rewrite !bpow_add. unfold B.
        assert (Hmbd : (bpow (d - 54) <= IZR (Zpos mb))%R).
        { pose proof (Zdigits2_lower (Zpos (mb * mc)) ltac:(lia)) as Hl.
          fold d in Hl.
          destruct (Z_le_gt_dec d 54) as [Hle|Hgt].
          - apply Rle_trans with (bpow 0); [apply bpow_le; lia|].
            apply IZR_pos_ge_1.
          - rewrite bpow_IZR by lia. apply IZR_le.
            rewrite Pos2Z.inj_mul in Hl.
            replace (d - 1) with ((d - 54) + 53) in Hl by lia.
            rewrite Z.pow_add_r in Hl by lia.
            assert (0 < 2 ^ (d - 54)) by (apply Z.pow_pos_nonneg; lia).
            nia. }
        rewrite Rmult_assoc. apply Rmult_le_compat_r; [|exact Hmbd].
        pose proof (bpow_pos eb). pose proof (bpow_pos (-59)). nra. }
      assert (H3 : (0 <= B * bpow (-59))%R) by nra.
      destruct (Z.max_spec (eb + -60) (Z.max (d + (eb + -60) - 53) (-1074)))
        as [[_ ->]|[_ ->]];
        [destruct (Z.max_spec (d + (eb + -60) - 53) (-1074)) as [[_ ->]|[_ ->]]|];
        lra. }
    rewrite Hexact in Hv.
    assert (Hc : (IZR (Zpos mc) * bpow (-60) + bpow (-59) <= 52 / 10000)%R).
    { change (-60) with (Z.opp 60). change (-59) with (Z.opp 59).
      rewrite (bpow_neg_IZR 60), (bpow_neg_IZR 59) by lia.
      change (2 ^ 60) with 1152921504606846976.
      change (2 ^ 59) with 576460752303423488.
      unfold mc. lra. }
    nra.
Qed.

(** The integer that [toFixed(8)] prints for a positive value below
    [10^21]. *)
Lemma toFixed8_n_spec m e :
  ge_1e21 m e = false →
  let n := toFixed8_n m e in
  let X := (IZR (Zpos m) * bpow e)%R in
  0 <= n <= 10 ^ 29
  ∧ (IZR n <= X * 100000000 + 1 / 2)%R
  ∧ (1 <= n → (1 / 2 <= X * 100000000)%R).
Proof.
  unfold ge_1e21, toFixed8_n. intros Hlt.
  destruct e as [|k|k].
  - apply Z.leb_gt in Hlt. cbn [Z.pow] in *. rewrite Z.mul_1_r in *.
    unfold bpow. cbn [powerRZ]. rewrite Rmult_1_r.
    change (10 ^ 8) with 100000000. rewrite mult_IZR.
    split; [lia|]. split; [lra|]. intros H1.
    pose proof (IZR_pos_ge_1 m). lra.
  - apply Z.leb_gt in Hlt.
    assert (H2 : 0 < 2 ^ Zpos k) by (apply Z.pow_pos_nonneg; lia).
    rewrite bpow_IZR by lia.
    change (10 ^ 8) with 100000000. rewrite !mult_IZR.
    split; [nia|]. split; [lra|]. intros H1.
    assert (1 <= Zpos m * 2 ^ Zpos k) by nia.
    apply IZR_le in H. rewrite mult_IZR in H. lra.
  - apply Z.leb_gt in Hlt.
    assert (H2 : 0 < 2 ^ Zpos k) by (apply Z.pow_pos_nonneg; lia).
    set (D := 2 ^ Zpos k) in *.
    set (num := 2 * (Zpos m * 10 ^ 8) + D).
    assert (HD : 0 < 2 * D) by lia.
    pose proof (Z.mul_div_le num (2 * D) HD) as Hle.
    assert (Hn0 : 0 <= num / (2 * D)) by (apply Z.div_pos; unfold num; lia).
    change (Zneg k) with (Z.opp (Zpos k)).
    rewrite bpow_neg_IZR by lia. fold D.
    assert (HDR : (0 < IZR D)%R) by (apply IZR_lt; lia).
    assert (HleR : (IZR (2 * D) * IZR (num / (2 * D)) <= IZR num)%R)
      by (rewrite <- mult_IZR; apply IZR_le; exact Hle).
    unfold num in HleR at 2. change (10 ^ 8) with 100000000 in *.
    rewrite !plus_IZR, !mult_IZR in HleR.
    assert (Hfield : (IZR (Zpos m) * / IZR D * 100000000 + 1 / 2
                      = (2 * (IZR (Zpos m) * 100000000) + IZR D) / (2 * IZR D))%R)
      by (field; lra).
    split; [split; [exact Hn0|]|split].
    + apply Z.lt_succ_r. apply Z.div_lt_upper_bound; [lia|]. unfold num.
      change (10 ^ 29) with 100000000000000000000000000000.
      change (10 ^ 21) with 1000000000000000000000 in Hlt. lia.
    + rewrite Hfield. apply Rmult_le_reg_r with (2 * IZR D)%R; [lra|].
      unfold Rdiv. rewrite Rmult_assoc, Rinv_l by lra. lra.
    + intros H1.
      assert (Hge : (IZR (2 * D) * 1 <= IZR (2 * D) * IZR (num / (2 * D)))%R).
      { apply Rmult_le_compat_l; [apply IZR_le; lia|apply IZR_le; exact H1]. }
      rewrite mult_IZR in Hge.
      apply Rmult_le_reg_r with (2 * IZR D)%R; [lra|].
      replace (IZR (Zpos m) * / IZR D * 100000000 * (2 * IZR D))%R
        with (2 * (IZR (Zpos m) * 100000000))%R by (field; lra).
      lra.
Qed.

(** [Number] reads in the text of [toFixed(8)] the number nearest to
    [n / 10^8]. *)
Lemma Number_toFixed8_nearest8 x : Number_toFixed8 x = nearest8 x.
Proof.
  unfold Number_toFixed8, nearest8, toFixed8.
  destruct x as [s|s| |s m e]; try reflexivity.
  - destruct s; reflexivity.
  - destruct (ge_1e21 m e) eqn:Hge; [reflexivity|].
    apply StringToNumber_fixed.
    apply (toFixed8_n_spec m e Hge).
Qed.

Lemma SFdiv_core_binary_spec n k :
  0 < n → 0 < k →
  let '(q, e, l) := SFdiv_core_binary prec emax n 0 k 0 in
  let e' := Z.min (fexp64 (Zdigits2 n - Zdigits2 k)) 0 in
  e = e' ∧ q = (n * 2 ^ (- e')) / k.
Proof.
  intros Hn Hk. unfold SFdiv_core_binary.
  rewrite !Z.add_0_r, !Z.sub_0_r.
  change (0 - 0) with 0. fold (fexp64 (Zdigits2 n - Zdigits2 k)).
  set (e' := Z.min (fexp64 (Zdigits2 n - Zdigits2 k)) 0).
  assert (He' : e' <= 0) by (unfold e'; lia).
  replace (0 - e') with (- e') by lia.
  assert (Hm : match - e' with
               | 0 => n
               | Z.pos _ => Z.shiftl n (- e')
               | Z.neg _ => 0
               end = n * 2 ^ (- e')).
  { destruct (- e') as [|s|s] eqn:Hs.
    - cbn. lia.
    - rewrite Z.shiftl_mul_pow2 by lia. reflexivity.
    - lia. }
  rewrite Hm. unfold Z.div.
  destruct (Z.div_eucl (n * 2 ^ (- e')) k) as [q r]. cbn. auto.
Qed.

Lemma of_decimal8_spec p :
  Zpos p <= 10 ^ 29 →
  match of_decimal false (Zpos p) (-8) with
  | S754_zero s => s = false
  | S754_finite s m e =>
      s = false ∧ wellFormed (S754_finite s m e)
      ∧ (IZR (Zpos m) * bpow e
         <= IZR (Zpos p) / 100000000 * (1 + bpow (-25)))%R
  | _ => False
  end.
Proof.
  intros Hp. unfold of_decimal.
  change (Z.to_pos (10 ^ 8)) with 100000000%positive.
  cbn [SFdiv xorb].
  pose proof (SFdiv_core_binary_spec (Zpos p) 100000000 ltac:(lia) ltac:(lia)) as Hc.
  destruct (SFdiv_core_binary prec emax (Zpos p) 0 100000000 0) as [[q e] l].
  cbv zeta in Hc. destruct Hc as [He Hq].
  change (Zdigits2 100000000) with 27 in *.
  set (d1 := Zdigits2 (Zpos p)) in *.
  set (e' := Z.min (fexp64 (d1 - 27)) 0) in *. subst e.
  assert (Hd1 : 1 <= d1 <= 97).
  { split.
    - unfold d1. cbn. lia.
    - apply Zdigits2_le; [lia|lia|].
      assert (10 ^ 29 < 2 ^ 97) by (vm_compute; reflexivity). lia. }
  assert (He' : e' = Z.min (d1 - 80) 0) by (unfold e'; rewrite fexp64_eq; lia).
  assert (Hs : 0 <= - e') by lia.
  assert (Hpow : 0 < 2 ^ (- e')) by (apply Z.pow_pos_nonneg; lia).
  assert (Hq0 : 0 <= q) by (subst q; apply Z.div_pos; nia).
  assert (Hqle : q * 100000000 <= Zpos p * 2 ^ (- e')).
  { subst q. rewrite Z.mul_comm. apply Z.mul_div_le. lia. }
  assert (Hup : Zpos p < 2 ^ d1) by (apply Zdigits2_upper; lia).
  assert (Hlow : 2 ^ (d1 - 1) <= Zpos p) by (apply Zdigits2_lower; lia).
  assert (Hdq : Zdigits2 q <= d1 - e').
  { apply Zdigits2_le; [lia|lia|].
    replace (d1 - e') with (d1 + - e') by lia. rewrite Z.pow_add_r by lia. nia. }
  pose proof (Zdigits2_nonneg q) as Hdq0.
  pose proof (binary_round_aux_spec false q e' l Hq0) as H.
  destruct (binary_round_aux prec emax false q e' l) as [s|s| |s m e].
  - exact H.
  - destruct H as [_ H]. rewrite fexp64_eq in H. unfold emax, prec in H. lia.
  - exact H.
  - destruct H as (-> & He & Hm & Hv). split; [reflexivity|].
    split; [split; assumption|].
    set (N := IZR (Zpos p)) in *.
    assert (HN : (1 <= N)%R) by apply IZR_pos_ge_1.
    (* the quotient *)
    assert (Hquo : (IZR q * bpow e' <= N / 100000000)%R).
    { apply IZR_le in Hqle. rewrite !mult_IZR in Hqle.
      rewrite <- bpow_IZR in Hqle by lia.
      assert (Hinv : (bpow e' * bpow (- e') = 1)%R).
      { rewrite <- bpow_add. replace (e' + - e') with 0 by lia. reflexivity. }
      pose proof (bpow_pos e'). pose proof (bpow_pos (- e')).
      fold N in Hqle.
      assert (IZR q * bpow e' * 100000000 <= N)%R.
      { replace N with (N * (bpow e' * bpow (- e')))%R by (rewrite Hinv; ring).
        replace (N * (bpow e' * bpow (- e')))%R
          with (N * bpow (- e') * bpow e')%R by ring.
        replace (IZR q * bpow e' * 100000000)%R
          with (IZR q * 100000000 * bpow e')%R by ring.
        apply Rmult_le_compat_r; lra. }
      lra. }
    (* the rounding error *)
    assert (HlowR : (bpow (d1 - 1) <= N)%R).
    { rewrite bpow_IZR by lia. apply IZR_le. exact Hlow. }
    assert (Herr : (bpow (Z.max e' (fexp64 (Zdigits2 q + e'))) <= N * bpow (-52))%R).
    { assert (Hmax : Z.max e' (fexp64 (Zdigits2 q + e')) <= (d1 - 1) + -52)
        by (rewrite fexp64_eq; lia).
      apply Rle_trans with (bpow ((d1 - 1) + -52)); [apply bpow_le; exact Hmax|].
      rewrite bpow_add. apply Rmult_le_compat_r; [|exact HlowR].
      pose proof (bpow_pos (-52)). lra. }
    assert (H52 : (bpow (-52) * 100000000 <= bpow (-25))%R).
    { change (-52) with (Z.opp 52). change (-25) with (Z.opp 25).
      rewrite !bpow_neg_IZR by lia.
      change (2 ^ 52) with 4503599627370496. change (2 ^ 25) with 33554432. lra. }
    pose proof (bpow_pos (-52)). pose proof (bpow_pos (-25)).
    assert (N * bpow (-52) <= N / 100000000 * bpow (-25))%R by nra.
    lra.
Qed.

Lemma ge_1e21_spec m e :
  ge_1e21 m e = true → (1 <= IZR (Zpos m) * bpow e)%R.
Proof.
  unfold ge_1e21. intros H. destruct e as [|k|k]; apply Z.leb_le in H.
  - rewrite bpow_IZR, <- mult_IZR by lia. apply IZR_le.
    change (10 ^ 21) with 1000000000000000000000 in H. lia.
  - rewrite bpow_IZR, <- mult_IZR by lia. apply IZR_le.
    change (10 ^ 21) with 1000000000000000000000 in H. lia.
  - change (Zneg k) with (Z.opp (Zpos k)). rewrite bpow_neg_IZR by lia.
    assert (H2 : 0 < 2 ^ Zpos k) by (apply Z.pow_pos_nonneg; lia).
    assert (Hle : 2 ^ Zpos k <= Zpos m).
    { change (10 ^ 21) with 1000000000000000000000 in H. lia. }
    apply IZR_le in Hle. assert (HD : (0 < IZR (2 ^ Zpos k))%R) by (apply IZR_lt; lia).
    apply Rmult_le_reg_r with (IZR (2 ^ Zpos k)); [exact HD|].
    rewrite Rmult_assoc, Rinv_l by lra. lra.
Qed.

(** [Number(x.toFixed(8))] on a positive finite value. *)
Lemma Number_toFixed8_spec m e :
  let x := S754_finite false m e in
  let X := (IZR (Zpos m) * bpow e)%R in
  wellFormed x →
  match Number_toFixed8 x with
  | S754_zero s => s = false
  | S754_finite s m' e' =>
      s = false ∧ wellFormed (S754_finite s m' e')
      ∧ ((S754_finite s m' e' = x ∧ (1 <= X)%R)
         ∨ ((1 / 2 <= X * 100000000)%R
            ∧ (IZR (Zpos m') * bpow e'
               <= (X + 1 / 200000000) * (1 + bpow (-25)))%R))
  | _ => False
  end.
Proof.
  intros x X Hwf. rewrite Number_toFixed8_nearest8. unfold x, nearest8.
  destruct (ge_1e21 m e) eqn:Hge.
  - split; [reflexivity|]. split; [exact Hwf|]. left.
    split; [reflexivity|]. apply ge_1e21_spec. exact Hge.
  - destruct (toFixed8_n_spec m e Hge) as (Hn & Hle & Hone).
    fold X in Hle, Hone.
    destruct (toFixed8_n m e) as [|p|p] eqn:Hp.
    + reflexivity.
    + pose proof (of_decimal8_spec p ltac:(lia)) as H.
      destruct (of_decimal false (Zpos p) (-8)) as [s|s| |s m' e'];
        try exact H.
      destruct H as (-> & Hwf' & Hv).
      split; [reflexivity|]. split; [exact Hwf'|]. right.
      split; [apply Hone; lia|].
      pose proof (bpow_pos (-25)).
      assert ((IZR (Zpos p) / 100000000 <= X + 1 / 200000000)%R) by lra.
      nra.
    + lia.
Qed.

Lemma Number_toFixed8_nonneg x :
  nonneg x → wellFormed x →
  nonneg (Number_toFixed8 x) ∧ wellFormed (Number_toFixed8 x).
Proof.
  destruct x as [s|s| |s m e]; cbn [nonneg]; intros Hn Hwf;
    try contradiction;
    try (rewrite Number_toFixed8_nearest8; cbn; auto; fail).
  subst s. pose proof (Number_toFixed8_spec m e Hwf) as H.
  destruct (Number_toFixed8 (S754_finite false m e)) as [s|s| |s m' e'];
    try contradiction.
  - cbn. auto.
  - destruct H as (-> & Hwf' & _). split; [reflexivity|exact Hwf'].
Qed.

(** The fee never exceeds the balance it is taken from. *)
Lemma fee_le_balance mb eb :
  let post := S754_finite false mb eb in
  let fee := Number_toFixed8 (mul post feeRate) in
  wellFormed post →
  nonneg fee ∧ wellFormed fee ∧ isFinite fee = true
  ∧ (B2R fee <= B2R post)%R.
Proof.
  intros post fee Hwf. unfold fee.
  pose proof (mul_feeRate_spec mb eb Hwf) as Hmul. fold post in Hmul.
  pose proof (B2R_pos mb eb) as HB. fold post in HB.
  set (B := B2R post) in *.
  destruct (mul post feeRate) as [s|s| |s mx ex]; try contradiction.
  - change (Number_toFixed8 (S754_zero s)) with pos_zero.
    cbn [pos_zero nonneg wellFormed isFinite B2R]. repeat split; auto. lra.
  - destruct Hmul as (-> & Hwfx & Hx).
    pose proof (Number_toFixed8_spec mx ex Hwfx) as H.
    cbn [B2R] in Hx. rewrite Rmult_1_l in Hx.
    set (X := (IZR (Zpos mx) * bpow ex)%R) in *.
    pose proof bpow_m1074 as Hmin. pose proof bpow_m25 as H25.
    pose proof (bpow_pos (-25)) as H25p. pose proof (bpow_pos (-1074)) as Hminp.
    destruct (Number_toFixed8 (S754_finite false mx ex)) as [s|s| |s m' e'];
      try contradiction.
    + subst s. cbn [nonneg wellFormed isFinite B2R]. repeat split; auto. lra.
    + destruct H as (-> & Hwf' & Hcase).
      split; [reflexivity|]. split; [exact Hwf'|]. split; [reflexivity|].
      cbn [B2R]. rewrite Rmult_1_l.
      destruct Hcase as [[Heq HX]|[HX Hv]].
      * injection Heq as -> ->. fold X. lra.
      * assert (Hb : ((X + 1 / 200000000) * (1 + bpow (-25))
                      <= (X + 1 / 200000000) * (21 / 20))%R).
        { apply Rmult_le_compat_l; lra. }
        lra.
Qed.

(** The fee branch on a finite balance that is not negative. *)
Lemma chargeFee_finite switch post fees :
  finiteNonneg post →
  let '(fee, bal, _) := chargeFee switch post fees in
  finiteNonneg fee
  ∧ nonneg (sub post fee)
  ∧ nonneg bal ∧ wellFormed bal.
Proof.
  intros (Hn & Hwf & Hfin). unfold chargeFee. destruct switch.
  - destruct post as [s|s| |s mb eb]; try discriminate.
    + (* zero *)
      destruct s; vm_compute; auto 10.
    + cbn [nonneg] in Hn. subst s.
      destruct (fee_le_balance mb eb Hwf) as (Hfn & Hfw & Hff & Hle).
      set (fee := Number_toFixed8 (mul (S754_finite false mb eb) feeRate)) in *.
      split; [repeat split; assumption|].
      assert (Hs : nonneg (sub (S754_finite false mb eb) fee)
                   ∧ wellFormed (sub (S754_finite false mb eb) fee)).
      { destruct fee as [sf|sf| |sf mf ef]; try discriminate.
        - cbn. auto.
        - cbn [nonneg] in Hfn. subst sf. apply sub_nonneg. exact Hle. }
      destruct Hs as [Hs1 Hs2]. split; [exact Hs1|].
      apply Number_toFixed8_nonneg; assumption.
  - split; [repeat split; cbn; auto|].
    split; [|split; assumption].
    destruct post as [s|s| |s mb eb]; try discriminate; try (cbn; auto; fail).
    destruct s; cbn; auto.
Qed.

Lemma accepted_finiteNonneg a :
  acceptedAmount a = true → wellFormed a → finiteNonneg a.
Proof.
  unfold acceptedAmount, le, SFleb, pos_zero, finiteNonneg.
  destruct a as [s|s| |s m e]; try destruct s; cbn; intros H Hwf;
    try discriminate; auto.
Qed.

Lemma add_finiteNonneg x y :
  nonneg x → nonneg y → wellFormed x → wellFormed y →
  isFinite (add x y) = true → finiteNonneg (add x y).
Proof.
  intros Hx Hy Wx Wy Hfin.
  destruct (add_nonneg x y Hx Hy Wx Wy). repeat split; assumption.
Qed.

(** One accepted deposit on an account whose balance is not negative. *)
Lemma deposit_nonneg_step body random now srv srv' d :
  deposit body random now srv = (srv', ok d) →
  let current := lookupOrCreate srv (d_investor d) (d_strategyId d) in
  let post := add (balance current) (coerceAmount body) in
  wellFormed (coerceAmount body) →
  wellFormed (balance current) →
  le pos_zero (balance current) = true →
  isFinite post = true →
  le pos_zero (sub post (feeCharged d)) = true
  ∧ le pos_zero (newBalance d) = true.
Proof.
  intros H current post Wa Wb Hb Hfin.
  apply deposit_ok_inv in H as (i & s & Hi & Hs & Ha & H).
  apply applyDeposit_spec in H as (Hdi & Hds & _ & Hc & _).
  cbv zeta in Hc. subst i s. fold current in Hc. fold post in Hc.
  apply le_zero_nonneg in Hb.
  destruct (accepted_finiteNonneg _ Ha Wa) as (Hna & _ & _).
  pose proof (add_finiteNonneg _ _ Hb Hna Wb Wa Hfin) as Hpost. fold post in Hpost.
  pose proof (chargeFee_finite
    (negb (Allocation_eqb (allocation current) (d_allocation d)))
    post (platformTotalFees srv) Hpost) as Hfee.
  rewrite Hc in Hfee. destruct Hfee as (_ & Hsub & Hbal & _).
  split; apply le_zero_nonneg; assumption.
Qed.

End Fee.

(* ===================================================================== *)
(** ** No balance and no fee total is negative *)
(* ===================================================================== *)

Section Invariant.

Lemma valid_binary_wellFormed x :
  valid_binary prec emax x = true → wellFormed x.
Proof.
  destruct x as [s|s| |s m e]; cbn; auto.
  unfold bounded, canonical_mantissa. intros H.
  apply andb_true_iff in H as [Hc He].
  apply Z.eqb_eq in Hc. apply Z.leb_le in He.
  split; [|exact He].
  pose proof (Zdigits2_upper (Zpos m) ltac:(lia)) as Hup. cbn [Zdigits2] in Hup.
  fold (fexp64 (Z.pos (digits2_pos m) + e)) in Hc. rewrite fexp64_eq in Hc.
  assert (2 ^ Zpos (digits2_pos m) <= 2 ^ prec)
    by (apply Z.pow_le_mono_r; unfold prec; lia).
  lia.
Qed.

Lemma notNegative_never_negative x :
  notNegative x → lt x pos_zero = false.
Proof.
  intros [[->|H] _]; [reflexivity|].
  destruct x as [s|s| |s m e]; cbn in H; try contradiction; subst; reflexivity.
Qed.

Lemma add_notNegative x y :
  notNegative x → notNegative y → notNegative (add x y).
Proof.
  intros [[->|Hx] Wx] [[->|Hy] Wy].
  - split; [left; reflexivity|exact I].
  - split; [left; reflexivity|exact I].
  - split; [left; destruct x; reflexivity|].
    destruct x; exact I.
  - destruct (add_nonneg x y Hx Hy Wx Wy). split; [right|]; assumption.
Qed.

Lemma Number_toFixed8_notNegative x :
  notNegative x → notNegative (Number_toFixed8 x).
Proof.
  intros [[->|Hx] Wx].
  - split; [left; reflexivity|exact I].
  - destruct (Number_toFixed8_nonneg x Hx Wx). split; [right|]; assumption.
Qed.

Lemma finiteNonneg_notNegative x : finiteNonneg x → notNegative x.
Proof. intros (H & W & _). split; [right|]; assumption. Qed.

Lemma chargeFee_notNegative switch post fees :
  notNegative post → notNegative fees →
  let '(fee, bal, fees') := chargeFee switch post fees in
  notNegative fee ∧ notNegative bal ∧ notNegative fees'.
Proof.
  intros Hp Hf.
  destruct (isFinite post) eqn:Hfin.
  - assert (Hpost : finiteNonneg post).
    { destruct Hp as [[->|Hn] W]; [discriminate|]. repeat split; assumption. }
    pose proof (chargeFee_finite switch post fees Hpost) as H.
    pose proof (chargeFee_fees switch post fees) as Hfees.
    destruct (chargeFee switch post fees) as [[fee bal] fees'].
    destruct H as (Hfee & _ & Hb & Wb). cbn [fst snd] in Hfees.
    apply finiteNonneg_notNegative in Hfee.
    split; [exact Hfee|]. split; [split; [right|]; assumption|].
    rewrite Hfees. destruct switch; [|exact Hf].
    apply Number_toFixed8_notNegative, add_notNegative; assumption.
  - unfold chargeFee. destruct switch.
    + destruct Hp as [[->|Hn] W].
      * change (mul S754_nan feeRate) with S754_nan.
        change (Number_toFixed8 S754_nan) with S754_nan.
        change (sub S754_nan S754_nan) with S754_nan.
        assert (Hnan : notNegative S754_nan) by (split; [left; reflexivity|exact I]).
        split; [exact Hnan|]. split; [exact Hnan|].
        apply Number_toFixed8_notNegative, add_notNegative; assumption.
      * destruct post as [s|s| |s m e]; try discriminate; try contradiction.
        cbn [nonneg] in Hn. subst s.
        assert (Hfee : Number_toFixed8 (mul (S754_infinity false) feeRate)
                       = S754_infinity false) by (vm_compute; reflexivity).
        rewrite Hfee.
        change (sub (S754_infinity false) (S754_infinity false)) with S754_nan.
        assert (Hnan : notNegative S754_nan) by (split; [left; reflexivity|exact I]).
        assert (Hinf : notNegative (S754_infinity false))
          by (split; [right; reflexivity|exact I]).
        split; [exact Hinf|]. split; [exact Hnan|].
        apply Number_toFixed8_notNegative, add_notNegative; assumption.
    + split; [|split; assumption].
      split; [right; exact I|exact I].
Qed.

Lemma ledgerInv_start : ledgerInv start.
Proof.
  split.
  - intros investor a H. unfold start in H. cbn [investorStates] in H.
    rewrite lookup_empty in H. discriminate.
  - split; [right; exact I|exact I].
Qed.

Lemma lookupOrCreate_notNegative srv investor strategyId :
  ledgerInv srv → notNegative (balance (lookupOrCreate srv investor strategyId)).
Proof.
  intros [Hinv _]. unfold lookupOrCreate.
  destruct (investorStates srv !! investor) as [a|] eqn:Ha.
  - eapply Hinv; eassumption.
  - split; [right; exact I|exact I].
Qed.

Lemma ledgerInv_deposit body random now srv :
  wellFormed (coerceAmount body) →
  ledgerInv srv →
  ledgerInv (fst (deposit body random now srv)).
Proof.
  intros Wa Hinv.
  destruct (amountThrows body) eqn:Ht;
    [rewrite deposit_failed by assumption; exact Hinv|].
  destruct (truthy (body ≫= body_investor)) as [i|] eqn:Hi;
    [|rewrite deposit_rejected by auto; exact Hinv].
  destruct (truthy (body ≫= body_strategyId)) as [s|] eqn:Hs;
    [|rewrite deposit_rejected by auto; exact Hinv].
  destruct (acceptedAmount (coerceAmount body)) eqn:Ha;
    [|rewrite deposit_rejected by auto; exact Hinv].
  rewrite (deposit_accepted _ _ _ _ i s) by assumption.
  destruct (applyDeposit _ _ _ _ _ _ _) as [srv' d] eqn:Happ. cbn [fst].
  apply applyDeposit_spec in Happ as (_ & _ & _ & Hc & Hst & Hf & _).
  cbv zeta in Hc.
  pose proof (lookupOrCreate_notNegative srv i s Hinv) as Hcur.
  pose proof (finiteNonneg_notNegative _ (accepted_finiteNonneg _ Ha Wa)) as Hamt.
  pose proof (chargeFee_notNegative
    (negb (Allocation_eqb (allocation (lookupOrCreate srv i s)) (d_allocation d)))
    _ (platformTotalFees srv) (add_notNegative _ _ Hcur Hamt) (proj2 Hinv)) as H.
  rewrite Hc in H. destruct H as (_ & Hbal & Hfees).
  split.
  - intros investor a. rewrite Hst.
    destruct (decide (i = investor)) as [->|Hne].
    + rewrite lookup_insert_eq. intros [= <-]. exact Hbal.
    + rewrite lookup_insert_ne by assumption. apply Hinv.
  - rewrite Hf. exact Hfees.
Qed.

Lemma ledgerInv_run reqs : ∀ srv,
  Forall (λ r, wellFormed (amountOf r)) reqs →
  ledgerInv srv →
  ledgerInv (fst (run reqs srv)).
Proof.
  induction reqs as [|r reqs IH]; intros srv Hall Hinv.
  - exact Hinv.
  - apply Forall_cons in Hall as [Hr Hall]. cbn [run].
    pose proof (ledgerInv_deposit (r_body r) (r_random r) (r_now r) srv Hr Hinv) as H1.
    destruct (deposit (r_body r) (r_random r) (r_now r) srv) as [srv1 resp].
    cbn [fst] in H1. specialize (IH srv1 Hall H1).
    destruct (run reqs srv1) as [srv2 resps]. exact IH.
Qed.

Lemma SFdiv_wellFormed s n k :
  wellFormed (SFdiv prec emax (S754_finite s n 0) (S754_finite false k 0)).
Proof.
  cbn [SFdiv].
  pose proof (SFdiv_core_binary_spec (Zpos n) (Zpos k) ltac:(lia) ltac:(lia)) as H.
  destruct (SFdiv_core_binary prec emax (Zpos n) 0 (Zpos k) 0) as [[q e] l].
  cbv zeta in H. destruct H as [_ Hq].
  apply binary_round_aux_shape. subst q. apply Z.div_pos; [|lia].
  assert (0 <= 2 ^ (- Z.min (fexp64 (Zdigits2 (Zpos n) - Zdigits2 (Zpos k))) 0))
    by (apply Z.pow_nonneg; lia).
  lia.
Qed.

Lemma of_decimal_wellFormed neg M E : wellFormed (of_decimal neg M E).
Proof.
  unfold of_decimal. destruct M as [|p|p]; try exact I.
  destruct E as [|k|k].
  - apply binary_round_shape.
  - apply binary_round_shape.
  - apply SFdiv_wellFormed.
Qed.

Lemma StrUnsignedDecimalLiteral_wellFormed neg l :
  wellFormed (StrUnsignedDecimalLiteral neg l).
Proof.
  unfold StrUnsignedDecimalLiteral.
  destruct (String.eqb _ _); [exact I|].
  destruct (digits 10 l 0 0) as [[i ni] r1].
  destruct (match r1 with
            | [] => (0, 0, r1)
            | c :: r => if Ascii.eqb c "." then digits 10 r 0 0 else (0, 0, r1)
            end) as [[f nf] r2].
  destruct (0 <? ni + nf); [|exact I].
  destruct (ExponentPart r2); [apply of_decimal_wellFormed|exact I].
Qed.

Lemma NonDecimalIntegerLiteral_wellFormed b l :
  wellFormed (NonDecimalIntegerLiteral b l).
Proof.
  unfold NonDecimalIntegerLiteral.
  destruct (digits b l 0 0) as [[v n] [|c r]]; [|exact I].
  destruct (0 <? n); [apply of_decimal_wellFormed|exact I].
Qed.

Lemma StringToNumber_wellFormed s : wellFormed (StringToNumber s).
Proof.
  unfold StringToNumber.
  destruct (ascii_text _) as [l|]; [|exact I].
  unfold StrNumericLiteral. destruct l as [|c r]; [exact I|].
  destruct (Ascii.eqb c "+"); [apply StrUnsignedDecimalLiteral_wellFormed|].
  destruct (Ascii.eqb c "-"); [apply StrUnsignedDecimalLiteral_wellFormed|].
  destruct r as [|k r']; [apply StrUnsignedDecimalLiteral_wellFormed|].
  repeat match goal with
         | |- wellFormed (if ?b then _ else _) => destruct b
         end;
    first [apply NonDecimalIntegerLiteral_wellFormed
          |apply StrUnsignedDecimalLiteral_wellFormed].
Qed.

Lemma ToNumber_wellFormed : ∀ v, numberValue v → wellFormed (ToNumber v).
Proof.
  fix IH 1. intros v.
  destruct v as [| |[]|x|s|l|props]; cbn [ToNumber numberValue];
    intros H; try exact I.
  - apply of_decimal_wellFormed.
  - apply valid_binary_wellFormed. exact H.
  - apply StringToNumber_wellFormed.
  - destruct l as [|e [|e2 l]]; [exact I| |exact I].
    destruct H as [H _]. pose proof (IH e H) as IHe.
    destruct e as [| |b|x|s|l'|props]; try exact I.
    + destruct x; [exact I|exact I|exact I|exact IHe].
    + apply StringToNumber_wellFormed.
    + exact IHe.
Qed.

Lemma coerceAmount_wellFormed body : wellTyped body → wellFormed (coerceAmount body).
Proof.
  unfold coerceAmount. destruct body as [b|]; [|intros _; exact I].
  cbn [from_option wellTyped]. intros H.
  destruct (body_amount b); try exact I; apply ToNumber_wellFormed; exact H.
Qed.

Lemma ledgerInv_reachable reqs :
  wellTypedRequests reqs → ledgerInv (fst (run reqs start)).
Proof.
  intros H. apply ledgerInv_run; [|apply ledgerInv_start].
  eapply Forall_impl; [exact H|]. intros r Hr. apply coerceAmount_wellFormed. exact Hr.
Qed.

End Invariant.

(* ===================================================================== *)
(** ** The scenario of the specification *)
(* ===================================================================== *)

(** The scenario of the specification: 1000 deposited with the decision
    INVESTED, then 500 with the decision unchanged. *)
Example scenario_first_deposit :
  toFixed8 (mul (num 1000) feeRate) = Some "5.00000000"%string
  ∧ toFixed8 (sub (num 1000) (num 5)) = Some "995.00000000"%string
  ∧ dataOf (snd (deposit (depositOf "inv1" "grid-1" (JNumber (num 1000)))
                   random_high 1 start))
    = Some {| d_investor := "inv1"; d_strategyId := "grid-1"; d_asset := "XLM";
              newBalance := num 995; d_allocation := INVESTED;
              feeCharged := num 5; d_platformTotalFees := num 5;
              simulated := true; decidedAt := 1 |}.
Proof.
  split; [vm_compute; reflexivity|]. split; vm_compute; reflexivity.
Qed.

Example scenario_second_deposit :
  let srv := fst (deposit (depositOf "inv1" "grid-1" (JNumber (num 1000)))
                    random_high 1 start) in
  dataOf (snd (deposit (depositOf "inv1" "grid-1" (JNumber (num 500)))
                 random_high 2 srv))
  = Some {| d_investor := "inv1"; d_strategyId := "grid-1"; d_asset := "XLM";
            newBalance := num 1495; d_allocation := INVESTED;
            feeCharged := pos_zero; d_platformTotalFees := num 5;
            simulated := true; decidedAt := 2 |}.
Proof. vm_compute. reflexivity. Qed.

(** The texts behind the examples of this file. *)
Example toFixed8_texts :
  toFixed8 (mul (num 10001) feeRate) = Some "50.00500000"%string
  ∧ toFixed8 (sub (num 10001) (of_decimal false 50005 (-3)))
    = Some "9950.99500000"%string
  ∧ toFixed8 dust = Some "0.00000000"%string
  ∧ toFixed8 (sumOf [dust; dust; dust]) = Some "0.00000001"%string
  ∧ toFixed8 (S754_infinity false) = Some "Infinity"%string
  ∧ toFixed8 S754_nan = Some "NaN"%string.
Proof.
  do 5 (split; [vm_compute; reflexivity|]). vm_compute. reflexivity.
Qed.

(* ===================================================================== *)
(** ** Accounts, requests and calls *)
(* ===================================================================== *)

Section Ledger.

Lemma acceptedInvestor_Some r investor :
  acceptedInvestor r = Some investor →
  ∃ strategyId,
    truthy (r_body r ≫= body_investor) = Some investor
    ∧ truthy (r_body r ≫= body_strategyId) = Some strategyId
    ∧ acceptedAmount (coerceAmount (r_body r)) = true.
Proof.
  unfold acceptedInvestor.
  destruct (truthy (r_body r ≫= body_investor)) as [i|]; [|discriminate].
  destruct (truthy (r_body r ≫= body_strategyId)) as [s|]; [|discriminate].
  destruct (acceptedAmount _); [|discriminate].
  intros [= ->]. eauto.
Qed.

Lemma acceptedInvestor_None r srv :
  acceptedInvestor r = None →
  deposit (r_body r) (r_random r) (r_now r) srv
  = (srv, if amountThrows (r_body r) then failed else rejection).
Proof.
  unfold acceptedInvestor. intros H.
  destruct (amountThrows (r_body r)) eqn:Ht; [apply deposit_failed; exact Ht|].
  apply deposit_rejected; [exact Ht|].
  destruct (truthy (r_body r ≫= body_investor)) as [i|]; [|auto].
  destruct (truthy (r_body r ≫= body_strategyId)) as [s|]; [|auto].
  destruct (acceptedAmount _); [discriminate|auto].
Qed.

(** An accepted deposit, as a write to the map and to the counter. *)
Lemma deposit_applied r srv investor :
  acceptedInvestor r = Some investor →
  ∃ strategyId d,
    truthy (r_body r ≫= body_strategyId) = Some strategyId
    ∧ deposit (r_body r) (r_random r) (r_now r) srv
      = (fst (deposit (r_body r) (r_random r) (r_now r) srv), ok d)
    ∧ investorStates (fst (deposit (r_body r) (r_random r) (r_now r) srv))
      = <[investor := {| strategyId := strategyId; balance := newBalance d;
                         allocation := decideAllocation (r_random r);
                         lastDecisionAt := r_now r |}]> (investorStates srv)
    ∧ strategyStatus (fst (deposit (r_body r) (r_random r) (r_now r) srv))
      = strategyStatus srv
    ∧ platformTotalFees (fst (deposit (r_body r) (r_random r) (r_now r) srv))
      = d_platformTotalFees d
    ∧ chargeFee
        (negb (Allocation_eqb (allocation (lookupOrCreate srv investor strategyId))
                              (decideAllocation (r_random r))))
        (add (balance (lookupOrCreate srv investor strategyId))
             (coerceAmount (r_body r)))
        (platformTotalFees srv)
      = (feeCharged d, newBalance d, d_platformTotalFees d)
    ∧ d_investor d = investor ∧ d_allocation d = decideAllocation (r_random r).
Proof.
  intros H. apply acceptedInvestor_Some in H as (s & Hi & Hs & Ha).
  rewrite (deposit_accepted _ _ _ _ investor s) by assumption.
  destruct (applyDeposit _ _ _ _ _ _ _) as [srv' d] eqn:Happ.
  exists s, d. cbn [fst].
  apply applyDeposit_spec in Happ as (Hdi & _ & Hal & Hc & Hst & Hf & Hss).
  cbv zeta in Hc. rewrite Hal in Hc, Hst.
  repeat split; assumption || reflexivity.
Qed.

(** A request leaves the account of every investor other than the one
    it is accepted for as it was. *)
Lemma deposit_frame r srv j :
  acceptedInvestor r ≠ Some j →
  investorStates (fst (deposit (r_body r) (r_random r) (r_now r) srv)) !! j
  = investorStates srv !! j.
Proof.
  intros Hne. destruct (acceptedInvestor r) as [i|] eqn:Hacc.
  - destruct (deposit_applied r srv i Hacc) as (s & d & _ & _ & Hst & _).
    rewrite Hst. apply lookup_insert_ne. congruence.
  - rewrite acceptedInvestor_None by assumption. reflexivity.
Qed.

Lemma acceptedFor_true investor r :
  acceptedFor investor r = true ↔ acceptedInvestor r = Some investor.
Proof.
  unfold acceptedFor. destruct (acceptedInvestor r) as [i|].
  - rewrite String.eqb_eq. split; congruence.
  - split; discriminate.
Qed.

Lemma acceptedFor_false investor r :
  acceptedFor investor r = false ↔ acceptedInvestor r ≠ Some investor.
Proof.
  rewrite <- acceptedFor_true. destruct (acceptedFor investor r); split; congruence.
Qed.

(** The balance that the fee branch leaves does not depend on the fee
    total. *)
Lemma chargeFee_account switch bal fees1 fees2 :
  fst (chargeFee switch bal fees1) = fst (chargeFee switch bal fees2).
Proof. destruct switch; reflexivity. Qed.

(** The account that an accepted deposit writes is a function of the
    account it finds. *)
Lemma deposit_account r srv1 srv2 investor :
  acceptedInvestor r = Some investor →
  investorStates srv1 !! investor = investorStates srv2 !! investor →
  investorStates (fst (deposit (r_body r) (r_random r) (r_now r) srv1)) !! investor
  = investorStates (fst (deposit (r_body r) (r_random r) (r_now r) srv2)) !! investor.
Proof.
  intros Hacc Heq.
  destruct (deposit_applied r srv1 investor Hacc)
    as (s1 & d1 & Hs1 & _ & Hst1 & _ & _ & Hc1 & _).
  destruct (deposit_applied r srv2 investor Hacc)
    as (s2 & d2 & Hs2 & _ & Hst2 & _ & _ & Hc2 & _).
  rewrite Hst1, Hst2, !lookup_insert_eq.
  assert (s2 = s1) as -> by congruence.
  assert (Hl : lookupOrCreate srv1 investor s1 = lookupOrCreate srv2 investor s1).
  { unfold lookupOrCreate. rewrite Heq. reflexivity. }
  rewrite Hl in Hc1.
  pose proof (chargeFee_account
    (negb (Allocation_eqb (allocation (lookupOrCreate srv2 investor s1))
                          (decideAllocation (r_random r))))
    (add (balance (lookupOrCreate srv2 investor s1)) (coerceAmount (r_body r)))
    (platformTotalFees srv1) (platformTotalFees srv2)) as Hacct.
  rewrite Hc1, Hc2 in Hacct. cbn [fst] in Hacct.
  injection Hacct as _ Hbal. rewrite Hbal. reflexivity.
Qed.

Lemma run_cons r reqs srv :
  run (r :: reqs) srv
  = (fst (run reqs (fst (deposit (r_body r) (r_random r) (r_now r) srv))),
     snd (deposit (r_body r) (r_random r) (r_now r) srv)
       :: snd (run reqs (fst (deposit (r_body r) (r_random r) (r_now r) srv)))).
Proof.
  cbn [run]. destruct (deposit _ _ _ _) as [srv1 resp]. cbn [fst snd].
  destruct (run reqs srv1) as [srv2 resps]. reflexivity.
Qed.

Lemma serve_cons c calls srv :
  serve (c :: calls) srv
  = (fst (serve calls (fst (handle c srv))),
     snd (handle c srv) :: snd (serve calls (fst (handle c srv)))).
Proof.
  cbn [serve]. destruct (handle c srv) as [srv1 resp]. cbn [fst snd].
  destruct (serve calls srv1) as [srv2 resps]. reflexivity.
Qed.

Lemma accounts_projection investor reqs : ∀ srv1 srv2,
  investorStates srv1 !! investor = investorStates srv2 !! investor →
  investorStates (fst (run reqs srv1)) !! investor
  = investorStates (fst (run (List.filter (acceptedFor investor) reqs) srv2))
      !! investor.
Proof.
  induction reqs as [|r reqs IH]; intros srv1 srv2 Heq; [exact Heq|].
  rewrite run_cons. cbn [fst List.filter].
  destruct (acceptedFor investor r) eqn:Hacc.
  - rewrite run_cons. cbn [fst]. apply IH.
    apply deposit_account; [apply acceptedFor_true|]; assumption.
  - apply IH. rewrite deposit_frame by (apply acceptedFor_false; assumption).
    exact Heq.
Qed.

(** The deposit handler reads and writes the accounts and the fee
    total only. *)
Lemma deposit_sameLedger body random now srv1 srv2 :
  sameLedger srv1 srv2 →
  sameLedger (fst (deposit body random now srv1)) (fst (deposit body random now srv2))
  ∧ snd (deposit body random now srv1) = snd (deposit body random now srv2).
Proof.
  intros [Hi Hf].
  destruct (amountThrows body) eqn:Et;
    [rewrite !deposit_failed by assumption; repeat split; assumption|].
  destruct (truthy (body ≫= body_investor)) as [i|] eqn:Ei;
    [|rewrite !deposit_rejected by auto; repeat split; assumption].
  destruct (truthy (body ≫= body_strategyId)) as [s|] eqn:Es;
    [|rewrite !deposit_rejected by auto; repeat split; assumption].
  destruct (acceptedAmount (coerceAmount body)) eqn:Ea;
    [|rewrite !deposit_rejected by auto; repeat split; assumption].
  rewrite !(deposit_accepted _ _ _ _ i s) by assumption.
  unfold applyDeposit, lookupOrCreate. rewrite Hi, Hf.
  destruct (chargeFee _ _ _) as [[fee bal'] fees'].
  cbn. repeat split.
Qed.

Lemma setStatus_sameLedger id s srv : sameLedger (setStatus id s srv) srv.
Proof. split; reflexivity. Qed.

Lemma status_call_sameLedger c srv :
  depositOfCall c = None → sameLedger (fst (handle c srv)) srv.
Proof.
  destruct c as [r|body|body]; [discriminate| |]; intros _;
    cbn [handle]; unfold pauseStrategy, resumeStrategy;
    destruct (truthy (body ≫= body_id)); split; reflexivity.
Qed.

Lemma sameLedger_trans a b c : sameLedger a b → sameLedger b c → sameLedger a c.
Proof. intros [H1 H2] [H3 H4]. split; congruence. Qed.

Lemma serve_run calls : ∀ srv1 srv2,
  sameLedger srv1 srv2 →
  sameLedger (fst (serve calls srv1)) (fst (run (depositsOf calls) srv2))
  ∧ depositResponses calls (snd (serve calls srv1))
    = snd (run (depositsOf calls) srv2).
Proof.
  induction calls as [|c calls IH]; intros srv1 srv2 Hs; [split; [exact Hs|reflexivity]|].
  rewrite serve_cons. cbn [fst snd].
  destruct c as [r|body|body].
  - change (depositsOf (CallDeposit r :: calls)) with (r :: depositsOf calls).
    rewrite run_cons. cbn [fst snd handle depositResponses].
    destruct (deposit_sameLedger (r_body r) (r_random r) (r_now r) srv1 srv2 Hs)
      as [Hs' Hr].
    destruct (IH _ _ Hs') as [H1 H2]. split; [exact H1|]. rewrite Hr, H2. reflexivity.
  - change (depositsOf (CallPause body :: calls)) with (depositsOf calls).
    cbn [depositResponses]. apply IH.
    apply sameLedger_trans with srv1; [|exact Hs].
    apply (status_call_sameLedger (CallPause body)). reflexivity.
  - change (depositsOf (CallResume body :: calls)) with (depositsOf calls).
    cbn [depositResponses]. apply IH.
    apply sameLedger_trans with srv1; [|exact Hs].
    apply (status_call_sameLedger (CallResume body)). reflexivity.
Qed.

Lemma handle_status c srv id :
  strategyStatus (fst (handle c srv)) !! id
  = match statusWritten c with
    | Some (id', st) => if String.eqb id' id then Some st
                        else strategyStatus srv !! id
    | None => strategyStatus srv !! id
    end.
Proof.
  destruct c as [r|body|body]; cbn [handle statusWritten].
  - destruct (acceptedInvestor r) as [i|] eqn:Hacc.
    + destruct (deposit_applied r srv i Hacc) as (s & d & _ & _ & _ & Hss & _).
      rewrite Hss. reflexivity.
    + rewrite acceptedInvestor_None by assumption. reflexivity.
  - unfold pauseStrategy. destruct (truthy (body ≫= body_id)) as [i|]; cbn; [|reflexivity].
    destruct (String.eqb_spec i id) as [->|Hne].
    + apply lookup_insert_eq.
    + apply lookup_insert_ne. assumption.
  - unfold resumeStrategy. destruct (truthy (body ≫= body_id)) as [i|]; cbn; [|reflexivity].
    destruct (String.eqb_spec i id) as [->|Hne].
    + apply lookup_insert_eq.
    + apply lookup_insert_ne. assumption.
Qed.

Lemma serve_status id calls : ∀ srv,
  strategyStatus (fst (serve calls srv)) !! id
  = lastStatus id calls (strategyStatus srv !! id).
Proof.
  induction calls as [|c calls IH]; intros srv; [reflexivity|].
  rewrite serve_cons. cbn [fst lastStatus]. rewrite IH, handle_status.
  destruct (statusWritten c) as [[id' st]|]; [|reflexivity].
  destruct (String.eqb id' id); reflexivity.
Qed.

End Ledger.

(* ===================================================================== *)
(** ** Sequences of deposits *)
(* ===================================================================== *)

(** Property X1.  The account of an investor is a function of that
    investor's own accepted deposits: the requests of other investors and
    the rejected requests can be struck from the sequence without changing
    it. *)
Theorem account_depends_on_own_deposits investor reqs srv :
  investorStates (fst (run reqs srv)) !! investor
  = investorStates (fst (run (List.filter (acceptedFor investor) reqs) srv))
      !! investor.
Proof. apply accounts_projection. reflexivity. Qed.

(** Property X2.  Rejected requests are no-ops in a sequence: the state
    after the sequence, and the data of the successful responses, are those
    of the sequence without them. *)
Theorem rejected_requests_change_nothing reqs srv :
  fst (run reqs srv) = fst (run (List.filter accepted reqs) srv)
  ∧ omap dataOf (snd (run reqs srv))
    = omap dataOf (snd (run (List.filter accepted reqs) srv)).
Proof.
  revert srv. induction reqs as [|r reqs IH]; intros srv; [split; reflexivity|].
  rewrite run_cons. cbn [fst snd List.filter].
  destruct (accepted r) eqn:Hacc; unfold accepted in Hacc.
  - rewrite run_cons. cbn [fst snd].
    destruct (IH (fst (deposit (r_body r) (r_random r) (r_now r) srv))) as [H1 H2].
    split; [exact H1|]. cbn [omap list_omap]. rewrite H2. reflexivity.
  - destruct (acceptedInvestor r) eqn:Hn; [discriminate|].
    rewrite acceptedInvestor_None by assumption. cbn [fst snd].
    destruct (IH srv) as [H1 H2]. split; [exact H1|].
    destruct (amountThrows (r_body r)); exact H2.
Qed.

(** Property X3.  Accounts are created and never removed: after a sequence
    of requests the investors with an account are those that had one before
    and those of the accepted requests. *)
Theorem accounts_are_never_removed reqs srv :
  dom (investorStates (fst (run reqs srv)))
  =@{gset string}
  dom (investorStates srv) ∪ list_to_set (omap acceptedInvestor reqs).
Proof.
  revert srv. induction reqs as [|r reqs IH]; intros srv.
  - cbn. rewrite union_empty_r_L. reflexivity.
  - rewrite run_cons. cbn [fst]. rewrite IH. cbn [omap list_omap].
    destruct (acceptedInvestor r) as [i|] eqn:Hacc.
    + destruct (deposit_applied r srv i Hacc) as (s & d & _ & _ & Hst & _).
      rewrite Hst, dom_insert_L. cbn [list_to_set].
      rewrite (comm_L (∪) {[i]}), <- (assoc_L (∪)). reflexivity.
    + rewrite acceptedInvestor_None by assumption. reflexivity.
Qed.

Lemma last_cons_cons {A} (x y : A) l : last (x :: y :: l) = last (y :: l).
Proof. reflexivity. Qed.

(** Property X4.  An account carries the decision, the time and the strategy
    of the last accepted deposit of its investor; without such a deposit in
    the sequence the entry of the investor is the one before. *)
Theorem account_records_last_deposit investor reqs srv :
  match lastAcceptedFor investor reqs with
  | Some r =>
      ∃ a, investorStates (fst (run reqs srv)) !! investor = Some a
        ∧ allocation a = decideAllocation (r_random r)
        ∧ lastDecisionAt a = r_now r
        ∧ truthy (r_body r ≫= body_strategyId) = Some (strategyId a)
  | None =>
      investorStates (fst (run reqs srv)) !! investor
      = investorStates srv !! investor
  end.
Proof.
  rewrite (accounts_projection investor reqs srv srv eq_refl).
  unfold lastAcceptedFor.
  assert (Hall : Forall (λ r, acceptedInvestor r = Some investor)
                   (List.filter (acceptedFor investor) reqs)).
  { apply List.Forall_forall. intros r Hin. apply List.filter_In in Hin as [_ H].
    apply acceptedFor_true. exact H. }
  revert Hall srv. generalize (List.filter (acceptedFor investor) reqs) as l.
  induction l as [|r l IH]; intros Hall srv; [reflexivity|].
  apply Forall_cons in Hall as [Hr Hall].
  rewrite run_cons. cbn [fst].
  destruct l as [|r' l].
  - cbn [last run fst].
    destruct (deposit_applied r srv investor Hr)
      as (s & d & Hs & _ & Hst & _).
    rewrite Hst, lookup_insert_eq. eexists. split; [reflexivity|].
    cbn. auto.
  - rewrite last_cons_cons.
    specialize (IH Hall (fst (deposit (r_body r) (r_random r) (r_now r) srv))).
    destruct (last (r' :: l)) as [r1|] eqn:Hlast; [exact IH|].
    apply last_None in Hlast. discriminate.
Qed.

(* ===================================================================== *)
(** ** Deposits, pause and resume together *)
(* ===================================================================== *)

(** Property X5.  Pausing or resuming a strategy has no effect on deposits:
    whatever pause and resume calls are interleaved, every deposit is
    answered as without them, and the accounts and the fee total end the
    same. *)
Theorem deposits_ignore_pause_and_resume calls srv :
  sameLedger (fst (serve calls srv)) (fst (run (depositsOf calls) srv))
  ∧ depositResponses calls (snd (serve calls srv))
    = snd (run (depositsOf calls) srv).
Proof. apply serve_run. split; reflexivity. Qed.

(** Property X6.  The status of a strategy is the one written by the last
    accepted pause or resume call that named it, whatever deposits and calls
    for other identifiers come in between; without such a call its entry is
    the one before. *)
Theorem status_is_last_written id calls srv :
  strategyStatus (fst (serve calls srv)) !! id
  = lastStatus id calls (strategyStatus srv !! id)
  ∧ statusOf id (fst (serve calls srv))
    = default ACTIVE (lastStatus id calls (strategyStatus srv !! id)).
Proof.
  unfold statusOf. rewrite serve_status. split; reflexivity.
Qed.

Lemma lastStatus_untouched id calls s :
  Forall (λ c, ∀ st, statusWritten c ≠ Some (id, st)) calls →
  lastStatus id calls s = s.
Proof.
  revert s. induction calls as [|c calls IH]; intros s Hall; [reflexivity|].
  apply Forall_cons in Hall as [Hc Hall]. cbn [lastStatus].
  destruct (statusWritten c) as [[id' st]|]; [|apply IH; assumption].
  destruct (String.eqb_spec id' id) as [->|Hne]; [|apply IH; assumption].
  exfalso. exact (Hc st eq_refl).
Qed.

(** Property X7.  The list of strategies has one entry, [grid-strategy-1],
    and its status is the only thing the list reads from the state: calls
    that do not write the status of that identifier, among them every
    deposit and every pause or resume of another strategy, leave the list as
    it was. *)
Theorem listing_reads_one_status t1 t2 t3 t4 calls srv :
  Forall (λ c, ∀ st, statusWritten c ≠ Some ("grid-strategy-1"%string, st)) calls →
  listStrategies t1 t2 t3 t4 (fst (serve calls srv))
  = listStrategies t1 t2 t3 t4 srv
  ∧ map s_id (listStrategies t1 t2 t3 t4 srv) = ["grid-strategy-1"%string].
Proof.
  intros Hall. split; [|reflexivity].
  unfold listStrategies, statusOf.
  rewrite serve_status, lastStatus_untouched by assumption. reflexivity.
Qed.

Lemma listing_reads_one_status_witness :
  let calls := [CallPause (idOf "grid-strategy-2");
                CallDeposit {| r_body := depositOf "inv1" "grid-strategy-1"
                                           (JNumber (num 100));
                               r_random := random_high; r_now := 1 |}] in
  Forall (λ c, ∀ st, statusWritten c ≠ Some ("grid-strategy-1"%string, st)) calls
  ∧ (listStrategies 1 2 3 4 (fst (serve calls start))
     = listStrategies 1 2 3 4 start
     ∧ map s_id (listStrategies 1 2 3 4 start) = ["grid-strategy-1"%string]).
Proof.
  intros calls.
  assert (H : Forall (λ c, ∀ st, statusWritten c
                ≠ Some ("grid-strategy-1"%string, st)) calls).
  { repeat (apply Forall_cons; split); try apply Forall_nil_2;
      intros st; cbn; discriminate. }
  split; [exact H|].
  exact (listing_reads_one_status 1 2 3 4 calls start H).
Defined.

(* ===================================================================== *)
(** ** Balances that are not finite *)
(* ===================================================================== *)

Section NotFinite.

Lemma Number_toFixed8_not_finite x :
  isFinite x = false → Number_toFixed8 x = x.
Proof.
  destruct x as [s|s| |s m e]; try discriminate; intros _.
  - destruct s; vm_compute; reflexivity.
  - vm_compute; reflexivity.
Qed.

Lemma add_not_finite_l x y :
  isFinite x = false →
  isFinite (add x y) = false ∧ (x = S754_nan → add x y = S754_nan).
Proof.
  destruct x as [s|s| |s m e]; try discriminate; intros _.
  - split; [|discriminate].
    destruct y as [s'|s'| |s' m' e']; cbn; try reflexivity.
    destruct s, s'; reflexivity.
  - split; reflexivity.
Qed.

Lemma add_not_finite_r x y :
  isFinite y = false → isFinite (add x y) = false.
Proof.
  destruct y as [s|s| |s m e]; try discriminate; intros _.
  - destruct x as [s'|s'| |s' m' e']; cbn; try reflexivity.
    destruct s, s'; reflexivity.
  - destruct x; reflexivity.
Qed.

Lemma add_nan_r x : add x S754_nan = S754_nan.
Proof. destruct x; reflexivity. Qed.

Lemma mul_feeRate_not_finite x :
  isFinite x = false →
  mul x feeRate = x.
Proof.
  rewrite feeRate_eq.
  destruct x as [s|s| |s m e]; try discriminate; intros _; [|reflexivity].
  destruct s; reflexivity.
Qed.

Lemma sub_self_not_finite x : isFinite x = false → sub x x = S754_nan.
Proof.
  destruct x as [s|s| |s m e]; try discriminate; intros _; [|reflexivity].
  destruct s; reflexivity.
Qed.

(** The fee branch on a balance that is not finite. *)
Lemma chargeFee_not_finite switch bal fees :
  isFinite bal = false →
  chargeFee switch bal fees
  = if switch then (bal, S754_nan, Number_toFixed8 (add fees bal))
    else (pos_zero, bal, fees).
Proof.
  intros Hb. destruct switch; [|reflexivity]. unfold chargeFee.
  rewrite (mul_feeRate_not_finite _ Hb), (Number_toFixed8_not_finite _ Hb).
  rewrite (sub_self_not_finite _ Hb). reflexivity.
Qed.

Lemma chargeFee_fees_not_finite switch bal fees :
  isFinite fees = false →
  isFinite (snd (chargeFee switch bal fees)) = false
  ∧ (fees = S754_nan → snd (chargeFee switch bal fees) = S754_nan).
Proof.
  intros Hf. destruct switch; cbn [chargeFee snd]; [|auto].
  destruct (add_not_finite_l fees (Number_toFixed8 (mul bal feeRate)) Hf)
    as [H1 H2].
  rewrite (Number_toFixed8_not_finite _ H1). split; [exact H1|exact H2].
Qed.

Lemma balanceOf_frame r srv j :
  acceptedInvestor r ≠ Some j →
  balanceOf j (fst (deposit (r_body r) (r_random r) (r_now r) srv))
  = balanceOf j srv.
Proof.
  intros H. unfold balanceOf. rewrite deposit_frame by assumption. reflexivity.
Qed.

Lemma balanceOf_lookupOrCreate srv investor b s :
  balanceOf investor srv = Some b →
  balance (lookupOrCreate srv investor s) = b.
Proof.
  unfold balanceOf, lookupOrCreate.
  destruct (investorStates srv !! investor); cbn; congruence.
Qed.

Lemma deposit_not_finite_step r srv investor b :
  balanceOf investor srv = Some b → isFinite b = false →
  ∃ b', balanceOf investor
          (fst (deposit (r_body r) (r_random r) (r_now r) srv)) = Some b'
        ∧ isFinite b' = false ∧ (b = S754_nan → b' = S754_nan).
Proof.
  intros Hb Hnf.
  destruct (acceptedFor investor r) eqn:Hacc.
  - apply acceptedFor_true in Hacc.
    destruct (deposit_applied r srv investor Hacc)
      as (s & d & _ & _ & Hst & _ & _ & Hc & _).
    rewrite (balanceOf_lookupOrCreate _ _ _ s Hb) in Hc.
    destruct (add_not_finite_l b (coerceAmount (r_body r)) Hnf) as [Hadd Hnan].
    rewrite chargeFee_not_finite in Hc by assumption.
    exists (newBalance d). unfold balanceOf. rewrite Hst, lookup_insert_eq.
    split; [reflexivity|].
    destruct (negb _); injection Hc as _ <- _; auto.
  - apply acceptedFor_false in Hacc.
    exists b. rewrite balanceOf_frame by assumption. auto.
Qed.

End NotFinite.

(** Property X8.  A balance that is [Infinity] or [NaN] never becomes finite
    again: whatever requests follow, the balance of that account stays
    [Infinity] or [NaN], and a [NaN] stays [NaN]. *)
Theorem balance_not_finite_is_permanent investor reqs srv b :
  balanceOf investor srv = Some b → isFinite b = false →
  ∃ b', balanceOf investor (fst (run reqs srv)) = Some b'
        ∧ isFinite b' = false ∧ (b = S754_nan → b' = S754_nan).
Proof.
  revert srv b. induction reqs as [|r reqs IH]; intros srv b Hb Hnf.
  - exists b. auto.
  - rewrite run_cons. cbn [fst].
    destruct (deposit_not_finite_step r srv investor b Hb Hnf)
      as (b1 & Hb1 & Hnf1 & Hnan1).
    destruct (IH _ b1 Hb1 Hnf1) as (b' & Hb' & Hnf' & Hnan').
    exists b'. auto.
Qed.

Lemma balance_not_finite_is_permanent_witness :
  let srv := fst (run overflowDeposits start) in
  let reqs := [ {| r_body := depositOf "inv1" "s1" (JNumber (num 100));
                   r_random := random_low; r_now := 3 |} ] in
  balanceOf "inv1" srv = Some S754_nan
  ∧ isFinite S754_nan = false
  ∧ ∃ b', balanceOf "inv1" (fst (run reqs srv)) = Some b'
          ∧ isFinite b' = false ∧ (S754_nan = S754_nan → b' = S754_nan).
Proof.
  intros srv reqs.
  assert (H1 : balanceOf "inv1" srv = Some S754_nan) by (vm_compute; reflexivity).
  assert (H2 : isFinite S754_nan = false) by reflexivity.
  split; [exact H1|]. split; [exact H2|].
  exact (balance_not_finite_is_permanent "inv1" reqs srv S754_nan H1 H2).
Defined.

(** Property X9.  The same holds of the platform fee total: once it is
    [Infinity] or [NaN] no request makes it finite again, and a [NaN] stays
    [NaN]. *)
Theorem fee_total_not_finite_is_permanent reqs srv :
  isFinite (platformTotalFees srv) = false →
  isFinite (platformTotalFees (fst (run reqs srv))) = false
  ∧ (platformTotalFees srv = S754_nan →
     platformTotalFees (fst (run reqs srv)) = S754_nan).
Proof.
  revert srv. induction reqs as [|r reqs IH]; intros srv Hnf; [auto|].
  rewrite run_cons. cbn [fst].
  assert (Hstep :
    isFinite (platformTotalFees
                (fst (deposit (r_body r) (r_random r) (r_now r) srv))) = false
    ∧ (platformTotalFees srv = S754_nan →
       platformTotalFees (fst (deposit (r_body r) (r_random r) (r_now r) srv))
       = S754_nan)).
  { destruct (acceptedInvestor r) as [i|] eqn:Hacc.
    - destruct (deposit_applied r srv i Hacc)
        as (s & d & _ & _ & _ & _ & Hf & Hc & _).
      rewrite Hf.
      pose proof (chargeFee_fees_not_finite
        (negb (Allocation_eqb (allocation (lookupOrCreate srv i s))
                              (decideAllocation (r_random r))))
        (add (balance (lookupOrCreate srv i s)) (coerceAmount (r_body r)))
        (platformTotalFees srv) Hnf) as H.
      rewrite Hc in H. exact H.
    - rewrite acceptedInvestor_None by assumption. auto. }
  destruct Hstep as [H1 H2]. destruct (IH _ H1) as [H3 H4]. auto.
Qed.

Lemma fee_total_not_finite_is_permanent_witness :
  let srv := fst (run overflowDeposits start) in
  let reqs := [ {| r_body := depositOf "inv2" "s1" (JNumber (num 100));
                   r_random := random_high; r_now := 3 |} ] in
  isFinite (platformTotalFees srv) = false
  ∧ isFinite (platformTotalFees (fst (run reqs srv))) = false
  ∧ (platformTotalFees srv = S754_nan →
     platformTotalFees (fst (run reqs srv)) = S754_nan).
Proof.
  intros srv reqs.
  assert (H1 : isFinite (platformTotalFees srv) = false) by (vm_compute; reflexivity).
  split; [exact H1|].
  exact (fee_total_not_finite_is_permanent reqs srv H1).
Defined.

(** Property X10.  A balance that is not finite spoils the fee total: the
    next accepted deposit to that account that switches the allocation is
    charged a fee of [Infinity] or [NaN], returns the balance [NaN], and
    leaves a platform fee total that is not finite. *)
Theorem balance_not_finite_spoils_fee_total r srv investor b :
  acceptedInvestor r = Some investor →
  balanceOf investor srv = Some b → isFinite b = false →
  decideAllocation (r_random r) ≠ currentAllocation investor srv →
  ∃ d, snd (deposit (r_body r) (r_random r) (r_now r) srv) = ok d
       ∧ isFinite (feeCharged d) = false
       ∧ newBalance d = S754_nan
       ∧ isFinite (platformTotalFees
                     (fst (deposit (r_body r) (r_random r) (r_now r) srv)))
         = false.
Proof.
  intros Hacc Hb Hnf Hsw.
  destruct (deposit_applied r srv investor Hacc)
    as (s & d & _ & Hd & _ & _ & Hf & Hc & _).
  exists d. split; [rewrite Hd; reflexivity|]. rewrite Hf.
  rewrite (balanceOf_lookupOrCreate _ _ _ s Hb) in Hc.
  destruct (add_not_finite_l b (coerceAmount (r_body r)) Hnf) as [Hadd _].
  rewrite chargeFee_not_finite in Hc by assumption.
  assert (Hne : negb (Allocation_eqb (allocation (lookupOrCreate srv investor s))
                        (decideAllocation (r_random r))) = true).
  { unfold currentAllocation in Hsw.
    rewrite (lookupOrCreate_allocation srv investor "" s) in Hsw.
    destruct (allocation (lookupOrCreate srv investor s)),
             (decideAllocation (r_random r)); try reflexivity; contradiction. }
  rewrite Hne in Hc. injection Hc as <- <- <-.
  split; [exact Hadd|]. split; [reflexivity|].
  rewrite Number_toFixed8_not_finite; apply add_not_finite_r; exact Hadd.
Qed.

Lemma balance_not_finite_spoils_fee_total_witness :
  let srv := fst (deposit (depositOf "inv1" "s1"
                             (JNumber (S754_finite false 9007199254740991 971)))
                    random_low 1 start) in
  let r := {| r_body := depositOf "inv1" "s1"
                          (JNumber (S754_finite false 9007199254740991 971));
              r_random := random_low; r_now := 2 |} in
  let srv1 := fst (deposit (r_body r) (r_random r) (r_now r) srv) in
  let r' := {| r_body := depositOf "inv1" "s1" (JNumber (num 1));
               r_random := random_high; r_now := 3 |} in
  acceptedInvestor r' = Some "inv1"%string
  ∧ balanceOf "inv1" srv1 = Some (S754_infinity false)
  ∧ isFinite (S754_infinity false) = false
  ∧ decideAllocation (r_random r') ≠ currentAllocation "inv1" srv1
  ∧ ∃ d, snd (deposit (r_body r') (r_random r') (r_now r') srv1) = ok d
         ∧ isFinite (feeCharged d) = false
         ∧ newBalance d = S754_nan
         ∧ isFinite (platformTotalFees
                       (fst (deposit (r_body r') (r_random r') (r_now r') srv1)))
           = false.
Proof.
  intros srv r srv1 r'.
  assert (H1 : acceptedInvestor r' = Some "inv1"%string) by (vm_compute; reflexivity).
  assert (H2 : balanceOf "inv1" srv1 = Some (S754_infinity false))
    by (vm_compute; reflexivity).
  assert (H3 : isFinite (S754_infinity false) = false) by reflexivity.
  assert (H4 : decideAllocation (r_random r') ≠ currentAllocation "inv1" srv1).
  { assert (E1 : decideAllocation (r_random r') = INVESTED) by (vm_compute; reflexivity).
    assert (E2 : currentAllocation "inv1" srv1 = STABLE) by (vm_compute; reflexivity).
    rewrite E1, E2. discriminate. }
  split; [exact H1|]. split; [exact H2|]. split; [exact H3|]. split; [exact H4|].
  exact (balance_not_finite_spoils_fee_total r' srv1 "inv1" (S754_infinity false)
           H1 H2 H3 H4).
Defined.

(* ===================================================================== *)
(** ** What a deposit does not depend on *)
(* ===================================================================== *)

(** Property X11.  Balances are pooled per investor.  Two requests of the
    same investor with the same amount, decided by the same draw, that name
    different strategies and assets and arrive at different times, are
    answered with the same balance, allocation, fee and fee total and leave
    the same balances; the account then carries the strategy that the
    request named. *)
Theorem balance_is_pooled_per_investor
    investor s1 s2 amount asset1 asset2 random now1 now2 srv :
  truthy (Some s1) = Some s1 → truthy (Some s2) = Some s2 →
  let r1 := deposit (Some {| body_investor := investor; body_strategyId := Some s1;
                             body_amount := amount; body_asset := asset1 |})
                    random now1 srv in
  let r2 := deposit (Some {| body_investor := investor; body_strategyId := Some s2;
                             body_amount := amount; body_asset := asset2 |})
                    random now2 srv in
  ledgerEntry <$> dataOf (snd r1) = ledgerEntry <$> dataOf (snd r2)
  ∧ (∀ i, balanceOf i (fst r1) = balanceOf i (fst r2))
  ∧ platformTotalFees (fst r1) = platformTotalFees (fst r2)
  ∧ (∀ d, dataOf (snd r2) = Some d →
          strategyId <$> investorStates (fst r2) !! d_investor d = Some s2).
Proof.
  intros Hs1 Hs2. cbv zeta.
  set (b1 := Some {| body_investor := investor; body_strategyId := Some s1;
                     body_amount := amount; body_asset := asset1 |}).
  set (b2 := Some {| body_investor := investor; body_strategyId := Some s2;
                     body_amount := amount; body_asset := asset2 |}).
  assert (Ha : coerceAmount b2 = coerceAmount b1) by reflexivity.
  assert (Hb : amountThrows b2 = amountThrows b1) by reflexivity.
  destruct (amountThrows b1) eqn:Ht.
  { rewrite (deposit_failed b1), (deposit_failed b2) by assumption.
    repeat split. intros d Hd. discriminate Hd. }
  destruct (truthy investor) as [i|] eqn:Hi.
  2:{ rewrite (deposit_rejected b1), (deposit_rejected b2)
        by (assumption || (left; exact Hi)).
      repeat split. intros d Hd. discriminate Hd. }
  destruct (acceptedAmount (coerceAmount b1)) eqn:Hacc.
  2:{ rewrite (deposit_rejected b1), (deposit_rejected b2)
        by (assumption || (right; right; rewrite ?Ha; exact Hacc)).
      repeat split. intros d Hd. discriminate Hd. }
  rewrite (deposit_accepted b1 _ _ _ i s1), (deposit_accepted b2 _ _ _ i s2)
    by (rewrite ?Ha; assumption).
  unfold applyDeposit. rewrite Ha.
  rewrite (lookupOrCreate_balance srv i s2 s1),
          (lookupOrCreate_allocation srv i s2 s1).
  destruct (chargeFee _ _ _) as [[fee bal'] fees'].
  cbn [fst snd dataOf payload ok fmap option_fmap option_map ledgerEntry
       d_investor newBalance d_allocation feeCharged d_platformTotalFees
       investorStates platformTotalFees].
  split; [reflexivity|]. split.
  - intros j. unfold balanceOf. cbn [investorStates].
    destruct (String.eqb_spec i j) as [->|Hne].
    + rewrite !lookup_insert_eq. reflexivity.
    + rewrite !lookup_insert_ne by assumption. reflexivity.
  - split; [reflexivity|]. intros d [= <-]. cbn [d_investor].
    rewrite lookup_insert_eq. reflexivity.
Qed.

Lemma balance_is_pooled_per_investor_witness :
  let srv := fst (deposit (depositOf "inv1" "grid-1" (JNumber (num 1000)))
                    random_low 1 start) in
  let r1 := deposit (Some {| body_investor := Some "inv1"%string;
                             body_strategyId := Some "grid-1"%string;
                             body_amount := JNumber (num 50);
                             body_asset := Some "XLM"%string |})
                    random_high 2 srv in
  let r2 := deposit (Some {| body_investor := Some "inv1"%string;
                             body_strategyId := Some "dca-2"%string;
                             body_amount := JNumber (num 50);
                             body_asset := Some "USDC"%string |})
                    random_high 3 srv in
  truthy (Some "grid-1"%string) = Some "grid-1"%string
  ∧ truthy (Some "dca-2"%string) = Some "dca-2"%string
  ∧ ledgerEntry <$> dataOf (snd r1) = ledgerEntry <$> dataOf (snd r2)
  ∧ (∀ i, balanceOf i (fst r1) = balanceOf i (fst r2))
  ∧ platformTotalFees (fst r1) = platformTotalFees (fst r2)
  ∧ (∀ d, dataOf (snd r2) = Some d →
          strategyId <$> investorStates (fst r2) !! d_investor d
          = Some "dca-2"%string).
Proof.
  cbv zeta.
  assert (H1 : truthy (Some "grid-1"%string) = Some "grid-1"%string) by reflexivity.
  assert (H2 : truthy (Some "dca-2"%string) = Some "dca-2"%string) by reflexivity.
  split; [exact H1|]. split; [exact H2|].
  exact (balance_is_pooled_per_investor (Some "inv1"%string) "grid-1" "dca-2"
           (JNumber (num 50)) (Some "XLM"%string) (Some "USDC"%string)
           random_high 2 3
           (fst (deposit (depositOf "inv1" "grid-1" (JNumber (num 1000)))
                   random_low 1 start)) H1 H2).
Defined.

(* ===================================================================== *)
(** ** Amounts that are not numbers *)
(* ===================================================================== *)

Lemma skip_white_blank l :
  Forall (λ c, is_StrWhiteSpaceChar c = true) l → skip_white l = [].
Proof.
  induction 1 as [|c l Hc _ IH]; [reflexivity|].
  cbn [skip_white]. rewrite Hc. exact IH.
Qed.

Lemma StringToNumber_blank s :
  Forall (λ c, is_StrWhiteSpaceChar c = true)
         (code_points (list_ascii_of_string s)) →
  StringToNumber s = pos_zero.
Proof.
  intros H. unfold StringToNumber, trim. rewrite (skip_white_blank _ H).
  reflexivity.
Qed.

(** Property X12.  The amount of a deposit may be any scalar of the JSON
    body.  [null], [false], the empty string and every string of white
    space, that is of characters of [StrWhiteSpaceChar] only, the
    no-break space, the line separators and the other space separators
    of Unicode among them, are coerced to [0] and the request is rejected
    with its state unchanged; [true] is coerced to [1], and the request
    is handled as the deposit of the number [1]. *)
Theorem amount_of_other_json_types investor strategyId asset random now srv :
  let body amount :=
    Some {| body_investor := investor; body_strategyId := strategyId;
            body_amount := amount; body_asset := asset |} in
  deposit (body JNull) random now srv = (srv, rejection)
  ∧ deposit (body (JBoolean false)) random now srv = (srv, rejection)
  ∧ (∀ s, Forall (λ c, is_StrWhiteSpaceChar c = true)
                 (code_points (list_ascii_of_string s)) →
          deposit (body (JString s)) random now srv = (srv, rejection))
  ∧ deposit (body (JBoolean true)) random now srv
    = deposit (body (JNumber (num 1))) random now srv.
Proof.
  cbv zeta.
  split; [apply deposit_rejected; [reflexivity|right; right; reflexivity]|].
  split; [apply deposit_rejected; [reflexivity|right; right; reflexivity]|].
  split; [|reflexivity].
  intros s Hs. apply deposit_rejected; [reflexivity|]. right; right.
  unfold coerceAmount. cbn [from_option body_amount nullish ToNumber].
  rewrite StringToNumber_blank by assumption. reflexivity.
Qed.

(* ===================================================================== *)
(** ** The quote endpoint *)
(* ===================================================================== *)

(** Property X13.  The quote handler does not validate the amount.  When
    the amount of the request is missing, [null], [0], [NaN], [false] or
    the empty string, the quote is made for [100]: the input amount
    reported is [100], the fee is [0.3] and the minimum received is [99],
    whatever is drawn. *)
Theorem quote_defaults_to_100 b random1 random2 now :
  ToBoolean (q_amount b) = false →
  ∃ q, quote (Some b) random1 random2 now = Some q
       ∧ inputAmount q = JNumber (num 100)
       ∧ fee q = of_decimal false 3 (-1)
       ∧ minimumReceived q = num 99
       ∧ outputAmount q = mul (num 100) (mockPrice random1)
       ∧ price q = mockPrice random2.
Proof.
  intros H. unfold quote, or_else. rewrite H. cbn [throws].
  eexists. split; [reflexivity|].
  cbn [inputAmount fee minimumReceived outputAmount price ToNumber].
  split; [vm_compute; reflexivity|].
  split; [vm_compute; reflexivity|].
  split; [vm_compute; reflexivity|].
  split; reflexivity.
Qed.

Lemma quote_defaults_to_100_witness :
  let b := {| q_pair := JUndefined; q_side := JString "SELL";
              q_amount := JNumber pos_zero |} in
  ToBoolean (q_amount b) = false
  ∧ ∃ q, quote (Some b) random_low random_high 1 = Some q
         ∧ inputAmount q = JNumber (num 100)
         ∧ fee q = of_decimal false 3 (-1)
         ∧ minimumReceived q = num 99
         ∧ outputAmount q = mul (num 100) (mockPrice random_low)
         ∧ price q = mockPrice random_high.
Proof.
  cbv zeta.
  assert (H : ToBoolean (q_amount {| q_pair := JUndefined; q_side := JString "SELL";
                                     q_amount := JNumber pos_zero |}) = false)
    by reflexivity.
  split; [exact H|].
  exact (quote_defaults_to_100 _ random_low random_high 1 H).
Defined.

(* ===================================================================== *)
(** ** The text between toFixed and Number *)
(* ===================================================================== *)

(** Property X14.  [Number(x.toFixed(8))] loses nothing in the text:
    printing [x] with eight decimals and reading the text back gives the
    number nearest to [n / 10^8], where [n] is the integer that [toFixed]
    chose for [x]; a zero comes back as [+0], and [NaN] and the infinities
    come back as themselves. *)
Theorem Number_toFixed8_reads_back x :
  Number_toFixed8 x =
    match x with
    | S754_finite s m e =>
        if ge_1e21 m e then x else of_decimal s (toFixed8_n m e) (-8)
    | S754_zero _ => pos_zero
    | S754_infinity _ | S754_nan => x
    end.
Proof. exact (Number_toFixed8_nearest8 x). Qed.

(* ===================================================================== *)
(** ** The order of binary64 values *)
(* ===================================================================== *)

Section Order.

Lemma pow2_pos k : 0 <= k → 0 < 2 ^ k.
Proof. intros. apply Z.pow_pos_nonneg; lia. Qed.

Lemma pow2_le a b : 0 <= a <= b → 2 ^ a <= 2 ^ b.
Proof. intros. apply Z.pow_le_mono_r; lia. Qed.

Lemma pow2_lt_inv a b : 0 <= b → 2 ^ a < 2 ^ b → a < b.
Proof. intros Hb H. apply (Z.pow_lt_mono_r_iff 2); lia. Qed.

Lemma pow2_split a b : 0 <= a → 0 <= b → 2 ^ (a + b) = 2 ^ a * 2 ^ b.
Proof. intros. apply Z.pow_add_r; assumption. Qed.

Lemma Zdigits2_gt m k : 0 <= k → 2 ^ k <= m → k < Zdigits2 m.
Proof.
  intros Hk Hm. pose proof (pow2_pos k Hk).
  pose proof (Zdigits2_upper m ltac:(lia)).
  apply pow2_lt_inv; [apply Zdigits2_nonneg|lia].
Qed.

(** The mantissa of a binary64 value has at most 53 bits, and exactly 53
    above the smallest exponent. *)
Lemma canonical_bounds m e :
  canonical_mantissa prec emax m e = true →
  -1074 <= e ∧ Zpos m < 2 ^ 53 ∧ (-1074 < e → 2 ^ 52 <= Zpos m)
  ∧ fexp64 (Zdigits2 (Zpos m) + e) = e.
Proof.
  unfold canonical_mantissa. intros H. apply Z.eqb_eq in H.
  change (Zpos (digits2_pos m)) with (Zdigits2 (Zpos m)) in H.
  pose proof (Zdigits2_upper (Zpos m) ltac:(lia)) as Hu.
  pose proof (Zdigits2_lower (Zpos m) ltac:(lia)) as Hl.
  pose proof (Zdigits2_nonneg (Zpos m)) as Hn.
  fold (fexp64 (Zdigits2 (Zpos m) + e)) in H. rewrite fexp64_eq in *.
  split; [lia|]. split; [|split; [|exact H]].
  - assert (2 ^ Zdigits2 (Zpos m) <= 2 ^ 53) by (apply pow2_le; lia). lia.
  - intros He. replace (Zdigits2 (Zpos m)) with 53 in Hl by lia. exact Hl.
Qed.

Lemma valid_binary_finite s m e :
  valid_binary prec emax (S754_finite s m e) = true →
  canonical_mantissa prec emax m e = true ∧ e <= 971.
Proof.
  cbn [valid_binary]. unfold bounded. intros H.
  apply andb_true_iff in H as [H1 H2]. apply Z.leb_le in H2.
  split; [exact H1|]. unfold emax, prec in H2. lia.
Qed.

Lemma le_pos m1 e1 m2 e2 :
  le (S754_finite false m1 e1) (S754_finite false m2 e2) = true
  ↔ e1 < e2 ∨ (e1 = e2 ∧ Zpos m1 <= Zpos m2).
Proof.
  unfold le, SFleb, SFcompare.
  change (Pos.compare_cont Eq m1 m2) with (Pos.compare m1 m2).
  destruct (Z.compare_spec e1 e2); [|intuition lia|intuition (lia || discriminate)].
  destruct (Pos.compare_spec m1 m2); intuition (lia || discriminate).
Qed.

Lemma lt_pos m1 e1 m2 e2 :
  lt (S754_finite false m1 e1) (S754_finite false m2 e2) = true
  ↔ e1 < e2 ∨ (e1 = e2 ∧ Zpos m1 < Zpos m2).
Proof.
  unfold lt, SFltb, SFcompare.
  change (Pos.compare_cont Eq m1 m2) with (Pos.compare m1 m2).
  destruct (Z.compare_spec e1 e2); [|intuition lia|intuition (lia || discriminate)].
  destruct (Pos.compare_spec m1 m2); intuition (lia || discriminate).
Qed.

(** *** Shifts that lose nothing *)

Lemma divide_pow2_low a b m :
  0 <= a → 0 <= b → (2 ^ (a + b) | m) → (2 ^ a | m).
Proof.
  intros Ha Hb [k Hk]. exists (k * 2 ^ b). rewrite Hk, pow2_split by assumption. ring.
Qed.

Lemma divide_pow2_div a b m :
  0 <= a → 0 <= b → (2 ^ (a + b) | m) → (2 ^ b | m / 2 ^ a).
Proof.
  intros Ha Hb [k Hk]. exists k. rewrite Hk, pow2_split by assumption.
  replace (k * (2 ^ a * 2 ^ b)) with (k * 2 ^ b * 2 ^ a) by ring.
  apply Z.div_mul. pose proof (pow2_pos a Ha). lia.
Qed.

Lemma shr_1_exact mrs :
  0 <= shr_m mrs → shr_r mrs = false → shr_s mrs = false → (2 | shr_m mrs) →
  shr_r (shr_1 mrs) = false ∧ shr_s (shr_1 mrs) = false.
Proof.
  destruct mrs as [m r s]. cbn [shr_m shr_r shr_s]. intros Hm -> -> [k Hk].
  destruct m as [|p|p]; [split; reflexivity| |lia].
  destruct p as [p|p|]; cbn; [lia|split; reflexivity|lia].
Qed.

Lemma iter_shr_1_exact p : ∀ mrs,
  0 <= shr_m mrs → shr_r mrs = false → shr_s mrs = false →
  (2 ^ Zpos p | shr_m mrs) →
  shr_r (SpecFloat.iter_pos shr_1 p mrs) = false
  ∧ shr_s (SpecFloat.iter_pos shr_1 p mrs) = false.
Proof.
  induction p as [p IH|p IH|]; intros mrs Hm Hr Hs Hd; cbn [SpecFloat.iter_pos].
  - replace (Zpos p~1) with (1 + (Zpos p + Zpos p)) in Hd by lia.
    assert (H2 : (2 | shr_m mrs)).
    { change 2 with (2 ^ 1) at 1.
      apply (divide_pow2_low 1 (Zpos p + Zpos p)); [lia|lia|exact Hd]. }
    destruct (shr_1_exact mrs Hm Hr Hs H2) as [Hr1 Hs1].
    pose proof (shr_1_nonneg mrs Hm) as Hm1.
    assert (Hd1 : (2 ^ (Zpos p + Zpos p) | shr_m (shr_1 mrs))).
    { rewrite shr_1_m by assumption. change 2 with (2 ^ 1) at 2.
      apply divide_pow2_div; [lia|lia|exact Hd]. }
    destruct (IH (shr_1 mrs) Hm1 Hr1 Hs1
                (divide_pow2_low (Zpos p) (Zpos p) _ ltac:(lia) ltac:(lia) Hd1)) as [Hr2 Hs2].
    apply IH; [|assumption|assumption|].
    + rewrite iter_shr_1_m by assumption. apply Z.div_pos; [lia|apply pow2_pos; lia].
    + rewrite iter_shr_1_m by assumption.
      apply divide_pow2_div; [lia|lia|exact Hd1].
  - replace (Zpos p~0) with (Zpos p + Zpos p) in Hd by lia.
    destruct (IH mrs Hm Hr Hs
                (divide_pow2_low (Zpos p) (Zpos p) _ ltac:(lia) ltac:(lia) Hd)) as [Hr2 Hs2].
    apply IH; [|assumption|assumption|].
    + rewrite iter_shr_1_m by assumption. apply Z.div_pos; [lia|apply pow2_pos; lia].
    + rewrite iter_shr_1_m by assumption.
      apply divide_pow2_div; [lia|lia|exact Hd].
  - apply shr_1_exact; assumption.
Qed.

Lemma shr_fexp_exact m e :
  0 <= m →
  (2 ^ Z.max 0 (fexp64 (Zdigits2 m + e) - e) | m) →
  loc_of_shr_record (fst (shr_fexp prec emax m e loc_Exact)) = loc_Exact.
Proof.
  intros Hm Hd. unfold shr_fexp, fexp64 in *.
  destruct (fexp prec emax (Zdigits2 m + e) - e) as [|p|p]; cbn [shr fst];
    try reflexivity.
  rewrite Z.max_r in Hd by lia.
  destruct (iter_shr_1_exact p (shr_record_of_loc m loc_Exact)) as [Hr Hs];
    try assumption; try reflexivity.
  destruct (SpecFloat.iter_pos shr_1 p _) as [m' r s]. cbn in Hr, Hs. subst.
  reflexivity.
Qed.

(** The two steps of [binary_round_aux], with the first mantissa exact
    when the shift loses no bit. *)
Lemma binary_round_aux_steps s mx ex lx :
  0 <= mx →
  let n1 := Z.max 0 (fexp64 (Zdigits2 mx + ex) - ex) in
  let e1 := ex + n1 in
  ∃ m2, mx / 2 ^ n1 <= m2 <= mx / 2 ^ n1 + 1
    ∧ (lx = loc_Exact → (2 ^ n1 | mx) → m2 = mx / 2 ^ n1)
    ∧ let n2 := Z.max 0 (fexp64 (Zdigits2 m2 + e1) - e1) in
      binary_round_aux prec emax s mx ex lx =
        match m2 / 2 ^ n2 with
        | Z0 => S754_zero s
        | Zpos m => if e1 + n2 <=? emax - prec
                    then S754_finite s m (e1 + n2) else S754_infinity s
        | Zneg _ => S754_nan
        end.
Proof.
  intros Hm n1 e1. unfold binary_round_aux.
  destruct (shr_fexp_spec mx ex lx Hm) as [Hm1 He1].
  pose proof (shr_fexp_exact mx ex Hm) as Hex.
  destruct (shr_fexp prec emax mx ex lx) as [mrs' e'] eqn:Hshr.
  cbn [fst snd] in Hm1, He1. fold n1 in Hm1, He1, Hex. fold e1 in He1. subst e'.
  set (m2 := round_nearest_even (shr_m mrs') (loc_of_shr_record mrs')).
  exists m2.
  pose proof (round_nearest_even_bounds (shr_m mrs') (loc_of_shr_record mrs')) as Hb.
  fold m2 in Hb. rewrite Hm1 in Hb. split; [exact Hb|].
  split.
  { intros -> Hdiv. rewrite Hshr in Hex. cbn [fst] in Hex.
    unfold m2. rewrite (Hex Hdiv). cbn [round_nearest_even]. exact Hm1. }
  assert (Hm2 : 0 <= m2).
  { assert (0 <= mx / 2 ^ n1) by (apply Z.div_pos; lia). lia. }
  cbv zeta. set (n2 := Z.max 0 (fexp64 (Zdigits2 m2 + e1) - e1)).
  destruct (shr_fexp_spec m2 e1 loc_Exact Hm2) as [Hm3 He3].
  destruct (shr_fexp prec emax m2 e1 loc_Exact) as [mrs'' e''].
  cbn [fst snd] in Hm3, He3. fold n2 in Hm3, He3. subst e''.
  rewrite Hm3. reflexivity.
Qed.

End Order.

(* ===================================================================== *)
(** ** Rounding a normalised mantissa *)
(* ===================================================================== *)

Section Normalised.

Lemma Zdigits2_unique m k : 0 < m → 2 ^ (k - 1) <= m < 2 ^ k → Zdigits2 m = k.
Proof.
  intros Hm [Hl Hu].
  assert (Hk : 0 < k).
  { destruct k as [|p|p]; [|lia|].
    - change (2 ^ 0) with 1 in Hu. lia.
    - rewrite Z.pow_neg_r in Hu by lia. lia. }
  pose proof (Zdigits2_le m k ltac:(lia) ltac:(lia) Hu).
  pose proof (Zdigits2_gt m (k - 1) ltac:(lia) Hl). lia.
Qed.

Lemma Zdigits2_shift m k :
  0 < m → 0 <= k → Zdigits2 (m * 2 ^ k) = Zdigits2 m + k.
Proof.
  intros Hm Hk.
  pose proof (Zdigits2_lower m Hm) as Hl.
  pose proof (Zdigits2_upper m ltac:(lia)) as Hu.
  pose proof (Zdigits2_gt m 0 ltac:(lia) ltac:(change (2 ^ 0) with 1; lia)) as Hd.
  pose proof (pow2_pos k Hk) as Hp.
  apply Zdigits2_unique; [nia|].
  replace (Zdigits2 m + k - 1) with ((Zdigits2 m - 1) + k) by lia.
  rewrite !pow2_split by lia. nia.
Qed.

(** The result of rounding [mx * 2^ex] when the mantissa has at least
    the bits that the format keeps. *)
Lemma binary_round_aux_normal s mx ex lx :
  0 < mx →
  ex <= fexp64 (Zdigits2 mx + ex) →
  let e1 := fexp64 (Zdigits2 mx + ex) in
  let m1 := mx / 2 ^ (e1 - ex) in
  ∃ m2, m1 <= m2 <= m1 + 1
    ∧ (lx = loc_Exact → (2 ^ (e1 - ex) | mx) → m2 = m1)
    ∧ m2 <= 2 ^ 53
    ∧ (-1074 < e1 → 2 ^ 52 <= m1)
    ∧ -1074 <= e1
    ∧ binary_round_aux prec emax s mx ex lx =
        if m2 =? 0 then S754_zero s
        else if m2 <? 2 ^ 53
             then if e1 <=? 971 then S754_finite s (Z.to_pos m2) e1
                  else S754_infinity s
             else if e1 + 1 <=? 971
                  then S754_finite s (Z.to_pos (2 ^ 52)) (e1 + 1)
                  else S754_infinity s.
Proof.
  intros Hmx Hpre e1 m1.
  destruct (binary_round_aux_steps s mx ex lx ltac:(lia)) as (m2 & Hm2 & Hex & Hres).
  set (d := Zdigits2 mx) in *.
  assert (Hn1 : Z.max 0 (fexp64 (d + ex) - ex) = e1 - ex) by (unfold e1; lia).
  rewrite Hn1 in *. fold m1 in Hm2, Hex.
  replace (ex + (e1 - ex)) with e1 in Hres by lia.
  pose proof (Zdigits2_upper mx ltac:(lia)) as Hu. fold d in Hu.
  pose proof (Zdigits2_lower mx Hmx) as Hl. fold d in Hl.
  pose proof (Zdigits2_gt mx 0 ltac:(lia) ltac:(change (2 ^ 0) with 1; lia)) as Hd.
  fold d in Hd.
  assert (He1 : e1 = Z.max (d + ex - 53) (-1074)) by reflexivity.
  assert (Hm1u : m1 < 2 ^ 53).
  { unfold m1.
    destruct (Z_le_gt_dec (e1 - ex) d) as [Hle|Hgt].
    - pose proof (div_pow2_lt mx d (e1 - ex) ltac:(lia) ltac:(lia)) as H.
      assert (2 ^ (d - (e1 - ex)) <= 2 ^ 53) by (apply pow2_le; lia). lia.
    - rewrite (div_pow2_small mx d (e1 - ex)) by lia. reflexivity. }
  assert (Hm1l : -1074 < e1 → 2 ^ 52 <= m1).
  { intros Hn. assert (Hs : e1 - ex = d - 53) by lia. unfold m1. rewrite Hs.
    apply Z.div_le_lower_bound; [apply pow2_pos; lia|].
    rewrite Z.mul_comm, <- pow2_split by lia.
    replace (52 + (d - 53)) with (d - 1) by lia. exact Hl. }
  assert (Hm1n : 0 <= m1) by (apply Z.div_pos; [lia|apply pow2_pos; lia]).
  exists m2. split; [exact Hm2|]. split; [exact Hex|].
  split; [lia|]. split; [exact Hm1l|]. split; [lia|].
  rewrite Hres.
  destruct (Z.eqb_spec m2 0) as [->|Hne].
  { cbn. rewrite Z.div_0_l; [reflexivity|]. apply Z.pow_nonzero; lia. }
  destruct (Z.ltb_spec m2 (2 ^ 53)) as [Hlt|Hge].
  - assert (Hd2 : Zdigits2 m2 <= 53) by (apply Zdigits2_le; lia).
    assert (Hn2 : Z.max 0 (fexp64 (Zdigits2 m2 + e1) - e1) = 0)
      by (rewrite fexp64_eq; lia).
    rewrite Hn2, Z.div_1_r, Z.add_0_r.
    destruct m2 as [|p|p]; [lia| |lia]. reflexivity.
  - assert (Hm2e : m2 = 2 ^ 53) by lia.
    assert (Hd2 : Zdigits2 m2 = 54) by (rewrite Hm2e; reflexivity).
    assert (Hn2 : Z.max 0 (fexp64 (Zdigits2 m2 + e1) - e1) = 1)
      by (rewrite Hd2, fexp64_eq; lia).
    rewrite Hn2, Hm2e. reflexivity.
Qed.

(** The result is a binary64 value. *)
Lemma binary_round_aux_valid s mx ex lx :
  0 < mx → ex <= fexp64 (Zdigits2 mx + ex) →
  valid_binary prec emax (binary_round_aux prec emax s mx ex lx) = true.
Proof.
  intros Hmx Hpre.
  destruct (binary_round_aux_normal s mx ex lx Hmx Hpre)
    as (m2 & Hm2 & _ & Hu & Hl & Hmin & ->).
  set (e1 := fexp64 (Zdigits2 mx + ex)) in *.
  destruct (Z.eqb_spec m2 0); [reflexivity|].
  destruct (Z.ltb_spec m2 (2 ^ 53)) as [Hlt|Hge].
  - destruct (Z.leb_spec e1 971) as [He|He]; [|reflexivity].
    cbn [valid_binary]. unfold bounded. apply andb_true_iff. split.
    + unfold canonical_mantissa. apply Z.eqb_eq.
      assert (H0 : 0 <= mx / 2 ^ (e1 - ex))
        by (apply Z.div_pos; [lia|apply pow2_pos; lia]).
      assert (Hp : Zpos (Z.to_pos m2) = m2) by (apply Z2Pos.id; lia).
      change (Zpos (digits2_pos (Z.to_pos m2))) with (Zdigits2 (Zpos (Z.to_pos m2))).
      rewrite Hp. fold (fexp64 (Zdigits2 m2 + e1)). rewrite fexp64_eq.
      assert (Hd2 : Zdigits2 m2 <= 53) by (apply Zdigits2_le; lia).
      destruct (Z.eq_dec e1 (-1074)) as [E|E]; [lia|].
      assert (52 < Zdigits2 m2) by (apply Zdigits2_gt; lia). lia.
    + apply Z.leb_le. unfold emax, prec. lia.
  - destruct (Z.leb_spec (e1 + 1) 971) as [He|He]; [|reflexivity].
    cbn [valid_binary]. unfold bounded. apply andb_true_iff. split.
    + unfold canonical_mantissa. apply Z.eqb_eq.
      change (Zpos (digits2_pos (Z.to_pos (2 ^ 52)))) with 53.
      fold (fexp64 (53 + (e1 + 1))). rewrite fexp64_eq. lia.
    + apply Z.leb_le. unfold emax, prec. lia.
Qed.

(** Rounding is monotone against values of the format, from below... *)
Lemma binary_round_aux_ge mx ex lx mc ec :
  0 < mx → ex <= fexp64 (Zdigits2 mx + ex) →
  canonical_mantissa prec emax mc ec = true →
  ex <= ec → Zpos mc * 2 ^ (ec - ex) <= mx →
  le (S754_finite false mc ec) (binary_round_aux prec emax false mx ex lx) = true.
Proof.
  intros Hmx Hpre Hc Hec Hle.
  destruct (binary_round_aux_normal false mx ex lx Hmx Hpre)
    as (m2 & Hm2 & _ & Hu & Hl & Hmin & ->).
  destruct (canonical_bounds mc ec Hc) as (Hcmin & Hcu & Hcl & Hcf).
  set (d := Zdigits2 mx) in *. set (dc := Zdigits2 (Zpos mc)) in *.
  set (e1 := fexp64 (d + ex)) in *.
  pose proof (Zdigits2_upper mx ltac:(lia)) as Hdu. fold d in Hdu.
  pose proof (Zdigits2_lower (Zpos mc) ltac:(lia)) as Hdcl. fold dc in Hdcl.
  pose proof (Zdigits2_gt (Zpos mc) 0 ltac:(lia) ltac:(change (2 ^ 0) with 1; lia))
    as Hdc0. fold dc in Hdc0.
  (* the exponent of [c] is not above that of the result *)
  assert (Hmag : dc + ec <= d + ex).
  { assert (H : 2 ^ (dc - 1 + (ec - ex)) < 2 ^ d).
    { rewrite pow2_split by lia. pose proof (pow2_pos (ec - ex) ltac:(lia)). nia. }
    apply pow2_lt_inv in H; [lia|apply Zdigits2_nonneg]. }
  assert (Hee : ec <= e1).
  { unfold e1. rewrite fexp64_eq in *. lia. }
  destruct (Z.eq_dec ec e1) as [Heq|Hne].
  - (* same exponent *)
    assert (Hm1 : Zpos mc <= mx / 2 ^ (e1 - ex)).
    { apply Z.div_le_lower_bound; [apply pow2_pos; lia|].
      rewrite Z.mul_comm, <- Heq. exact Hle. }
    destruct (Z.eqb_spec m2 0); [lia|].
    destruct (Z.ltb_spec m2 (2 ^ 53)).
    + destruct (Z.leb_spec e1 971); [|reflexivity].
      apply le_pos. right. split; [exact Heq|]. rewrite Z2Pos.id by lia. lia.
    + destruct (Z.leb_spec (e1 + 1) 971); [|reflexivity].
      apply le_pos. left. lia.
  - assert (H52 : 2 ^ 52 <= mx / 2 ^ (e1 - ex)) by (apply Hl; lia).
    assert (0 < 2 ^ 52) by reflexivity.
    destruct (Z.eqb_spec m2 0); [lia|].
    destruct (Z.ltb_spec m2 (2 ^ 53)).
    + destruct (Z.leb_spec e1 971); [|reflexivity].
      apply le_pos. left. lia.
    + destruct (Z.leb_spec (e1 + 1) 971); [|reflexivity].
      apply le_pos. left. lia.
Qed.

(** ... and from above, when no bit was lost before. *)
Lemma binary_round_aux_le mx ex mc ec :
  0 < mx → ex <= fexp64 (Zdigits2 mx + ex) →
  canonical_mantissa prec emax mc ec = true → ec <= 971 →
  ex <= ec → mx <= Zpos mc * 2 ^ (ec - ex) →
  le (binary_round_aux prec emax false mx ex loc_Exact) (S754_finite false mc ec)
  = true.
Proof.
  intros Hmx Hpre Hc Hcmax Hec Hle.
  destruct (binary_round_aux_normal false mx ex loc_Exact Hmx Hpre)
    as (m2 & Hm2 & Hex & Hu & Hl & Hmin & ->).
  specialize (Hex eq_refl).
  destruct (canonical_bounds mc ec Hc) as (Hcmin & Hcu & Hcl & Hcf).
  set (d := Zdigits2 mx) in *. set (dc := Zdigits2 (Zpos mc)) in *.
  set (e1 := fexp64 (d + ex)) in *.
  pose proof (Zdigits2_lower mx Hmx) as Hdl. fold d in Hdl.
  pose proof (Zdigits2_upper (Zpos mc) ltac:(lia)) as Hdcu. fold dc in Hdcu.
  pose proof (Zdigits2_gt mx 0 ltac:(lia) ltac:(change (2 ^ 0) with 1; lia))
    as Hd0. fold d in Hd0.
  pose proof (Zdigits2_nonneg (Zpos mc)) as Hdc0. fold dc in Hdc0.
  assert (Hmag : d + ex <= dc + ec).
  { assert (H : 2 ^ (d - 1) < 2 ^ (dc + (ec - ex))).
    { rewrite pow2_split by lia. pose proof (pow2_pos (ec - ex) ltac:(lia)). nia. }
    apply pow2_lt_inv in H; lia. }
  assert (Hee : e1 <= ec).
  { unfold e1. rewrite fexp64_eq in *. lia. }
  assert (H0 : 0 <= mx / 2 ^ (e1 - ex))
    by (apply Z.div_pos; [lia|apply pow2_pos; lia]).
  destruct (Z.eqb_spec m2 0) as [|Hnz]; [reflexivity|].
  destruct (Z.eq_dec e1 ec) as [Heq|Hne].
  - (* same exponent: the mantissa is at most the one of [c] *)
    assert (Hm2c : m2 <= Zpos mc).
    { rewrite <- Heq in Hle.
      pose proof (pow2_pos (e1 - ex) ltac:(lia)) as Hp.
      destruct (Z.eq_dec (mx mod 2 ^ (e1 - ex)) 0) as [Hz|Hz].
      - rewrite Hex by (apply Z.mod_divide; [lia|exact Hz]).
        apply Z.div_le_upper_bound; [lia|]. rewrite Z.mul_comm. exact Hle.
      - assert (mx / 2 ^ (e1 - ex) < Zpos mc); [|lia].
        apply Z.div_lt_upper_bound; [lia|]. rewrite Z.mul_comm.
        destruct (Z.eq_dec mx (Zpos mc * 2 ^ (e1 - ex))) as [E|E]; [|lia].
        exfalso. apply Hz. rewrite E. apply Z.mod_mul. lia. }
    destruct (Z.ltb_spec m2 (2 ^ 53)); [|lia].
    destruct (Z.leb_spec e1 971); [|lia].
    apply le_pos. right. split; [exact Heq|]. rewrite Z2Pos.id by lia. exact Hm2c.
  - destruct (Z.ltb_spec m2 (2 ^ 53)).
    + destruct (Z.leb_spec e1 971); [|lia].
      apply le_pos. left. lia.
    + destruct (Z.leb_spec (e1 + 1) 971); [|lia].
      apply le_pos. rewrite Z2Pos.id by reflexivity.
      destruct (Z.eq_dec (e1 + 1) ec) as [E|E]; [right|left; lia].
      split; [exact E|]. apply Hcl. lia.
Qed.

(** [binary_round] first aligns the mantissa. *)
Lemma binary_round_unfold s m e :
  ∃ mz ez,
    binary_round prec emax s m e
    = binary_round_aux prec emax s (Zpos mz) ez loc_Exact
    ∧ ez <= e ∧ Zpos mz = Zpos m * 2 ^ (e - ez)
    ∧ ez <= fexp64 (Zdigits2 (Zpos mz) + ez)
    ∧ (-1074 <= e → -1074 <= ez).
Proof.
  unfold binary_round.
  change (Zpos (digits2_pos m)) with (Zdigits2 (Zpos m)).
  fold (fexp64 (Zdigits2 (Zpos m) + e)).
  set (f := fexp64 (Zdigits2 (Zpos m) + e)).
  destruct (Z_le_gt_dec e f) as [Hle|Hgt].
  - exists m, e. unfold shl_align.
    destruct (f - e) as [|p|p] eqn:Hd; try lia.
    + split; [reflexivity|]. rewrite Z.sub_diag. fold f. repeat split; lia.
    + split; [reflexivity|]. rewrite Z.sub_diag. fold f. repeat split; lia.
  - destruct (shl_align_spec m e f ltac:(lia)) as [Hm He].
    destruct (shl_align m e f) as [mz ez]. cbn [fst snd] in Hm, He. subst ez.
    exists mz, f. split; [reflexivity|]. split; [lia|]. split; [exact Hm|].
    rewrite Hm, Zdigits2_shift by lia.
    replace (Zdigits2 (Zpos m) + (e - f) + f) with (Zdigits2 (Zpos m) + e) by lia.
    fold f. split; [lia|]. unfold f. rewrite fexp64_eq. lia.
Qed.

Lemma binary_round_valid s m e :
  valid_binary prec emax (binary_round prec emax s m e) = true.
Proof.
  destruct (binary_round_unfold s m e) as (mz & ez & -> & _ & _ & Hpre & _).
  apply binary_round_aux_valid; [lia|exact Hpre].
Qed.

(** A positive quantity at an exponent of the format does not round to
    zero. *)
Lemma binary_round_positive m e :
  -1074 <= e →
  gt (binary_round prec emax false m e) pos_zero = true.
Proof.
  intros He.
  destruct (binary_round_unfold false m e) as (mz & ez & -> & _ & _ & Hpre & Hmin).
  specialize (Hmin He).
  destruct (binary_round_aux_normal false (Zpos mz) ez loc_Exact ltac:(lia) Hpre)
    as (m2 & Hm2 & _ & Hu & Hl & _ & ->).
  set (e1 := fexp64 (Zdigits2 (Zpos mz) + ez)) in *.
  assert (H1 : 1 <= Zpos mz / 2 ^ (e1 - ez)).
  { destruct (Z.eq_dec e1 (-1074)) as [E|E].
    - replace (e1 - ez) with 0 by lia. rewrite Z.div_1_r. lia.
    - assert (0 < 2 ^ 52) by reflexivity.
      assert (-1074 <= e1) by (unfold e1; rewrite fexp64_eq; lia).
      specialize (Hl ltac:(lia)). lia. }
  destruct (Z.eqb_spec m2 0); [lia|].
  destruct (Z.ltb_spec m2 (2 ^ 53)).
  - destruct (e1 <=? 971); reflexivity.
  - destruct (e1 + 1 <=? 971); reflexivity.
Qed.

End Normalised.

(* ===================================================================== *)
(** ** Sums and products against values of the format *)
(* ===================================================================== *)

Section Monotone.

Lemma le_refl_finite m e : le (S754_finite false m e) (S754_finite false m e) = true.
Proof. apply le_pos. right. split; lia. Qed.

Lemma add_finite_unfold mx ex my ey :
  ∃ mz ez,
    add (S754_finite false mx ex) (S754_finite false my ey)
    = binary_round_aux prec emax false (Zpos mz) ez loc_Exact
    ∧ ez <= Z.min ex ey
    ∧ Zpos mz = (Zpos mx * 2 ^ (ex - Z.min ex ey)
                 + Zpos my * 2 ^ (ey - Z.min ex ey)) * 2 ^ (Z.min ex ey - ez)
    ∧ ez <= fexp64 (Zdigits2 (Zpos mz) + ez).
Proof.
  unfold add. cbn [SFadd cond_Zopp].
  set (e := Z.min ex ey).
  destruct (shl_align_spec mx ex e ltac:(lia)) as [Hx _].
  destruct (shl_align_spec my ey e ltac:(lia)) as [Hy _].
  rewrite <- Hx, <- Hy.
  change (Zpos (fst (shl_align mx ex e)) + Zpos (fst (shl_align my ey e)))
    with (Zpos (fst (shl_align mx ex e) + fst (shl_align my ey e))).
  cbn [binary_normalize].
  destruct (binary_round_unfold false
              (fst (shl_align mx ex e) + fst (shl_align my ey e)) e)
    as (mz & ez & Hr & Hez & Hmz & Hpre & _).
  exists mz, ez. split; [exact Hr|]. split; [exact Hez|]. split; [|exact Hpre].
  rewrite Hmz, Pos2Z.inj_add. reflexivity.
Qed.

(** A sum of two positive values is at least each of them. *)
Lemma add_ge_l mx ex my ey :
  canonical_mantissa prec emax mx ex = true →
  le (S754_finite false mx ex)
     (add (S754_finite false mx ex) (S754_finite false my ey)) = true.
Proof.
  intros Hc.
  destruct (add_finite_unfold mx ex my ey) as (mz & ez & -> & Hez & Hmz & Hpre).
  apply binary_round_aux_ge; [lia|exact Hpre|exact Hc|lia|].
  rewrite Hmz. set (e := Z.min ex ey) in *.
  replace (ex - ez) with ((ex - e) + (e - ez)) by lia.
  rewrite pow2_split by lia.
  pose proof (pow2_pos (e - ez) ltac:(lia)).
  pose proof (pow2_pos (ex - e) ltac:(lia)).
  pose proof (pow2_pos (ey - e) ltac:(lia)). nia.
Qed.

Lemma add_ge_r mx ex my ey :
  canonical_mantissa prec emax my ey = true →
  le (S754_finite false my ey)
     (add (S754_finite false mx ex) (S754_finite false my ey)) = true.
Proof.
  intros Hc.
  destruct (add_finite_unfold mx ex my ey) as (mz & ez & -> & Hez & Hmz & Hpre).
  apply binary_round_aux_ge; [lia|exact Hpre|exact Hc|lia|].
  rewrite Hmz. set (e := Z.min ex ey) in *.
  replace (ey - ez) with ((ey - e) + (e - ez)) by lia.
  rewrite pow2_split by lia.
  pose proof (pow2_pos (e - ez) ltac:(lia)).
  pose proof (pow2_pos (ex - e) ltac:(lia)).
  pose proof (pow2_pos (ey - e) ltac:(lia)). nia.
Qed.

(** A sum that does not exceed a value of the format does not round
    above it. *)
Lemma add_le mx ex my ey mc ec :
  canonical_mantissa prec emax mc ec = true → ec <= 971 →
  Z.min ex ey <= ec →
  Zpos mx * 2 ^ (ex - Z.min ex ey) + Zpos my * 2 ^ (ey - Z.min ex ey)
    <= Zpos mc * 2 ^ (ec - Z.min ex ey) →
  le (add (S754_finite false mx ex) (S754_finite false my ey))
     (S754_finite false mc ec) = true.
Proof.
  intros Hc Hmax He Hle.
  destruct (add_finite_unfold mx ex my ey) as (mz & ez & -> & Hez & Hmz & Hpre).
  apply binary_round_aux_le; [lia|exact Hpre|exact Hc|exact Hmax|lia|].
  rewrite Hmz. set (e := Z.min ex ey) in *.
  replace (ec - ez) with ((ec - e) + (e - ez)) by lia.
  rewrite pow2_split by lia.
  pose proof (pow2_pos (e - ez) ltac:(lia)). nia.
Qed.

(** The product of a value in [(0, 1]] with a normal value [k] is a
    binary64 value that is at most [k]. *)
Lemma mul_unit_le mr er mk ek :
  canonical_mantissa prec emax mr er = true →
  canonical_mantissa prec emax mk ek = true →
  -1074 < ek → ek <= 971 →
  le (S754_finite false mr er) (S754_finite false (Z.to_pos (2 ^ 52)) (-52)) = true →
  let y := mul (S754_finite false mr er) (S754_finite false mk ek) in
  valid_binary prec emax y = true ∧ le y (S754_finite false mk ek) = true.
Proof.
  intros Hr Hk Hkn Hkmax H1 y. unfold y, mul. cbn [SFmul xorb].
  change (Zpos (mr * mk)) with (Zpos mr * Zpos mk).
  destruct (canonical_bounds mr er Hr) as (_ & Hru & _ & _).
  destruct (canonical_bounds mk ek Hk) as (_ & Hku & Hkl & _).
  specialize (Hkl Hkn).
  apply le_pos in H1. rewrite Z2Pos.id in H1 by reflexivity.
  assert (Hpre : er + ek <= fexp64 (Zdigits2 (Zpos mr * Zpos mk) + (er + ek))).
  { assert (52 < Zdigits2 (Zpos mr * Zpos mk)) by (apply Zdigits2_gt; nia).
    rewrite fexp64_eq. lia. }
  split.
  - apply binary_round_aux_valid; [lia|exact Hpre].
  - apply binary_round_aux_le; [lia|exact Hpre|exact Hk|exact Hkmax|lia|].
    replace (ek - (er + ek)) with (- er) by lia.
    assert (Zpos mr <= 2 ^ (- er)); [|nia].
    destruct H1 as [Hlt|[-> Hm]]; [|exact Hm].
    assert (2 ^ 53 <= 2 ^ (- er)) by (apply pow2_le; lia). lia.
Qed.

(** [x + r * k] for a draw [r] in [[0, 1]] lies between [x] and any
    value [c] of the format that the exact sum [x + k] does not
    exceed. *)
Lemma affine_in_range mx ex mk ek mc ec r :
  canonical_mantissa prec emax mx ex = true →
  canonical_mantissa prec emax mk ek = true →
  canonical_mantissa prec emax mc ec = true →
  -1074 < ek → ek <= ex → ex <= ec → ec <= 971 →
  Zpos mx * 2 ^ (ex - ek) + Zpos mk <= Zpos mc * 2 ^ (ec - ek) →
  valid_binary prec emax r = true →
  le pos_zero r = true →
  le r (S754_finite false (Z.to_pos (2 ^ 52)) (-52)) = true →
  let v := add (S754_finite false mx ex) (mul r (S754_finite false mk ek)) in
  le (S754_finite false mx ex) v = true ∧ le v (S754_finite false mc ec) = true.
Proof.
  intros Hx Hk Hc Hkn Hkx Hxc Hcmax Hsum Hv H0 H1 v.
  assert (Hxx : le (S754_finite false mx ex) (S754_finite false mx ex) = true
                ∧ le (S754_finite false mx ex) (S754_finite false mc ec) = true).
  { split; [apply le_refl_finite|]. apply le_pos.
    destruct (Z.eq_dec ex ec) as [E|E]; [right|left; lia].
    split; [exact E|]. subst ec.
    pose proof (pow2_pos (ex - ek) ltac:(lia)). nia. }
  destruct r as [s|s| |s mr er]; try (destruct s; discriminate); try discriminate.
  - (* zero *) exact Hxx.
  - destruct s; [discriminate|].
    apply valid_binary_finite in Hv as [Hr _].
    destruct (mul_unit_le mr er mk ek Hr Hk Hkn ltac:(lia) H1) as [Hyv Hyk].
    pose proof (binary_round_aux_shape false (Zpos (mr * mk)) (er + ek) loc_Exact
                  ltac:(lia)) as [Hsg _].
    unfold v. change (mul (S754_finite false mr er) (S754_finite false mk ek))
      with (binary_round_aux prec emax false (Zpos (mr * mk)) (er + ek) loc_Exact)
      in *.
    destruct (binary_round_aux prec emax false (Zpos (mr * mk)) (er + ek) loc_Exact)
      as [sy|sy| |sy my ey]; cbn [signed] in Hsg; try contradiction; subst sy.
    + exact Hxx.
    + discriminate Hyk.
    + apply valid_binary_finite in Hyv as [Hy _].
      destruct (canonical_bounds my ey Hy) as (_ & Hyu & _ & _).
      destruct (canonical_bounds mk ek Hk) as (_ & _ & Hkl & _).
      specialize (Hkl Hkn).
      apply le_pos in Hyk.
      split; [apply add_ge_l; exact Hx|].
      assert (Hmin : Z.min ex ey = ey) by lia.
      apply add_le; [exact Hc|exact Hcmax|lia|]. rewrite Hmin, Z.sub_diag, Z.mul_1_r.
      assert (Hy' : Zpos my <= Zpos mk * 2 ^ (ek - ey)).
      { destruct Hyk as [Hlt|[-> Hm]].
        - assert (2 ^ 1 <= 2 ^ (ek - ey)) by (apply pow2_le; lia).
          change (2 ^ 1) with 2 in *. nia.
        - rewrite Z.sub_diag. lia. }
      replace (ex - ey) with ((ex - ek) + (ek - ey)) by lia.
      replace (ec - ey) with ((ec - ek) + (ek - ey)) by lia.
      rewrite !pow2_split by lia.
      pose proof (pow2_pos (ek - ey) ltac:(lia)). nia.
Qed.

End Monotone.

(* ===================================================================== *)
(** ** The decision and the draw *)
(* ===================================================================== *)

Section Decision.

Lemma lit_0_5_eq : lit_0_5 = S754_finite false 4503599627370496 (-53).
Proof. vm_compute. reflexivity. Qed.

Lemma num_1_eq : num 1 = S754_finite false 4503599627370496 (-52).
Proof. vm_compute. reflexivity. Qed.

Lemma gt_negative_round p e :
  gt (binary_round prec emax true p e) pos_zero = false.
Proof.
  destruct (binary_round_shape true p e) as [H _].
  destruct (binary_round prec emax true p e) as [s|s| |s m' e'];
    cbn [signed] in H; try contradiction; subst; reflexivity.
Qed.

(** The sign of [random - 0.5] is the one of the exact difference. *)
Lemma signal_positive m e :
  canonical_mantissa prec emax m e = true →
  gt (sub (S754_finite false m e) (S754_finite false 4503599627370496 (-53)))
     pos_zero
  = gt (S754_finite false m e) (S754_finite false 4503599627370496 (-53)).
Proof.
  intros Hc. destruct (canonical_bounds m e Hc) as (Hmin & Hu & Hl & _).
  unfold sub. cbn [SFsub cond_Zopp].
  set (ez := Z.min e (-53)).
  destruct (shl_align_spec m e ez ltac:(lia)) as [Hm _].
  destruct (shl_align_spec 4503599627370496 (-53) ez ltac:(lia)) as [Hh _].
  rewrite Hm, Hh.
  set (D := Zpos m * 2 ^ (e - ez) - 4503599627370496 * 2 ^ (-53 - ez)).
  assert (HD : 0 < D ↔ -53 < e ∨ (-53 = e ∧ 4503599627370496 < Zpos m)).
  { unfold D. change 4503599627370496 with (2 ^ 52) in *.
    change 9007199254740992 with (2 ^ 53) in *.
    destruct (Z_lt_le_dec (-53) e) as [Hgt|Hle].
    - replace ez with (-53) by lia. rewrite Z.sub_diag, Z.mul_1_r.
      specialize (Hl ltac:(lia)).
      assert (2 ^ 1 <= 2 ^ (e - -53)) by (apply pow2_le; lia).
      change (2 ^ 1) with 2 in *. split; [lia|]. intros _. nia.
    - replace ez with e by lia. rewrite Z.sub_diag, Z.mul_1_r.
      destruct (Z.eq_dec e (-53)) as [->|Hne].
      + change (2 ^ (-53 - -53)) with 1. lia.
      + assert (2 ^ 1 <= 2 ^ (-53 - e)) by (apply pow2_le; lia).
        change (2 ^ 1) with 2 in *. split; [intros H0; nia|lia]. }
  assert (Hgt : gt (S754_finite false m e) (S754_finite false 4503599627370496 (-53))
                = true ↔ 0 < D).
  { rewrite HD. unfold gt. apply lt_pos. }
  destruct D as [|p|p] eqn:ED; cbn [binary_normalize].
  - destruct (gt (S754_finite false m e) _); [|reflexivity].
    destruct Hgt as [Hgt _]. specialize (Hgt eq_refl). lia.
  - rewrite binary_round_positive by (unfold ez; lia).
    symmetry. apply Hgt. lia.
  - rewrite gt_negative_round.
    destruct (gt (S754_finite false m e) _); [|reflexivity].
    destruct Hgt as [Hgt _]. specialize (Hgt eq_refl). lia.
Qed.

Lemma decideAllocation_gt random :
  valid_binary prec emax random = true →
  decideAllocation random = (if gt random lit_0_5 then INVESTED else STABLE).
Proof.
  intros Hv. unfold decideAllocation. cbv zeta. rewrite lit_0_5_eq.
  destruct random as [s|s| |s m e].
  - destruct s; reflexivity.
  - destruct s; reflexivity.
  - reflexivity.
  - destruct s.
    + unfold sub. cbn [SFsub cond_Zopp].
      set (ez := Z.min e (-53)).
      assert (Hneg : ∃ p, - Zpos (fst (shl_align m e ez))
                          - Zpos (fst (shl_align 4503599627370496 (-53) ez))
                          = Zneg p).
      { eexists. reflexivity. }
      destruct Hneg as [p ->]. cbn [binary_normalize].
      rewrite gt_negative_round. reflexivity.
    + apply valid_binary_finite in Hv as [Hc _].
      rewrite signal_positive by exact Hc. reflexivity.
Qed.

End Decision.

(** Property X15.  The decision is [INVESTED] exactly when the value drawn
    is above [0.5]: the subtraction in [decideAllocation] loses nothing that
    matters for the sign.  A draw of exactly [0.5], and every draw below,
    gives [STABLE].  The test [Math.random() > 0.5] of the analysis endpoint
    decides [BUY] in the same way. *)
Theorem decision_is_investing_above_one_half random :
  valid_binary prec emax random = true →
  decideAllocation random = (if gt random lit_0_5 then INVESTED else STABLE)
  ∧ ∀ body random2 random3 now sg,
      analyze body random random2 random3 now = Some sg →
      (action sg = BUY ↔ decideAllocation random = INVESTED).
Proof.
  intros Hv. pose proof (decideAllocation_gt random Hv) as H.
  split; [exact H|].
  intros body random2 random3 now sg Hsg. rewrite H.
  destruct body as [b|]; [|discriminate Hsg].
  injection Hsg as <-. cbn [action].
  destruct (gt random lit_0_5); split; congruence.
Qed.

Lemma decision_is_investing_above_one_half_witness :
  valid_binary prec emax lit_0_5 = true
  ∧ decideAllocation lit_0_5 = (if gt lit_0_5 lit_0_5 then INVESTED else STABLE)
  ∧ decideAllocation lit_0_5 = STABLE.
Proof.
  assert (H : valid_binary prec emax lit_0_5 = true) by (vm_compute; reflexivity).
  split; [exact H|].
  split; [exact (proj1 (decision_is_investing_above_one_half lit_0_5 H))|].
  vm_compute. reflexivity.
Defined.

(* ===================================================================== *)
(** ** A deposit that does not switch *)
(* ===================================================================== *)

(** Property X16.  A deposit whose decision is the allocation the account
    already has adds the amount and nothing else: no fee, no rounding to
    eight decimals, the fee total untouched.  The balance returned is at
    least the balance before and at least the amount; it can equal the
    balance before when the amount is too small for it. *)
Theorem deposit_without_switch_never_lowers_balance
    body random now srv srv' d :
  deposit body random now srv = (srv', ok d) →
  let current := lookupOrCreate srv (d_investor d) (d_strategyId d) in
  valid_binary prec emax (balance current) = true →
  valid_binary prec emax (coerceAmount body) = true →
  le pos_zero (balance current) = true →
  d_allocation d = allocation current →
  feeCharged d = pos_zero
  ∧ newBalance d = add (balance current) (coerceAmount body)
  ∧ platformTotalFees srv' = platformTotalFees srv
  ∧ le (balance current) (newBalance d) = true
  ∧ le (coerceAmount body) (newBalance d) = true.
Proof.
  intros H current Vb Va Hb Hal.
  apply deposit_ok_inv in H as (i & s & Hi & Hs & Ha & H).
  apply applyDeposit_spec in H as (Hdi & Hds & _ & Hc & _ & Hf & _).
  cbv zeta in Hc. subst i s. fold current in Hc.
  assert (Hsw : negb (Allocation_eqb (allocation current) (d_allocation d)) = false).
  { rewrite Hal. destruct (allocation current); reflexivity. }
  rewrite Hsw in Hc. cbn [chargeFee] in Hc. injection Hc as <- <- Hfees.
  split; [reflexivity|]. split; [reflexivity|].
  split; [rewrite Hf; symmetry; exact Hfees|].
  set (a := coerceAmount body) in *. set (b := balance current) in *.
  unfold acceptedAmount in Ha.
  destruct a as [sa|sa| |sa ma ea]; try (destruct sa; discriminate Ha);
    try discriminate Ha.
  destruct sa; [discriminate Ha|].
  apply valid_binary_finite in Va as [Ca _].
  destruct b as [sb|sb| |sb mb eb]; try discriminate Hb.
  - (* the balance is zero *)
    change (add (S754_zero sb) (S754_finite false ma ea))
      with (S754_finite false ma ea).
    split; [destruct sb; reflexivity|apply le_refl_finite].
  - destruct sb; [discriminate Hb|]. split; reflexivity.
  - destruct sb; [discriminate Hb|].
    apply valid_binary_finite in Vb as [Cb _].
    split; [apply add_ge_l; exact Cb|apply add_ge_r; exact Ca].
Qed.

Lemma deposit_without_switch_never_lowers_balance_witness :
  let srv := fst (deposit (depositOf "inv1" "s1" (JNumber (num 10000)))
                    random_low 1 start) in
  let body := depositOf "inv1" "s1" (JNumber (of_decimal false 25 (-1))) in
  let d := {| d_investor := "inv1"; d_strategyId := "s1"; d_asset := "XLM";
              newBalance := of_decimal false 100025 (-1);
              d_allocation := STABLE; feeCharged := pos_zero;
              d_platformTotalFees := pos_zero;
              simulated := true; decidedAt := 2 |} in
  let srv' := fst (deposit body random_low 2 srv) in
  let current := lookupOrCreate srv (d_investor d) (d_strategyId d) in
  deposit body random_low 2 srv = (srv', ok d)
  ∧ valid_binary prec emax (balance current) = true
  ∧ valid_binary prec emax (coerceAmount body) = true
  ∧ le pos_zero (balance current) = true
  ∧ d_allocation d = allocation current
  ∧ (feeCharged d = pos_zero
     ∧ newBalance d = add (balance current) (coerceAmount body)
     ∧ platformTotalFees srv' = platformTotalFees srv
     ∧ le (balance current) (newBalance d) = true
     ∧ le (coerceAmount body) (newBalance d) = true).
Proof.
  intros srv body d srv' current.
  assert (H1 : deposit body random_low 2 srv = (srv', ok d)).
  { apply injective_projections; [reflexivity|vm_compute; reflexivity]. }
  assert (H2 : valid_binary prec emax (balance current) = true)
    by (vm_compute; reflexivity).
  assert (H3 : valid_binary prec emax (coerceAmount body) = true)
    by (vm_compute; reflexivity).
  assert (H4 : le pos_zero (balance current) = true) by (vm_compute; reflexivity).
  assert (H5 : d_allocation d = allocation current) by (vm_compute; reflexivity).
  split; [exact H1|]. split; [exact H2|]. split; [exact H3|].
  split; [exact H4|]. split; [exact H5|].
  exact (deposit_without_switch_never_lowers_balance
           body random_low 2 srv srv' d H1 H2 H3 H4 H5).
Defined.

(* ===================================================================== *)
(** ** The values that the mock endpoints report *)
(* ===================================================================== *)

(** Property X17.  For every value that [Math.random()] can return, the
    price [0.12 + Math.random() * 0.02] that the analysis and quote
    endpoints report lies between [0.12] and [0.14], and the confidence
    [0.7 + Math.random() * 0.3] of the analysis endpoint lies between
    [0.7] and [1]: the rounding of the product and of the sum never
    carries them outside. *)
Theorem mock_values_stay_in_range random :
  valid_binary prec emax random = true →
  le pos_zero random = true →
  le random (num 1) = true →
  (le lit_0_12 (mockPrice random) = true
   ∧ le (mockPrice random) (of_decimal false 14 (-2)) = true)
  ∧ (le lit_0_7 (add lit_0_7 (mul random lit_0_3)) = true
     ∧ le (add lit_0_7 (mul random lit_0_3)) (num 1) = true)
  ∧ (∀ body random1 random3 now sg,
        analyze body random1 random random3 now = Some sg →
        le lit_0_12 (sg_price sg) = true
        ∧ le (sg_price sg) (of_decimal false 14 (-2)) = true)
  ∧ (∀ body random1 now q,
        quote body random1 random now = Some q →
        le lit_0_12 (price q) = true
        ∧ le (price q) (of_decimal false 14 (-2)) = true).
Proof.
  intros Hv H0 H1. rewrite num_1_eq in *.
  assert (Hp : le lit_0_12 (mockPrice random) = true
               ∧ le (mockPrice random) (of_decimal false 14 (-2)) = true).
  { unfold mockPrice.
    assert (E1 : lit_0_12 = S754_finite false 8646911284551352 (-56))
      by (vm_compute; reflexivity).
    assert (E2 : lit_0_02 = S754_finite false 5764607523034235 (-58))
      by (vm_compute; reflexivity).
    assert (E3 : of_decimal false 14 (-2) = S754_finite false 5044031582654956 (-55))
      by (vm_compute; reflexivity).
    rewrite E1, E2, E3.
    apply affine_in_range; try reflexivity; try lia; assumption. }
  split; [exact Hp|]. split.
  - assert (E1 : lit_0_7 = S754_finite false 6305039478318694 (-53))
      by (vm_compute; reflexivity).
    assert (E2 : lit_0_3 = S754_finite false 5404319552844595 (-54))
      by (vm_compute; reflexivity).
    rewrite E1, E2.
    apply affine_in_range; try reflexivity; try lia; assumption.
  - split.
    + intros body random1 random3 now sg Hsg.
      destruct body as [b|]; [|discriminate Hsg].
      injection Hsg as <-. exact Hp.
    + intros body random1 now q Hq.
      destruct body as [b|]; [|discriminate Hq].
      cbn [quote] in Hq. cbv zeta in Hq.
      destruct (throws _); [discriminate Hq|].
      injection Hq as <-. exact Hp.
Qed.

Lemma mock_values_stay_in_range_witness :
  valid_binary prec emax random_high = true
  ∧ le pos_zero random_high = true
  ∧ le random_high (num 1) = true
  ∧ le lit_0_12 (mockPrice random_high) = true
  ∧ le (mockPrice random_high) (of_decimal false 14 (-2)) = true.
Proof.
  assert (H1 : valid_binary prec emax random_high = true) by (vm_compute; reflexivity).
  assert (H2 : le pos_zero random_high = true) by (vm_compute; reflexivity).
  assert (H3 : le random_high (num 1) = true) by (vm_compute; reflexivity).
  split; [exact H1|]. split; [exact H2|]. split; [exact H3|].
  exact (proj1 (mock_values_stay_in_range random_high H1 H2 H3)).
Defined.

(* ===================================================================== *)
(** ** The fee charged *)
(* ===================================================================== *)

(** Property X18.  In every state reached from the start by deposit
    requests, the fee that an accepted deposit is charged is never a
    negative number; and when the balance after adding the amount is finite,
    the fee is a finite number that is [>= 0]. *)
Theorem fee_is_never_negative reqs body random now srv' d :
  wellTypedRequests reqs →
  wellTyped body →
  deposit body random now (fst (run reqs start)) = (srv', ok d) →
  let post := add (currentBalance (d_investor d) (fst (run reqs start)))
                  (coerceAmount body) in
  lt (feeCharged d) pos_zero = false
  ∧ (isFinite post = true →
     isFinite (feeCharged d) = true ∧ le pos_zero (feeCharged d) = true).
Proof.
  intros Hreqs Hbody Hdep post.
  pose proof (ledgerInv_reachable reqs Hreqs) as Hinv.
  set (srv := fst (run reqs start)) in *.
  pose proof (coerceAmount_wellFormed body Hbody) as Wa.
  apply deposit_ok_inv in Hdep as (i & s & _ & _ & Ha & Happ).
  apply applyDeposit_spec in Happ as (Hdi & Hds & _ & Hc & _).
  cbv zeta in Hc. subst i s.
  pose proof (lookupOrCreate_notNegative srv (d_investor d) (d_strategyId d) Hinv)
    as Hcur.
  pose proof (finiteNonneg_notNegative _ (accepted_finiteNonneg _ Ha Wa)) as Hamt.
  pose proof (add_notNegative _ _ Hcur Hamt) as Hpost.
  unfold post, currentBalance.
  rewrite (lookupOrCreate_balance srv _ "" (d_strategyId d)).
  set (p := add (balance (lookupOrCreate srv (d_investor d) (d_strategyId d)))
                (coerceAmount body)) in *.
  split.
  - pose proof (chargeFee_notNegative
      (negb (Allocation_eqb
               (allocation (lookupOrCreate srv (d_investor d) (d_strategyId d)))
               (d_allocation d)))
      p (platformTotalFees srv) Hpost (proj2 Hinv)) as H.
    rewrite Hc in H. destruct H as (Hfee & _).
    apply notNegative_never_negative. exact Hfee.
  - intros Hfin.
    assert (Hp : finiteNonneg p).
    { destruct Hpost as [[Hnan|Hn] W]; [rewrite Hnan in Hfin; discriminate|].
      repeat split; assumption. }
    pose proof (chargeFee_finite
      (negb (Allocation_eqb
               (allocation (lookupOrCreate srv (d_investor d) (d_strategyId d)))
               (d_allocation d)))
      p (platformTotalFees srv) Hp) as H.
    rewrite Hc in H. destruct H as ((Hn & _ & Hf) & _).
    split; [exact Hf|]. apply le_zero_nonneg. exact Hn.
Qed.

Lemma fee_is_never_negative_witness :
  let reqs := [ {| r_body := depositOf "inv1" "s1" (JNumber (num 10000));
                   r_random := random_low; r_now := 1 |} ] in
  let body := depositOf "inv1" "s1" (JNumber (num 1)) in
  let d := {| d_investor := "inv1"; d_strategyId := "s1"; d_asset := "XLM";
              newBalance := of_decimal false 9950995 (-3);
              d_allocation := INVESTED;
              feeCharged := of_decimal false 50005 (-3);
              d_platformTotalFees := of_decimal false 50005 (-3);
              simulated := true; decidedAt := 2 |} in
  let srv' := fst (deposit body random_high 2 (fst (run reqs start))) in
  wellTypedRequests reqs
  ∧ wellTyped body
  ∧ deposit body random_high 2 (fst (run reqs start)) = (srv', ok d)
  ∧ lt (feeCharged d) pos_zero = false.
Proof.
  intros reqs body d srv'.
  assert (H1 : wellTypedRequests reqs).
  { apply Forall_cons. split; [vm_compute; reflexivity|apply Forall_nil_2]. }
  assert (H2 : wellTyped body) by (vm_compute; reflexivity).
  assert (H3 : deposit body random_high 2 (fst (run reqs start)) = (srv', ok d)).
  { apply injective_projections; [reflexivity|vm_compute; reflexivity]. }
  split; [exact H1|]. split; [exact H2|]. split; [exact H3|].
  exact (proj1 (fee_is_never_negative reqs body random_high 2 srv' d H1 H2 H3)).
Defined.

(** Property X19.  The first deposit of a new investor is charged the fee
    exactly when the value drawn is above [0.5]: the account starts
    [STABLE], so the decision [INVESTED] is a switch.  Otherwise the whole
    amount is credited, unrounded. *)
Theorem first_deposit_is_charged_when_investing
    body random now srv investor strategyId :
  truthy (body ≫= body_investor) = Some investor →
  truthy (body ≫= body_strategyId) = Some strategyId →
  finitePositive (coerceAmount body) = true →
  investorStates srv !! investor = None →
  valid_binary prec emax random = true →
  ∃ d, snd (deposit body random now srv) = ok d
    ∧ if gt random lit_0_5
      then d_allocation d = INVESTED
           ∧ feeCharged d = Number_toFixed8 (mul (coerceAmount body) lit_0_005)
           ∧ newBalance d
             = Number_toFixed8 (sub (coerceAmount body) (feeCharged d))
      else d_allocation d = STABLE
           ∧ feeCharged d = pos_zero
           ∧ newBalance d = coerceAmount body.
Proof.
  intros Hi Hs Ha Hnone Hv.
  pose proof Ha as Hfp. rewrite finitePositive_accepted in Ha.
  rewrite (deposit_accepted _ _ _ _ investor strategyId) by assumption.
  destruct (applyDeposit _ _ _ _ _ _ _) as [srv' d] eqn:Happ.
  exists d. split; [reflexivity|].
  apply applyDeposit_spec in Happ as (_ & _ & Hal & Hc & _).
  cbv zeta in Hc.
  rewrite (lookupOrCreate_absent srv investor strategyId Hnone) in Hc.
  cbn [freshAccount balance allocation] in Hc.
  assert (Hadd : add pos_zero (coerceAmount body) = coerceAmount body).
  { unfold finitePositive in Hfp.
    destruct (coerceAmount body) as [s|s| |s m e]; try discriminate Hfp;
      reflexivity. }
  rewrite Hadd, Hal in Hc.
  rewrite (decideAllocation_gt random Hv) in Hal, Hc.
  destruct (gt random lit_0_5); cbn in Hc; injection Hc as Hf Hb _;
    rewrite <- Hb, <- Hf; auto.
Qed.

Lemma first_deposit_is_charged_when_investing_witness :
  let body := depositOf "inv1" "grid-1" (JNumber (num 1000)) in
  truthy (body ≫= body_investor) = Some "inv1"%string
  ∧ truthy (body ≫= body_strategyId) = Some "grid-1"%string
  ∧ finitePositive (coerceAmount body) = true
  ∧ investorStates start !! "inv1"%string = None
  ∧ valid_binary prec emax random_high = true
  ∧ ∃ d, snd (deposit body random_high 1 start) = ok d
      ∧ if gt random_high lit_0_5
        then d_allocation d = INVESTED
             ∧ feeCharged d = Number_toFixed8 (mul (coerceAmount body) lit_0_005)
             ∧ newBalance d
               = Number_toFixed8 (sub (coerceAmount body) (feeCharged d))
        else d_allocation d = STABLE
             ∧ feeCharged d = pos_zero
             ∧ newBalance d = coerceAmount body.
Proof.
  intros body.
  assert (H1 : truthy (body ≫= body_investor) = Some "inv1"%string) by reflexivity.
  assert (H2 : truthy (body ≫= body_strategyId) = Some "grid-1"%string) by reflexivity.
  assert (H3 : finitePositive (coerceAmount body) = true) by (vm_compute; reflexivity).
  assert (H4 : investorStates start !! "inv1"%string = None) by reflexivity.
  assert (H5 : valid_binary prec emax random_high = true) by (vm_compute; reflexivity).
  split; [exact H1|]. split; [exact H2|]. split; [exact H3|].
  split; [exact H4|]. split; [exact H5|].
  exact (first_deposit_is_charged_when_investing body random_high 1 start
           "inv1" "grid-1" H1 H2 H3 H4 H5).
Defined.

(* ===================================================================== *)
(** ** Rounding to nearest *)
(* ===================================================================== *)

Section Nearest.

Lemma located_of_loc_exact m : located m 1 (shr_record_of_loc m loc_Exact).
Proof.
  unfold located. cbn [shr_record_of_loc shr_m shr_r shr_s].
  replace (m - m * 1) with 0 by lia. repeat split; lia.
Qed.

Lemma shr_1_located N D mrs :
  0 <= shr_m mrs → located N D mrs → located N (2 * D) (shr_1 mrs).
Proof.
  destruct mrs as [m r s]. unfold located. cbn [shr_m shr_r shr_s].
  intros Hm (HD & Hrem & Hr & Hs). subst r s.
  destruct m as [|[p|p|]|p]; cbn [shr_1 shr_m shr_r shr_s]; try lia;
    (split; [lia|]); (split; [lia|]);
    repeat match goal with
           | |- context [?a <=? ?b] => destruct (Z.leb_spec a b)
           | |- context [?a =? ?b] => destruct (Z.eqb_spec a b)
           end; cbn; split; (reflexivity || lia).
Qed.

Lemma iter_shr_1_located p : ∀ N D mrs,
  0 <= shr_m mrs → located N D mrs →
  located N (2 ^ Zpos p * D) (SpecFloat.iter_pos shr_1 p mrs).
Proof.
  induction p as [p IH|p IH|]; intros N D mrs Hm Hl; cbn [SpecFloat.iter_pos].
  - pose proof (shr_1_nonneg mrs Hm) as Hm1.
    pose proof (shr_1_located N D mrs Hm Hl) as H1.
    pose proof (IH _ _ _ Hm1 H1) as H2.
    assert (Hm2 : 0 <= shr_m (SpecFloat.iter_pos shr_1 p (shr_1 mrs))).
    { rewrite iter_shr_1_m by assumption. apply Z.div_pos; [lia|].
      apply Z.pow_pos_nonneg; lia. }
    pose proof (IH _ _ _ Hm2 H2) as H3.
    replace (2 ^ Zpos p~1 * D) with (2 ^ Zpos p * (2 ^ Zpos p * (2 * D)));
      [exact H3|].
    replace (Zpos p~1) with (Zpos p + Zpos p + 1) by lia.
    rewrite !Z.pow_add_r by lia. change (2 ^ 1) with 2. ring.
  - pose proof (IH _ _ _ Hm Hl) as H2.
    assert (Hm2 : 0 <= shr_m (SpecFloat.iter_pos shr_1 p mrs)).
    { rewrite iter_shr_1_m by assumption. apply Z.div_pos; [lia|].
      apply Z.pow_pos_nonneg; lia. }
    pose proof (IH _ _ _ Hm2 H2) as H3.
    replace (2 ^ Zpos p~0 * D) with (2 ^ Zpos p * (2 ^ Zpos p * D));
      [exact H3|].
    replace (Zpos p~0) with (Zpos p + Zpos p) by lia.
    rewrite !Z.pow_add_r by lia. ring.
  - change (2 ^ 1) with 2. apply shr_1_located; assumption.
Qed.

Lemma shr_fexp_located N D m e l :
  0 <= m → located N D (shr_record_of_loc m l) →
  located N (2 ^ Z.max 0 (fexp64 (Zdigits2 m + e) - e) * D)
          (fst (shr_fexp prec emax m e l)).
Proof.
  intros Hm Hl. unfold shr_fexp, fexp64.
  destruct (fexp prec emax (Zdigits2 m + e) - e) as [|p|p]; cbn [shr fst].
  - change (2 ^ Z.max 0 0) with 1. rewrite Z.mul_1_l. exact Hl.
  - rewrite Z.max_r by lia. apply iter_shr_1_located; [|exact Hl].
    rewrite shr_record_of_loc_m. exact Hm.
  - rewrite Z.max_l by lia. change (2 ^ 0) with 1. rewrite Z.mul_1_l. exact Hl.
Qed.

(** The mantissa chosen is a nearest one. *)
Lemma round_nearest_even_located N D mrs :
  located N D mrs →
  let m2 := round_nearest_even (shr_m mrs) (loc_of_shr_record mrs) in
  (2 * m2 - 1) * D <= 2 * N <= (2 * m2 + 1) * D.
Proof.
  destruct mrs as [m r s]. unfold located. cbn [shr_m shr_r shr_s].
  intros (HD & Hrem & Hr & Hs).
  destruct (Z.leb_spec D (2 * (N - m * D))) as [H1|H1];
    destruct (Z.eqb_spec (N - m * D) 0) as [H2|H2];
    destruct (Z.eqb_spec (2 * (N - m * D)) D) as [H3|H3];
    subst r s; cbn [negb andb loc_of_shr_record round_nearest_even];
    try destruct (Z.even m); nia.
Qed.

(** The two steps of [binary_round_aux] on a quotient [N / D] whose
    integer part is [mx]: the mantissa kept is a nearest one. *)
Lemma binary_round_aux_steps_nearest s mx ex lx N D :
  0 <= mx →
  located N D (shr_record_of_loc mx lx) →
  let n1 := Z.max 0 (fexp64 (Zdigits2 mx + ex) - ex) in
  let e1 := ex + n1 in
  ∃ m2, mx / 2 ^ n1 <= m2 <= mx / 2 ^ n1 + 1
    ∧ (2 * m2 - 1) * (2 ^ n1 * D) <= 2 * N <= (2 * m2 + 1) * (2 ^ n1 * D)
    ∧ let n2 := Z.max 0 (fexp64 (Zdigits2 m2 + e1) - e1) in
      binary_round_aux prec emax s mx ex lx =
        match m2 / 2 ^ n2 with
        | Z0 => S754_zero s
        | Zpos m => if e1 + n2 <=? emax - prec
                    then S754_finite s m (e1 + n2) else S754_infinity s
        | Zneg _ => S754_nan
        end.
Proof.
  intros Hm Hloc n1 e1. unfold binary_round_aux.
  destruct (shr_fexp_spec mx ex lx Hm) as [Hm1 He1].
  pose proof (shr_fexp_located N D mx ex lx Hm Hloc) as Hl1.
  destruct (shr_fexp prec emax mx ex lx) as [mrs' e'] eqn:Hshr.
  cbn [fst snd] in Hm1, He1, Hl1. fold n1 in Hm1, He1, Hl1. fold e1 in He1. subst e'.
  set (m2 := round_nearest_even (shr_m mrs') (loc_of_shr_record mrs')).
  exists m2.
  pose proof (round_nearest_even_bounds (shr_m mrs') (loc_of_shr_record mrs')) as Hb.
  fold m2 in Hb. rewrite Hm1 in Hb. split; [exact Hb|].
  split; [exact (round_nearest_even_located N _ mrs' Hl1)|].
  assert (Hm2 : 0 <= m2).
  { assert (0 <= mx / 2 ^ n1) by (apply Z.div_pos; lia). lia. }
  cbv zeta. set (n2 := Z.max 0 (fexp64 (Zdigits2 m2 + e1) - e1)).
  destruct (shr_fexp_spec m2 e1 loc_Exact Hm2) as [Hm3 He3].
  destruct (shr_fexp prec emax m2 e1 loc_Exact) as [mrs'' e''].
  cbn [fst snd] in Hm3, He3. fold n2 in Hm3, He3. subst e''.
  rewrite Hm3. reflexivity.
Qed.

(** The result of rounding the quotient [N / D * 2^ex] when its integer
    part [mx] has at least the bits that the format keeps. *)
Lemma binary_round_aux_nearest s mx ex lx N D :
  0 < mx →
  ex <= fexp64 (Zdigits2 mx + ex) →
  located N D (shr_record_of_loc mx lx) →
  let e1 := fexp64 (Zdigits2 mx + ex) in
  let m1 := mx / 2 ^ (e1 - ex) in
  ∃ m2, m1 <= m2 <= m1 + 1
    ∧ (2 * m2 - 1) * (2 ^ (e1 - ex) * D) <= 2 * N
      <= (2 * m2 + 1) * (2 ^ (e1 - ex) * D)
    ∧ m2 <= 2 ^ 53
    ∧ (-1074 < e1 → 2 ^ 52 <= m1)
    ∧ -1074 <= e1
    ∧ binary_round_aux prec emax s mx ex lx =
        if m2 =? 0 then S754_zero s
        else if m2 <? 2 ^ 53
             then if e1 <=? 971 then S754_finite s (Z.to_pos m2) e1
                  else S754_infinity s
             else if e1 + 1 <=? 971
                  then S754_finite s (Z.to_pos (2 ^ 52)) (e1 + 1)
                  else S754_infinity s.
Proof.
  intros Hmx Hpre Hloc e1 m1.
  destruct (binary_round_aux_steps_nearest s mx ex lx N D ltac:(lia) Hloc)
    as (m2 & Hm2 & Hnear & Hres).
  set (d := Zdigits2 mx) in *.
  assert (Hn1 : Z.max 0 (fexp64 (d + ex) - ex) = e1 - ex) by (unfold e1; lia).
  rewrite Hn1 in *. fold m1 in Hm2.
  replace (ex + (e1 - ex)) with e1 in Hres by lia.
  pose proof (Zdigits2_upper mx ltac:(lia)) as Hu. fold d in Hu.
  pose proof (Zdigits2_lower mx Hmx) as Hl. fold d in Hl.
  pose proof (Zdigits2_gt mx 0 ltac:(lia) ltac:(change (2 ^ 0) with 1; lia)) as Hd.
  fold d in Hd.
  assert (He1 : e1 = Z.max (d + ex - 53) (-1074)) by reflexivity.
  assert (Hm1u : m1 < 2 ^ 53).
  { unfold m1.
    destruct (Z_le_gt_dec (e1 - ex) d) as [Hle|Hgt].
    - pose proof (div_pow2_lt mx d (e1 - ex) ltac:(lia) ltac:(lia)) as H.
      assert (2 ^ (d - (e1 - ex)) <= 2 ^ 53) by (apply pow2_le; lia). lia.
    - rewrite (div_pow2_small mx d (e1 - ex)) by lia. reflexivity. }
  assert (Hm1l : -1074 < e1 → 2 ^ 52 <= m1).
  { intros Hn. assert (Hs : e1 - ex = d - 53) by lia. unfold m1. rewrite Hs.
    apply Z.div_le_lower_bound; [apply pow2_pos; lia|].
    rewrite Z.mul_comm, <- pow2_split by lia.
    replace (52 + (d - 53)) with (d - 1) by lia. exact Hl. }
  assert (Hm1n : 0 <= m1) by (apply Z.div_pos; [lia|apply pow2_pos; lia]).
  exists m2. split; [exact Hm2|]. split; [exact Hnear|].
  split; [lia|]. split; [exact Hm1l|]. split; [lia|].
  rewrite Hres.
  destruct (Z.eqb_spec m2 0) as [->|Hne].
  { cbn. rewrite Z.div_0_l; [reflexivity|]. apply Z.pow_nonzero; lia. }
  destruct (Z.ltb_spec m2 (2 ^ 53)) as [Hlt|Hge].
  - assert (Hd2 : Zdigits2 m2 <= 53) by (apply Zdigits2_le; lia).
    assert (Hn2 : Z.max 0 (fexp64 (Zdigits2 m2 + e1) - e1) = 0)
      by (rewrite fexp64_eq; lia).
    rewrite Hn2, Z.div_1_r, Z.add_0_r.
    destruct m2 as [|p|p]; [lia| |lia]. reflexivity.
  - assert (Hm2e : m2 = 2 ^ 53) by lia.
    assert (Hd2 : Zdigits2 m2 = 54) by (rewrite Hm2e; reflexivity).
    assert (Hn2 : Z.max 0 (fexp64 (Zdigits2 m2 + e1) - e1) = 1)
      by (rewrite Hd2, fexp64_eq; lia).
    rewrite Hn2, Hm2e. reflexivity.
Qed.

End Nearest.

(* ===================================================================== *)
(** ** The number nearest to a count of hundred-millionths *)
(* ===================================================================== *)

Section Decimal.

Lemma SFdiv_core_located n :
  0 < n →
  let e' := Z.min (fexp64 (Zdigits2 n - 27)) 0 in
  let '(q, e, l) := SFdiv_core_binary prec emax n 0 100000000 0 in
  e = e' ∧ q = (n * 2 ^ (- e')) / 100000000
  ∧ located (n * 2 ^ (- e')) 100000000 (shr_record_of_loc q l).
Proof.
  intros Hn e'. unfold SFdiv_core_binary.
  rewrite !Z.add_0_r, !Z.sub_0_r.
  change (Zdigits2 100000000) with 27.
  change (0 - 0) with 0. fold (fexp64 (Zdigits2 n - 27)). fold e'.
  assert (He' : e' <= 0) by (unfold e'; lia).
  replace (0 - e') with (- e') by lia.
  assert (Hm : match - e' with
               | 0 => n
               | Z.pos _ => Z.shiftl n (- e')
               | Z.neg _ => 0
               end = n * 2 ^ (- e')).
  { destruct (- e') as [|s|s] eqn:Hs.
    - cbn. lia.
    - rewrite Z.shiftl_mul_pow2 by lia. reflexivity.
    - lia. }
  rewrite Hm. set (M := n * 2 ^ (- e')).
  pose proof (Z.div_eucl_eq M 100000000 ltac:(lia)) as Heq.
  pose proof (Z.mod_pos_bound M 100000000 ltac:(lia)) as Hr.
  unfold Z.div, Z.modulo in *.
  destruct (Z.div_eucl M 100000000) as [q r].
  split; [reflexivity|]. split; [reflexivity|].
  unfold new_location. change (Z.even 100000000) with true. cbn iota.
  unfold new_location_even, located.
  destruct (Z.eqb_spec r 0) as [Hr0|Hr0].
  - cbn [shr_record_of_loc shr_m shr_r shr_s]. subst r.
    replace (M - q * 100000000) with 0 by lia. repeat split; lia.
  - destruct (Z.compare_spec (2 * r) 100000000) as [Hc|Hc|Hc];
      cbn [shr_record_of_loc shr_m shr_r shr_s];
      replace (M - q * 100000000) with r by lia;
      (split; [lia|]); (split; [lia|]);
      destruct (Z.leb_spec 100000000 (2 * r));
      destruct (Z.eqb_spec r 0); destruct (Z.eqb_spec (2 * r) 100000000);
      cbn; split; (reflexivity || lia).
Qed.

(** The number that a positive count [k] of hundred-millionths denotes:
    its mantissa [m2], before a carry into the next exponent, is a
    nearest one. *)
Lemma of_decimal8_nearest k :
  0 < k <= 10 ^ 30 →
  ∃ m2 e1,
    2 ^ 52 <= m2 <= 2 ^ 53
    ∧ -79 <= e1 <= 21
    ∧ (e1 <= 0 →
       (2 * m2 - 1) * 100000000 <= 2 * (k * 2 ^ (- e1))
       <= (2 * m2 + 1) * 100000000)
    ∧ (0 <= e1 →
       (2 * m2 - 1) * (2 ^ e1 * 100000000) <= 2 * k
       <= (2 * m2 + 1) * (2 ^ e1 * 100000000))
    ∧ of_decimal false k (-8)
      = if m2 <? 2 ^ 53 then S754_finite false (Z.to_pos m2) e1
        else S754_finite false (Z.to_pos (2 ^ 52)) (e1 + 1).
Proof.
  intros [Hk0 Hk]. destruct k as [|p|p]; try lia.
  unfold of_decimal. change (Z.to_pos (10 ^ 8)) with 100000000%positive.
  cbn [SFdiv xorb].
  pose proof (SFdiv_core_located (Zpos p) ltac:(lia)) as Hc.
  destruct (SFdiv_core_binary prec emax (Zpos p) 0 100000000 0) as [[q e] l].
  cbv zeta in Hc. destruct Hc as (He & Hq & Hloc).
  set (d1 := Zdigits2 (Zpos p)) in *.
  set (e' := Z.min (fexp64 (d1 - 27)) 0) in *. subst e.
  assert (Hd1 : 1 <= d1 <= 100).
  { split.
    - unfold d1. cbn. lia.
    - apply Zdigits2_le; [lia|lia|].
      assert (10 ^ 30 < 2 ^ 100) by (vm_compute; reflexivity). lia. }
  assert (He' : e' = Z.min (d1 - 80) 0) by (unfold e'; rewrite fexp64_eq; lia).
  pose proof (pow2_pos (- e') ltac:(lia)) as Hpow.
  pose proof (Zdigits2_upper (Zpos p) ltac:(lia)) as Hup. fold d1 in Hup.
  pose proof (Zdigits2_lower (Zpos p) ltac:(lia)) as Hlow. fold d1 in Hlow.
  set (M := Zpos p * 2 ^ (- e')) in *.
  assert (HMl : 2 ^ (d1 - 1 - e') <= M).
  { unfold M. replace (d1 - 1 - e') with ((d1 - 1) + - e') by lia.
    rewrite pow2_split by lia. nia. }
  assert (HMu : M < 2 ^ (d1 - e')).
  { unfold M. replace (d1 - e') with (d1 + - e') by lia.
    rewrite pow2_split by lia. nia. }
  assert (Hq52 : 2 ^ (d1 - e' - 28) <= q).
  { subst q. apply Z.div_le_lower_bound; [lia|].
    assert (100000000 * 2 ^ (d1 - e' - 28) <= 2 ^ 27 * 2 ^ (d1 - e' - 28)).
    { apply Z.mul_le_mono_nonneg_r; [apply Z.lt_le_incl, pow2_pos; lia|].
      vm_compute. discriminate. }
    rewrite <- pow2_split in H by lia.
    replace (27 + (d1 - e' - 28)) with (d1 - 1 - e') in H by lia. lia. }
  assert (Hqu : q < 2 ^ (d1 - e' - 26)).
  { subst q. apply Z.div_lt_upper_bound; [lia|].
    assert (2 ^ 26 * 2 ^ (d1 - e' - 26) <= 100000000 * 2 ^ (d1 - e' - 26)).
    { apply Z.mul_le_mono_nonneg_r; [apply Z.lt_le_incl, pow2_pos; lia|].
      vm_compute. discriminate. }
    rewrite <- pow2_split in H by lia.
    replace (26 + (d1 - e' - 26)) with (d1 - e') in H by lia. lia. }
  assert (Hq0 : 0 < q).
  { pose proof (pow2_pos (d1 - e' - 28) ltac:(lia)). lia. }
  assert (Hdql : d1 - e' - 28 < Zdigits2 q) by (apply Zdigits2_gt; lia).
  assert (Hdqu : Zdigits2 q <= d1 - e' - 26) by (apply Zdigits2_le; lia).
  assert (Hpre : e' <= fexp64 (Zdigits2 q + e')) by (rewrite fexp64_eq; lia).
  destruct (binary_round_aux_nearest false q e' l M 100000000 Hq0 Hpre Hloc)
    as (m2 & Hm2 & Hnear & Hu & Hl & Hmin & ->).
  set (e1 := fexp64 (Zdigits2 q + e')) in *.
  assert (He1 : e1 = Zdigits2 q + e' - 53) by (unfold e1; rewrite fexp64_eq; lia).
  specialize (Hl ltac:(lia)).
  assert (0 < 2 ^ 52) by reflexivity.
  exists m2, e1. split; [lia|]. split; [lia|].
  pose proof (pow2_pos (e1 - e') ltac:(lia)) as Hp1.
  split; [|split].
  - intros Hneg.
    assert (Hs : 2 ^ (- e') = 2 ^ (e1 - e') * 2 ^ (- e1)).
    { rewrite <- pow2_split by lia. f_equal. lia. }
    unfold M in Hnear. rewrite Hs in Hnear.
    pose proof (pow2_pos (- e1) ltac:(lia)) as Hp2.
    set (P := 2 ^ (e1 - e')) in *. set (R := 2 ^ (- e1)) in *.
    destruct Hnear as [Hn1 Hn2].
    split; apply Z.mul_le_mono_pos_l with P; try exact Hp1.
    + replace (P * ((2 * m2 - 1) * 100000000))
        with ((2 * m2 - 1) * (P * 100000000)) by ring.
      replace (P * (2 * (Zpos p * R))) with (2 * (Zpos p * (P * R))) by ring.
      exact Hn1.
    + replace (P * ((2 * m2 + 1) * 100000000))
        with ((2 * m2 + 1) * (P * 100000000)) by ring.
      replace (P * (2 * (Zpos p * R))) with (2 * (Zpos p * (P * R))) by ring.
      exact Hn2.
  - intros Hpos.
    assert (Hs : 2 ^ (e1 - e') = 2 ^ (- e') * 2 ^ e1).
    { rewrite <- pow2_split by lia. f_equal. lia. }
    unfold M in Hnear. rewrite Hs in Hnear.
    pose proof (pow2_pos e1 ltac:(lia)) as Hp2.
    set (P := 2 ^ (- e')) in *. set (R := 2 ^ e1) in *.
    destruct Hnear as [Hn1 Hn2].
    split; apply Z.mul_le_mono_pos_l with P; try exact Hpow.
    + replace (P * ((2 * m2 - 1) * (R * 100000000)))
        with ((2 * m2 - 1) * (P * R * 100000000)) by ring.
      replace (P * (2 * Zpos p)) with (2 * (Zpos p * P)) by ring.
      exact Hn1.
    + replace (P * ((2 * m2 + 1) * (R * 100000000)))
        with ((2 * m2 + 1) * (P * R * 100000000)) by ring.
      replace (P * (2 * Zpos p)) with (2 * (Zpos p * P)) by ring.
      exact Hn2.
  - destruct (Z.eqb_spec m2 0); [lia|].
    destruct (Z.ltb_spec m2 (2 ^ 53)).
    + destruct (Z.leb_spec e1 971); [reflexivity|lia].
    + destruct (Z.leb_spec (e1 + 1) 971); [reflexivity|lia].
Qed.

End Decimal.

(* ===================================================================== *)
(** ** Eight decimals and binary64: which grid is the finer one *)
(* ===================================================================== *)

Section RoundTrip.

Lemma canonical_normal m e :
  2 ^ 52 <= Zpos m < 2 ^ 53 → -1074 <= e →
  canonical_mantissa prec emax m e = true.
Proof.
  intros Hm He. unfold canonical_mantissa. apply Z.eqb_eq.
  change (Zpos (digits2_pos m)) with (Zdigits2 (Zpos m)).
  rewrite (Zdigits2_unique (Zpos m) 53) by (change (53 - 1) with 52; lia).
  fold (fexp64 (53 + e)). rewrite fexp64_eq. lia.
Qed.

(** A positive count of hundred-millionths denotes a normal binary64
    value. *)
Lemma of_decimal8_finite k :
  0 < k <= 10 ^ 30 →
  ∃ my ey, of_decimal false k (-8) = S754_finite false my ey
           ∧ canonical_mantissa prec emax my ey = true
           ∧ 2 ^ 52 <= Zpos my ∧ -79 <= ey <= 22.
Proof.
  intros Hk.
  destruct (of_decimal8_nearest k Hk) as (m2 & e1 & Hm & He & _ & _ & ->).
  assert (0 < 2 ^ 52) by reflexivity.
  destruct (Z.ltb_spec m2 (2 ^ 53)).
  - exists (Z.to_pos m2), e1. split; [reflexivity|].
    rewrite Z2Pos.id by lia. split; [|lia].
    apply canonical_normal; [rewrite Z2Pos.id by lia; lia|lia].
  - exists (Z.to_pos (2 ^ 52)), (e1 + 1). split; [reflexivity|].
    split; [apply canonical_normal; [vm_compute; split; [discriminate|reflexivity]|lia]|].
    split; [vm_compute; discriminate|lia].
Qed.

(** Below [2^26] the binary64 values lie closer together than the
    hundred-millionths: the count is read back from the number it
    denotes. *)
Lemma toFixed8_n_of_decimal8 k my ey :
  0 < k <= 10 ^ 30 →
  of_decimal false k (-8) = S754_finite false my ey →
  ey <= -27 →
  toFixed8_n my ey = k.
Proof.
  intros Hk Hy Hey.
  destruct (of_decimal8_nearest k Hk) as (m2 & e1 & Hm & He & Hn & _ & Heq).
  rewrite Heq in Hy. clear Heq.
  assert (H52 : 2 ^ 52 = 4503599627370496) by reflexivity.
  assert (H53 : 2 ^ 53 = 9007199254740992) by reflexivity.
  destruct ey as [|K|K]; try lia.
  unfold toFixed8_n. change (10 ^ 8) with 100000000.
  assert (HP : 2 ^ 27 <= 2 ^ Zpos K) by (apply pow2_le; lia).
  change (2 ^ 27) with 134217728 in HP.
  set (P := 2 ^ Zpos K) in *.
  destruct (Z.ltb_spec m2 (2 ^ 53)) as [Hlt|Hge]; injection Hy as Hmy He1.
  - subst e1. specialize (Hn ltac:(lia)).
    change (- Zneg K) with (Zpos K) in Hn. fold P in Hn.
    assert (Hmy' : Zpos my = m2) by (rewrite <- Hmy; apply Z2Pos.id; lia).
    rewrite Hmy'. set (a := k * P) in *.
    symmetry. apply Z.div_unique with (2 * (m2 * 100000000) + P - 2 * a); [lia|].
    unfold a. ring.
  - assert (Hm2 : m2 = 2 ^ 53) by lia.
    assert (He1' : e1 = Zneg K - 1) by lia.
    specialize (Hn ltac:(lia)).
    assert (Hs : 2 ^ (- e1) = 2 * P).
    { rewrite He1'. replace (- (Zneg K - 1)) with (1 + Zpos K) by lia.
      rewrite pow2_split by lia. reflexivity. }
    rewrite Hs in Hn.
    assert (Hmy' : Zpos my = 2 ^ 52) by (rewrite <- Hmy; reflexivity).
    rewrite Hmy'. set (a := k * P) in *.
    replace (k * (2 * P)) with (2 * a) in Hn by (unfold a; ring).
    symmetry. apply Z.div_unique with (2 * (2 ^ 52 * 100000000) + P - 2 * a); [lia|].
    unfold a. ring.
Qed.

(** A binary64 value that does not exceed [k / 10^8] does not exceed
    the number that denotes it. *)
Lemma of_decimal8_ge mc ec k :
  canonical_mantissa prec emax mc ec = true →
  0 < k <= 10 ^ 30 →
  (IZR (Zpos mc) * bpow ec * 100000000 <= IZR k)%R →
  le (S754_finite false mc ec) (of_decimal false k (-8)) = true.
Proof.
  intros Hc [Hk0 Hk] Hle. destruct k as [|p|p]; try lia.
  unfold of_decimal. change (Z.to_pos (10 ^ 8)) with 100000000%positive.
  cbn [SFdiv xorb].
  pose proof (SFdiv_core_binary_spec (Zpos p) 100000000 ltac:(lia) ltac:(lia)) as Hs.
  destruct (SFdiv_core_binary prec emax (Zpos p) 0 100000000 0) as [[q e] l].
  cbv zeta in Hs. destruct Hs as [He Hq].
  change (Zdigits2 100000000) with 27 in *.
  set (d1 := Zdigits2 (Zpos p)) in *.
  set (e' := Z.min (fexp64 (d1 - 27)) 0) in *. subst e.
  assert (Hd1 : 1 <= d1 <= 100).
  { split.
    - unfold d1. cbn. lia.
    - apply Zdigits2_le; [lia|lia|].
      assert (10 ^ 30 < 2 ^ 100) by (vm_compute; reflexivity). lia. }
  assert (He' : e' = Z.min (d1 - 80) 0) by (unfold e'; rewrite fexp64_eq; lia).
  pose proof (pow2_pos (- e') ltac:(lia)) as Hpow.
  pose proof (Zdigits2_lower (Zpos p) ltac:(lia)) as Hlow. fold d1 in Hlow.
  set (M := Zpos p * 2 ^ (- e')) in *.
  assert (HMl : 2 ^ (d1 - 1 - e') <= M).
  { unfold M. replace (d1 - 1 - e') with ((d1 - 1) + - e') by lia.
    rewrite pow2_split by lia. nia. }
  assert (Hq52 : 2 ^ (d1 - e' - 28) <= q).
  { subst q. apply Z.div_le_lower_bound; [lia|].
    assert (100000000 * 2 ^ (d1 - e' - 28) <= 2 ^ 27 * 2 ^ (d1 - e' - 28)).
    { apply Z.mul_le_mono_nonneg_r; [apply Z.lt_le_incl, pow2_pos; lia|].
      vm_compute. discriminate. }
    rewrite <- pow2_split in H by lia.
    replace (27 + (d1 - e' - 28)) with (d1 - 1 - e') in H by lia. lia. }
  assert (Hq0 : 0 < q).
  { pose proof (pow2_pos (d1 - e' - 28) ltac:(lia)). lia. }
  assert (Hdql : d1 - e' - 28 < Zdigits2 q) by (apply Zdigits2_gt; lia).
  assert (Hpre : e' <= fexp64 (Zdigits2 q + e')) by (rewrite fexp64_eq; lia).
  destruct (canonical_bounds mc ec Hc) as (Hcmin & Hcu & Hcl & _).
  destruct (Z_le_gt_dec e' ec) as [Hec|Hec].
  - apply binary_round_aux_ge; [exact Hq0|exact Hpre|exact Hc|exact Hec|].
    subst q. apply Z.div_le_lower_bound; [lia|].
    apply le_IZR. unfold M. rewrite !mult_IZR.
    rewrite <- !bpow_IZR by lia.
    replace (bpow (ec - e')) with (bpow ec * bpow (- e'))%R
      by (rewrite <- bpow_add; f_equal; lia).
    pose proof (bpow_pos (- e')). pose proof (bpow_pos ec).
    pose proof (IZR_pos_ge_1 mc). nra.
  - destruct (binary_round_aux_normal false q e' l Hq0 Hpre)
      as (m2 & Hm2 & _ & Hu & Hl & Hmin & ->).
    set (e1 := fexp64 (Zdigits2 q + e')) in *.
    assert (He1 : e' <= e1) by (unfold e1; rewrite fexp64_eq; lia).
    specialize (Hl ltac:(lia)). assert (0 < 2 ^ 52) by reflexivity.
    destruct (Z.eqb_spec m2 0); [lia|].
    destruct (Z.ltb_spec m2 (2 ^ 53)).
    + destruct (Z.leb_spec e1 971); [|reflexivity]. apply le_pos. left. lia.
    + destruct (Z.leb_spec (e1 + 1) 971); [|reflexivity]. apply le_pos. left. lia.
Qed.

(** From [2^26] on the hundred-millionths lie closer together than the
    binary64 values: [Number(x.toFixed(8))] does not fall below [x]. *)
Lemma Number_toFixed8_ge my ey :
  canonical_mantissa prec emax my ey = true →
  -26 <= ey →
  le (S754_finite false my ey) (Number_toFixed8 (S754_finite false my ey)) = true.
Proof.
  intros Hc Hey. rewrite Number_toFixed8_nearest8. unfold nearest8.
  destruct (ge_1e21 my ey) eqn:Hge; [apply le_refl_finite|].
  destruct (toFixed8_n_spec my ey Hge) as ([Hn0 Hn29] & _ & _).
  destruct (canonical_bounds my ey Hc) as (_ & Hmu & Hml & _).
  specialize (Hml ltac:(lia)).
  assert (H52 : 2 ^ 52 = 4503599627370496) by reflexivity.
  assert (H53 : 2 ^ 53 = 9007199254740992) by reflexivity.
  assert (H29 : 10 ^ 29 < 10 ^ 30) by reflexivity.
  destruct ey as [|E|K].
  - (* an integer *)
    unfold toFixed8_n in *. change (2 ^ 0) with 1 in *. rewrite Z.mul_1_r in *.
    apply of_decimal8_ge; [exact Hc|lia|].
    change (10 ^ 8) with 100000000. rewrite !mult_IZR.
    unfold bpow. cbn [powerRZ]. lra.
  - unfold toFixed8_n in *.
    pose proof (pow2_pos (Zpos E) ltac:(lia)).
    apply of_decimal8_ge; [exact Hc|nia|].
    change (10 ^ 8) with 100000000. rewrite !mult_IZR.
    rewrite bpow_IZR by lia. lra.
  - assert (HK : Zpos K <= 26) by lia.
    assert (HP : 2 ^ 1 <= 2 ^ Zpos K <= 2 ^ 26) by (split; apply pow2_le; lia).
    change (2 ^ 1) with 2 in HP. change (2 ^ 26) with 67108864 in HP.
    unfold toFixed8_n in *. change (10 ^ 8) with 100000000 in *.
    set (P := 2 ^ Zpos K) in *.
    set (k := (2 * (Zpos my * 100000000) + P) / (2 * P)) in *.
    pose proof (Z.mul_div_le (2 * (Zpos my * 100000000) + P) (2 * P) ltac:(lia))
      as Hlo. fold k in Hlo.
    pose proof (Z.mul_succ_div_gt (2 * (Zpos my * 100000000) + P) (2 * P) ltac:(lia))
      as Hhi. fold k in Hhi.
    assert (Hk : 0 < k <= 10 ^ 30) by nia.
    destruct (of_decimal8_nearest k Hk) as (m2 & e1 & Hm & He & Hn & _ & ->).
    set (a := k * P) in *.
    assert (Ha : 2 * a <= 2 * (Zpos my * 100000000) + P < 2 * a + 2 * P)
      by (unfold a; lia).
    clear Hlo Hhi.
    destruct (Z_lt_le_dec (Zneg K) e1) as [Hgt|Hle].
    { (* a larger exponent *)
      destruct (Z.ltb_spec m2 (2 ^ 53)); apply le_pos; left; lia. }
    specialize (Hn ltac:(lia)).
    assert (Hs : 2 ^ (- e1) = P * 2 ^ (Zneg K - e1)).
    { unfold P. rewrite <- pow2_split by lia. f_equal. lia. }
    rewrite Hs in Hn.
    pose proof (pow2_pos (Zneg K - e1) ltac:(lia)) as HQ0.
    set (Q := 2 ^ (Zneg K - e1)) in *.
    replace (k * (P * Q)) with (a * Q) in Hn by (unfold a; ring).
    assert (Ha0 : 0 < a) by lia.
    destruct (Z.eq_dec e1 (Zneg K)) as [Heq|Hne].
    + (* the same exponent *)
      assert (HQ : Q = 1) by (unfold Q; rewrite Heq, Z.sub_diag; reflexivity).
      rewrite HQ, Z.mul_1_r in Hn.
      destruct (Z.ltb_spec m2 (2 ^ 53)); apply le_pos.
      * right. split; [lia|]. rewrite Z2Pos.id by lia. lia.
      * left. lia.
    + (* a smaller exponent *)
      assert (HQ2 : 2 <= Q).
      { change 2 with (2 ^ 1). apply pow2_le. lia. }
      assert (H2a : 2 * (2 * a) <= 2 * (a * Q)) by nia.
      destruct (Z.ltb_spec m2 (2 ^ 53)) as [Hlt|Hm53].
      * exfalso.
        destruct (Z.eq_dec (Zpos my) (2 ^ 52)) as [Hpow|Hnp]; [|lia].
        (* a power of two: the count is exact *)
        assert (Hex : 2 * a = 2 ^ 53 * 100000000); [|lia].
        assert (Hd : 2 ^ 53 = P * 2 ^ (53 - Zpos K)).
        { unfold P. rewrite <- pow2_split by lia. f_equal. lia. }
        assert (Hev : 2 ^ (53 - Zpos K) = 2 * 2 ^ (52 - Zpos K)).
        { replace (53 - Zpos K) with (1 + (52 - Zpos K)) by lia.
          rewrite pow2_split by lia. reflexivity. }
        pose proof (pow2_pos (52 - Zpos K) ltac:(lia)) as HR.
        set (R := 2 ^ (52 - Zpos K)) in *.
        rewrite Hpow in Ha.
        replace (2 * (2 ^ 52 * 100000000)) with (2 ^ 53 * 100000000) in Ha
          by (rewrite H52, H53; reflexivity).
        rewrite Hd, Hev in Ha |- *.
        unfold a in *.
        assert (Hk1 : 2 * k <= 2 * R * 100000000 + 1) by nia.
        assert (Hk2 : 2 * R * 100000000 + 1 < 2 * k + 2) by nia.
        assert (Hkv : k = R * 100000000) by lia. rewrite Hkv. ring.
      * destruct (Z.eq_dec e1 (Zneg K - 1)) as [E1|E1].
        -- assert (HQ : Q = 2).
           { unfold Q. rewrite E1. replace (Zneg K - (Zneg K - 1)) with 1 by lia.
             reflexivity. }
           rewrite HQ in Hn. apply le_pos. right. split; [lia|].
           rewrite Z2Pos.id by lia. lia.
        -- exfalso.
           assert (HQ4 : 4 <= Q).
           { change 4 with (2 ^ 2). apply pow2_le. lia. }
           assert (4 * (2 * a) <= 2 * (a * Q)) by nia.
           lia.
Qed.

End RoundTrip.

(* ===================================================================== *)
(** ** The fee total never decreases *)
(* ===================================================================== *)

Section Accumulator.

Lemma toFixed8_n_lower m e :
  (IZR (Zpos m) * bpow e * 100000000 < IZR (toFixed8_n m e) + 1 / 2)%R.
Proof.
  unfold toFixed8_n. change (10 ^ 8) with 100000000.
  destruct e as [|k|k].
  - change (2 ^ 0) with 1. rewrite Z.mul_1_r, mult_IZR.
    unfold bpow. cbn [powerRZ]. lra.
  - rewrite bpow_IZR by lia. rewrite !mult_IZR. lra.
  - assert (H2 : 0 < 2 ^ Zpos k) by (apply Z.pow_pos_nonneg; lia).
    set (D := 2 ^ Zpos k) in *.
    set (num := 2 * (Zpos m * 100000000) + D).
    pose proof (Z.mul_succ_div_gt num (2 * D) ltac:(lia)) as Hgt.
    change (Zneg k) with (Z.opp (Zpos k)).
    rewrite bpow_neg_IZR by lia. fold D.
    assert (HDR : (0 < IZR D)%R) by (apply IZR_lt; lia).
    apply IZR_lt in Hgt. unfold Z.succ in Hgt.
    rewrite mult_IZR, plus_IZR, mult_IZR in Hgt. unfold num in Hgt at 1.
    rewrite plus_IZR, !mult_IZR in Hgt.
    apply Rmult_lt_reg_r with (2 * IZR D)%R; [lra|].
    replace (IZR (Zpos m) * / IZR D * 100000000 * (2 * IZR D))%R
      with (2 * (IZR (Zpos m) * 100000000))%R by (field; lra).
    lra.
Qed.

Lemma le_value m1 e1 m2 e2 :
  canonical_mantissa prec emax m1 e1 = true →
  canonical_mantissa prec emax m2 e2 = true →
  le (S754_finite false m1 e1) (S754_finite false m2 e2) = true →
  (IZR (Zpos m1) * bpow e1 <= IZR (Zpos m2) * bpow e2)%R.
Proof.
  intros H1 H2 Hle. apply le_pos in Hle.
  destruct (canonical_bounds m1 e1 H1) as (Hmin1 & Hu1 & _ & _).
  destruct (canonical_bounds m2 e2 H2) as (_ & _ & Hl2 & _).
  pose proof (bpow_pos e1) as Hp1.
  destruct Hle as [Hlt|[<- Hm]].
  - specialize (Hl2 ltac:(lia)).
    apply IZR_lt in Hu1. apply IZR_le in Hl2.
    change (2 ^ 53) with 9007199254740992 in Hu1.
    change (2 ^ 52) with 4503599627370496 in Hl2.
    pose proof (bpow_le (e1 + 1) e2 ltac:(lia)) as Hb.
    rewrite bpow_add in Hb. rewrite (bpow_IZR 1) in Hb by lia. change (2 ^ 1) with 2 in Hb.
    pose proof (bpow_pos e2). nra.
  - apply IZR_le in Hm. nra.
Qed.

Lemma ge_1e21_false m e :
  ge_1e21 m e = false → (IZR (Zpos m) * bpow e < 1000000000000000000000)%R.
Proof.
  unfold ge_1e21. change (10 ^ 21) with 1000000000000000000000.
  intros H. destruct e as [|k|k]; apply Z.leb_gt in H.
  - rewrite bpow_IZR, <- mult_IZR by lia. apply IZR_lt. exact H.
  - rewrite bpow_IZR, <- mult_IZR by lia. apply IZR_lt. exact H.
  - change (Zneg k) with (Z.opp (Zpos k)). rewrite bpow_neg_IZR by lia.
    assert (H2 : 0 < 2 ^ Zpos k) by (apply Z.pow_pos_nonneg; lia).
    apply IZR_lt in H. rewrite mult_IZR in H.
    assert (HD : (0 < IZR (2 ^ Zpos k))%R) by (apply IZR_lt; lia).
    apply Rmult_lt_reg_r with (IZR (2 ^ Zpos k)); [exact HD|].
    rewrite Rmult_assoc, Rinv_l by lra. lra.
Qed.

Lemma ge_1e21_true m e :
  ge_1e21 m e = true → (1000000000000000000000 <= IZR (Zpos m) * bpow e)%R.
Proof.
  unfold ge_1e21. change (10 ^ 21) with 1000000000000000000000.
  intros H. destruct e as [|k|k]; apply Z.leb_le in H.
  - rewrite bpow_IZR, <- mult_IZR by lia. apply IZR_le. exact H.
  - rewrite bpow_IZR, <- mult_IZR by lia. apply IZR_le. exact H.
  - change (Zneg k) with (Z.opp (Zpos k)). rewrite bpow_neg_IZR by lia.
    assert (H2 : 0 < 2 ^ Zpos k) by (apply Z.pow_pos_nonneg; lia).
    apply IZR_le in H. rewrite mult_IZR in H.
    assert (HD : (0 < IZR (2 ^ Zpos k))%R) by (apply IZR_lt; lia).
    apply Rmult_le_reg_r with (IZR (2 ^ Zpos k)); [exact HD|].
    rewrite Rmult_assoc, Rinv_l by lra. lra.
Qed.

(** [Number(x.toFixed(8))] of a larger value is not below a value that
    its own [Number(x.toFixed(8))] is not below. *)
Lemma Number_toFixed8_step mt et mx ex :
  canonical_mantissa prec emax mt et = true →
  canonical_mantissa prec emax mx ex = true →
  le (S754_finite false mt et) (S754_finite false mx ex) = true →
  le (S754_finite false mt et) (Number_toFixed8 (S754_finite false mt et)) = true →
  le (S754_finite false mt et) (Number_toFixed8 (S754_finite false mx ex)) = true.
Proof.
  intros Ht Hx Hle Hinv. rewrite Number_toFixed8_nearest8 in *.
  unfold nearest8 in *.
  pose proof (le_value _ _ _ _ Ht Hx Hle) as Hv.
  destruct (ge_1e21 mx ex) eqn:Hgx; [exact Hle|].
  pose proof (ge_1e21_false _ _ Hgx) as Hxs.
  destruct (ge_1e21 mt et) eqn:Hgt.
  { apply ge_1e21_true in Hgt. lra. }
  destruct (toFixed8_n_spec mt et Hgt) as ([Ht0 _] & Htu & _).
  destruct (toFixed8_n_spec mx ex Hgx) as ([_ Hx29] & _ & _).
  pose proof (toFixed8_n_lower mt et) as Htl.
  pose proof (toFixed8_n_lower mx ex) as Hxl.
  cbv zeta in Htu.
  set (nt := toFixed8_n mt et) in *. set (nx := toFixed8_n mx ex) in *.
  assert (Hn : nt <= nx).
  { apply Z.lt_succ_r. apply lt_IZR. unfold Z.succ. rewrite plus_IZR. nra. }
  destruct (Z.eq_dec nt nx) as [<-|Hne]; [exact Hinv|].
  assert (H29 : 10 ^ 29 < 10 ^ 30) by reflexivity.
  apply of_decimal8_ge; [exact Ht|lia|].
  assert (Hs : (IZR nt + 1 <= IZR nx)%R).
  { rewrite <- plus_IZR. apply IZR_le. lia. }
  lra.
Qed.

Lemma valid_finite m e :
  canonical_mantissa prec emax m e = true → e <= 971 →
  valid_binary prec emax (S754_finite false m e) = true.
Proof.
  intros Hc He. cbn [valid_binary]. unfold bounded.
  apply andb_true_iff. split; [exact Hc|].
  apply Z.leb_le. unfold emax, prec. lia.
Qed.

Lemma Number_toFixed8_finite m e :
  canonical_mantissa prec emax m e = true → e <= 971 →
  let y := Number_toFixed8 (S754_finite false m e) in
  valid_binary prec emax y = true ∧ nonneg y ∧ le y (Number_toFixed8 y) = true.
Proof.
  intros Hc He y. unfold y. rewrite (Number_toFixed8_nearest8 (S754_finite _ _ _)).
  cbn [nearest8].
  destruct (ge_1e21 m e) eqn:Hg.
  - split; [apply valid_finite; assumption|]. split; [reflexivity|].
    rewrite Number_toFixed8_nearest8. cbn [nearest8]. rewrite Hg.
    apply le_refl_finite.
  - destruct (toFixed8_n_spec m e Hg) as ([Hn0 Hn29] & _ & _).
    assert (H29 : 10 ^ 29 < 10 ^ 30) by reflexivity.
    destruct (Z.eq_dec (toFixed8_n m e) 0) as [->|Hne].
    { split; [reflexivity|]. split; reflexivity. }
    destruct (of_decimal8_finite (toFixed8_n m e) ltac:(lia))
      as (my & ey & Hy & Hcy & Hmy & Hey).
    rewrite Hy. split; [apply valid_finite; [exact Hcy|lia]|].
    split; [reflexivity|].
    destruct (Z_le_gt_dec ey (-27)) as [Hs|Hl].
    + rewrite Number_toFixed8_nearest8. cbn [nearest8].
      destruct (ge_1e21 my ey); [apply le_refl_finite|].
      rewrite (toFixed8_n_of_decimal8 (toFixed8_n m e) my ey ltac:(lia) Hy Hs), Hy.
      apply le_refl_finite.
    + apply Number_toFixed8_ge; [exact Hcy|lia].
Qed.

(** [Number(x.toFixed(8))] keeps the invariant of the fee total. *)
Lemma Number_toFixed8_feesInv x :
  valid_binary prec emax x = true →
  x = S754_nan ∨ nonneg x →
  feesInv (Number_toFixed8 x).
Proof.
  intros Hv [->|Hn]; [split; [reflexivity|left; reflexivity]|].
  destruct x as [s|s| |s m e]; cbn [nonneg] in Hn; try contradiction.
  - split; [reflexivity|]. right. split; reflexivity.
  - subst s. split; [reflexivity|]. right. split; reflexivity.
  - subst s. apply valid_binary_finite in Hv as [Hc He].
    destruct (Number_toFixed8_finite m e Hc He) as (H1 & H2 & H3).
    split; [exact H1|]. right. split; assumption.
Qed.

Lemma mul_feeRate_valid post :
  post = S754_nan ∨ nonneg post →
  valid_binary prec emax (mul post feeRate) = true
  ∧ (mul post feeRate = S754_nan ∨ nonneg (mul post feeRate)).
Proof.
  rewrite feeRate_eq. intros [->|Hn]; [split; [reflexivity|left; reflexivity]|].
  destruct post as [s|s| |s m e]; cbn [nonneg] in Hn; try contradiction.
  - split; [reflexivity|]. right. exact I.
  - subst s. split; [reflexivity|]. right. reflexivity.
  - subst s. unfold mul. cbn [SFmul xorb].
    set (mc := 5764607523034235%positive).
    assert (Hpre : e + -60 <= fexp64 (Zdigits2 (Zpos (m * mc)) + (e + -60))).
    { assert (52 < Zdigits2 (Zpos (m * mc))).
      { apply Zdigits2_gt; [lia|]. rewrite Pos2Z.inj_mul.
        assert (2 ^ 52 <= Zpos mc) by (vm_compute; discriminate). nia. }
      rewrite fexp64_eq. lia. }
    split; [apply binary_round_aux_valid; [lia|exact Hpre]|].
    right. apply signed_nonneg. apply binary_round_aux_shape. lia.
Qed.

Lemma add_valid x y :
  valid_binary prec emax x = true → valid_binary prec emax y = true →
  nonneg x → nonneg y →
  valid_binary prec emax (add x y) = true.
Proof.
  intros Hx Hy Nx Ny.
  destruct x as [sx|sx| |sx mx ex], y as [sy|sy| |sy my ey];
    cbn [nonneg] in Nx, Ny; try contradiction; subst;
    try reflexivity; try assumption.
  - destruct sx, sy; reflexivity.
  - destruct (add_finite_unfold mx ex my ey) as (mz & ez & -> & _ & _ & Hpre).
    apply binary_round_aux_valid; [lia|exact Hpre].
Qed.

Lemma le_zero_l s x : nonneg x → le (S754_zero s) x = true.
Proof.
  destruct x as [s'|s'| |s' m e]; cbn [nonneg]; intros H; try contradiction;
    subst; reflexivity.
Qed.

Lemma le_infinity_r x : nonneg x → le x (S754_infinity false) = true.
Proof.
  destruct x as [s'|s'| |s' m e]; cbn [nonneg]; intros H; try contradiction;
    subst; reflexivity.
Qed.

Lemma feesInv_nan : feesInv S754_nan.
Proof. split; [reflexivity|left; reflexivity]. Qed.

(** The total after a fee: the invariant is kept, and the total has not
    decreased unless it is NaN. *)
Lemma fees_step fees fee :
  feesInv fees →
  valid_binary prec emax fee = true →
  fee = S754_nan ∨ nonneg fee →
  let fees' := Number_toFixed8 (add fees fee) in
  feesInv fees' ∧ (fees' = S754_nan ∨ le fees fees' = true).
Proof.
  intros [Hv [->|[Hn Hinv]]] Hfv Hf fees'.
  { split; [apply feesInv_nan|left; reflexivity]. }
  destruct Hf as [->|Hfn].
  { unfold fees'. rewrite add_nan_r. split; [apply feesInv_nan|left; reflexivity]. }
  pose proof (add_valid fees fee Hv Hfv Hn Hfn) as Hav.
  assert (Han : nonneg (add fees fee)).
  { destruct fees as [s|s| |s m e], fee as [s'|s'| |s' m' e'];
      cbn [nonneg] in Hn, Hfn; try contradiction; subst; try exact I;
      try reflexivity.
    - destruct s, s'; exact I.
    - apply signed_nonneg.
      destruct (add_finite_unfold m e m' e') as (mz & ez & -> & _ & _ & _).
      apply binary_round_aux_shape. lia. }
  split; [apply Number_toFixed8_feesInv; [exact Hav|right; exact Han]|].
  right. unfold fees'.
  destruct fees as [s|s| |s m e]; cbn [nonneg] in Hn; try contradiction.
  - (* the total is zero *)
    apply le_zero_l.
    apply Number_toFixed8_nonneg; [exact Han|].
    apply valid_binary_wellFormed. exact Hav.
  - (* the total is infinite *)
    subst s.
    destruct fee as [s'|s'| |s' m' e']; cbn [nonneg] in Hfn; try contradiction;
      subst; reflexivity.
  - subst s. apply valid_binary_finite in Hv as [Hc He].
    destruct fee as [s'|s'| |s' m' e']; cbn [nonneg] in Hfn; try contradiction.
    + (* no fee *) exact Hinv.
    + subst s'. reflexivity.
    + subst s'.
      pose proof (add_ge_l m e m' e' Hc) as Hge.
      destruct (add (S754_finite false m e) (S754_finite false m' e'))
        as [sa|sa| |sa ma ea] eqn:Ha; cbn [nonneg] in Han; try contradiction.
      * discriminate Hge.
      * subst sa. reflexivity.
      * subst sa. apply valid_binary_finite in Hav as [Hca Hea].
        apply Number_toFixed8_step; assumption.
Qed.

End Accumulator.

Section Total.

Lemma feesInv_refl fees : feesInv fees → notBelow fees fees.
Proof.
  unfold notBelow. intros [Hv [->|[Hn _]]]; [left; reflexivity|right].
  destruct fees as [s|s| |s m e]; cbn [nonneg] in Hn; try contradiction;
    subst; try reflexivity.
  apply le_refl_finite.
Qed.

Lemma feesInv_trans a b c :
  feesInv a → feesInv b → notBelow a b → notBelow b c → notBelow a c.
Proof.
  unfold notBelow. intros [_ Ha] [_ Hb] Hab [->|Hbc]; [left; reflexivity|right].
  destruct Hb as [->|[Nb _]]; [discriminate Hbc|].
  destruct Hab as [->|Hab]; [contradiction|].
  destruct Ha as [->|[Na _]]; [discriminate Hab|].
  destruct a as [sa|sa| |sa ma ea], b as [sb|sb| |sb mb eb], c as [sc|sc| |sc mc ec];
    cbn [nonneg] in Na, Nb; try contradiction; subst;
    try discriminate; try reflexivity;
    try (destruct sc; try discriminate; reflexivity).
  destruct sc; [discriminate Hbc|].
  apply le_pos in Hab. apply le_pos in Hbc. apply le_pos. lia.
Qed.

Lemma feesInv_start : feesInv (platformTotalFees start).
Proof. split; [reflexivity|]. right. split; reflexivity. Qed.

(** One request: the invariant of the fee total is kept, and the total
    is NaN or not below the one before. *)
Lemma feesInv_deposit body random now srv :
  wellFormed (coerceAmount body) →
  ledgerInv srv →
  feesInv (platformTotalFees srv) →
  feesInv (platformTotalFees (fst (deposit body random now srv)))
  ∧ notBelow (platformTotalFees srv)
             (platformTotalFees (fst (deposit body random now srv))).
Proof.
  intros Wa Hinv Hf.
  pose proof (feesInv_refl _ Hf) as Hrefl.
  destruct (amountThrows body) eqn:Ht;
    [rewrite deposit_failed by assumption; split; assumption|].
  destruct (truthy (body ≫= body_investor)) as [i|] eqn:Hi;
    [|rewrite deposit_rejected by auto; split; assumption].
  destruct (truthy (body ≫= body_strategyId)) as [s|] eqn:Hs;
    [|rewrite deposit_rejected by auto; split; assumption].
  destruct (acceptedAmount (coerceAmount body)) eqn:Ha;
    [|rewrite deposit_rejected by auto; split; assumption].
  rewrite (deposit_accepted _ _ _ _ i s) by assumption.
  destruct (applyDeposit _ _ _ _ _ _ _) as [srv' d] eqn:Happ. cbn [fst].
  apply applyDeposit_spec in Happ as (_ & _ & _ & Hc & _ & Hfees & _).
  cbv zeta in Hc. rewrite Hfees.
  pose proof (lookupOrCreate_notNegative srv i s Hinv) as Hcur.
  pose proof (finiteNonneg_notNegative _ (accepted_finiteNonneg _ Ha Wa)) as Hamt.
  pose proof (add_notNegative _ _ Hcur Hamt) as [Hpost _].
  unfold chargeFee in Hc.
  destruct (negb _); injection Hc as _ _ <-; [|split; assumption].
  destruct (mul_feeRate_valid _ Hpost) as [Hmv Hmn].
  destruct (Number_toFixed8_feesInv _ Hmv Hmn) as [Hfv Hfn].
  unfold notBelow. apply fees_step; [exact Hf|exact Hfv|].
  destruct Hfn as [->|[Hfn _]]; [left; reflexivity|right; exact Hfn].
Qed.

Lemma feesInv_run reqs : ∀ srv,
  Forall (λ r, wellFormed (amountOf r)) reqs →
  ledgerInv srv →
  feesInv (platformTotalFees srv) →
  feesInv (platformTotalFees (fst (run reqs srv)))
  ∧ notBelow (platformTotalFees srv) (platformTotalFees (fst (run reqs srv))).
Proof.
  induction reqs as [|r reqs IH]; intros srv Hall Hinv Hf.
  - split; [exact Hf|apply feesInv_refl; exact Hf].
  - apply Forall_cons in Hall as [Hr Hall]. rewrite run_cons. cbn [fst].
    pose proof (ledgerInv_deposit (r_body r) (r_random r) (r_now r) srv Hr Hinv)
      as Hinv1.
    destruct (feesInv_deposit (r_body r) (r_random r) (r_now r) srv Hr Hinv Hf)
      as [Hf1 Hstep].
    destruct (IH _ Hall Hinv1 Hf1) as [Hf2 Hrest].
    split; [exact Hf2|].
    exact (feesInv_trans _ _ _ Hf Hf1 Hstep Hrest).
Qed.

Lemma wellTypedRequests_wellFormed reqs :
  wellTypedRequests reqs → Forall (λ r, wellFormed (amountOf r)) reqs.
Proof.
  intros H. eapply Forall_impl; [exact H|].
  intros r Hr. apply coerceAmount_wellFormed. exact Hr.
Qed.

Lemma feesInv_reachable reqs :
  wellTypedRequests reqs → feesInv (platformTotalFees (fst (run reqs start))).
Proof.
  intros H.
  apply (feesInv_run reqs start);
    [apply wellTypedRequests_wellFormed; exact H|apply ledgerInv_start
    |apply feesInv_start].
Qed.

End Total.

(* ===================================================================== *)
(** ** Non-negativity and the fee total *)
(* ===================================================================== *)

(** Claim C4 fails as stated.  Two valid deposits of [1e308]: the second
    sum is [Infinity], the fee charged on the switch is [Infinity], and
    the returned balance is [NaN], which is not [>= 0]. *)
Lemma newBalance_nan_after_overflow :
  Forall (validFor "inv1") overflowDeposits
  ∧ ∃ d1 d2, snd (run overflowDeposits start) = [ok d1; ok d2]
      ∧ newBalance d1 = big
      ∧ feeCharged d2 = S754_infinity false
      ∧ newBalance d2 = S754_nan
      ∧ le pos_zero (newBalance d2) = false.
Proof.
  split.
  { repeat (apply Forall_cons; split); try apply Forall_nil_2.
    all: apply (validFor_dec_true _ _ "s1"); vm_compute; reflexivity. }
  do 2 eexists.
  do 4 (split; [vm_compute; reflexivity|]). vm_compute; reflexivity.
Qed.

(** Claim C4, as the code has it.  In every state reached from the
    start by deposit requests, an accepted deposit never returns a
    negative balance; when the balance after adding the amount is
    finite, the fee charged does not exceed it and the returned balance
    is [>= 0]; and when it is not finite, because the addition
    overflowed, the returned balance is [Infinity] or [NaN]. *)
Theorem newBalance_nonneg_without_overflow reqs body random now srv' d :
  wellTypedRequests reqs →
  wellTyped body →
  deposit body random now (fst (run reqs start)) = (srv', ok d) →
  let post := add (currentBalance (d_investor d) (fst (run reqs start)))
                  (coerceAmount body) in
  lt (newBalance d) pos_zero = false
  ∧ (isFinite post = true →
     le pos_zero (sub post (feeCharged d)) = true
     ∧ le pos_zero (newBalance d) = true)
  ∧ (isFinite post = false →
     newBalance d = S754_infinity false ∨ newBalance d = S754_nan).
Proof.
  intros Hreqs Hbody Hdep post.
  pose proof (ledgerInv_reachable reqs Hreqs) as Hinv.
  set (srv := fst (run reqs start)) in *.
  pose proof (coerceAmount_wellFormed body Hbody) as Wa.
  split; [|split].
  - pose proof (ledgerInv_deposit body random now srv Wa Hinv) as Hinv'.
    rewrite Hdep in Hinv'. cbn [fst] in Hinv'.
    apply deposit_ok_inv in Hdep as (i & s & _ & _ & _ & Happ).
    apply applyDeposit_spec in Happ as (_ & _ & _ & _ & Hst & _).
    apply notNegative_never_negative.
    assert (Hl : investorStates srv' !! i
                 = Some {| strategyId := s; balance := newBalance d;
                           allocation := d_allocation d; lastDecisionAt := now |})
      by (rewrite Hst; apply lookup_insert_eq).
    exact (proj1 Hinv' i _ Hl).
  - intros Hfin.
    pose proof (lookupOrCreate_notNegative srv (d_investor d) (d_strategyId d) Hinv)
      as [Hcur Wcur].
    unfold post, currentBalance in Hfin.
    rewrite (lookupOrCreate_balance srv _ "" (d_strategyId d)) in Hfin.
    assert (Hnn : nonneg (balance (lookupOrCreate srv (d_investor d) (d_strategyId d)))).
    { destruct Hcur as [Hnan|Hnn]; [|exact Hnn].
      rewrite Hnan in Hfin. discriminate. }
    unfold post, currentBalance.
    rewrite (lookupOrCreate_balance srv _ "" (d_strategyId d)).
    apply (deposit_nonneg_step body random now srv srv' d Hdep Wa Wcur).
    + apply le_zero_nonneg. exact Hnn.
    + exact Hfin.
  - intros Hnf.
    apply deposit_ok_inv in Hdep as (i & s & _ & _ & Ha & Happ).
    apply applyDeposit_spec in Happ as (Hdi & Hds & _ & Hc & _).
    cbv zeta in Hc. subst i s.
    pose proof (lookupOrCreate_notNegative srv (d_investor d) (d_strategyId d) Hinv)
      as Hcur.
    pose proof (finiteNonneg_notNegative _ (accepted_finiteNonneg _ Ha Wa)) as Hamt.
    pose proof (add_notNegative _ _ Hcur Hamt) as [Hpost _].
    unfold post, currentBalance in Hnf.
    rewrite (lookupOrCreate_balance srv _ "" (d_strategyId d)) in Hnf.
    rewrite chargeFee_not_finite in Hc by exact Hnf.
    set (p := add (balance (lookupOrCreate srv (d_investor d) (d_strategyId d)))
                  (coerceAmount body)) in *.
    destruct (negb _); injection Hc as _ <- _; [right; reflexivity|].
    destruct Hpost as [->|Hn]; [right; reflexivity|left].
    destruct p as [sp|sp| |sp mp ep]; try discriminate Hnf; try contradiction.
    cbn [nonneg] in Hn. subst sp. reflexivity.
Qed.

Lemma newBalance_nonneg_without_overflow_witness :
  let reqs := [ {| r_body := depositOf "inv1" "s1" (JNumber (num 10000));
                   r_random := random_low; r_now := 1 |} ] in
  let body := depositOf "inv1" "s1" (JNumber (num 1)) in
  let d := {| d_investor := "inv1"; d_strategyId := "s1"; d_asset := "XLM";
              newBalance := of_decimal false 9950995 (-3);
              d_allocation := INVESTED;
              feeCharged := of_decimal false 50005 (-3);
              d_platformTotalFees := of_decimal false 50005 (-3);
              simulated := true; decidedAt := 2 |} in
  let srv' := fst (deposit body random_high 2 (fst (run reqs start))) in
  wellTypedRequests reqs
  ∧ wellTyped body
  ∧ deposit body random_high 2 (fst (run reqs start)) = (srv', ok d)
  ∧ lt (newBalance d) pos_zero = false
  ∧ (isFinite (add (currentBalance (d_investor d) (fst (run reqs start)))
                   (coerceAmount body)) = true →
     le pos_zero (sub (add (currentBalance (d_investor d) (fst (run reqs start)))
                           (coerceAmount body)) (feeCharged d)) = true
     ∧ le pos_zero (newBalance d) = true)
  ∧ (isFinite (add (currentBalance (d_investor d) (fst (run reqs start)))
                   (coerceAmount body)) = false →
     newBalance d = S754_infinity false ∨ newBalance d = S754_nan).
Proof.
  intros reqs body d srv'.
  assert (H1 : wellTypedRequests reqs).
  { apply Forall_cons. split; [vm_compute; reflexivity|apply Forall_nil_2]. }
  assert (H2 : wellTyped body) by (vm_compute; reflexivity).
  assert (H3 : deposit body random_high 2 (fst (run reqs start)) = (srv', ok d)).
  { apply injective_projections; [reflexivity|vm_compute; reflexivity]. }
  split; [exact H1|]. split; [exact H2|]. split; [exact H3|].
  exact (newBalance_nonneg_without_overflow reqs body random_high 2 srv' d H1 H2 H3).
Defined.

(** Claim C5 fails as stated, in both of its parts.  After the two
    deposits of [1e308] the fee total is [Infinity]; a third valid
    deposit with a switching decision charges [NaN] and the total
    becomes [NaN], which is not [>=] the total before.  And the total
    is not the sum of the fees: after fees of [0.1] and [0.2] it is
    [0.3], while [0.1 + 0.2] is [0.30000000000000004]. *)
Lemma platform_fees_neither_monotone_nor_the_sum :
  let srv2 := fst (run overflowDeposits start) in
  let body := depositOf "inv1" "s1" (JNumber big) in
  let reqs := [ {| r_body := depositOf "inv1" "s1" (JNumber (num 20));
                   r_random := random_high; r_now := 1 |};
                {| r_body := depositOf "inv2" "s1" (JNumber (num 40));
                   r_random := random_high; r_now := 2 |} ] in
  (finitePositive (coerceAmount body) = true
   ∧ platformTotalFees srv2 = S754_infinity false
   ∧ platformTotalFees (fst (deposit body random_low 3 srv2)) = S754_nan
   ∧ le (platformTotalFees srv2)
        (platformTotalFees (fst (deposit body random_low 3 srv2))) = false)
  ∧ (map feeCharged (omap dataOf (snd (run reqs start)))
     = [of_decimal false 1 (-1); of_decimal false 2 (-1)]
     ∧ platformTotalFees (fst (run reqs start)) = of_decimal false 3 (-1)
     ∧ sumOf (map feeCharged (omap dataOf (snd (run reqs start))))
       = S754_finite false 5404319552844596 (-54)
     ∧ platformTotalFees (fst (run reqs start))
       ≠ sumOf (map feeCharged (omap dataOf (snd (run reqs start))))).
Proof.
  cbv zeta. split.
  - do 3 (split; [vm_compute; reflexivity|]). vm_compute; reflexivity.
  - do 3 (split; [vm_compute; reflexivity|]).
    intros H. vm_compute in H. discriminate H.
Qed.


(** Claim C5, as the code has it.  The fee total is [0] at the start.
    Over every sequence of requests it never decreases: from any state
    reached, whatever requests follow, the total is then not below the
    total before, unless it has become NaN; and it is never a negative
    number.  It is not the sum of the fees charged but that sum
    re-rounded at each step: a rejected request and a deposit that does
    not switch the allocation leave it unchanged, a deposit that
    switches sets it to [Number((total + feeCharged).toFixed(8))], and
    the response reports the stored total. *)
Theorem platform_fees_step reqs more body random now :
  wellTypedRequests reqs →
  wellTypedRequests more →
  wellTyped body →
  let srv := fst (run reqs start) in
  let srv' := fst (deposit body random now srv) in
  platformTotalFees start = pos_zero
  ∧ (platformTotalFees (fst (run more srv)) = S754_nan
     ∨ le (platformTotalFees srv) (platformTotalFees (fst (run more srv))) = true)
  ∧ (platformTotalFees srv' = S754_nan
     ∨ le (platformTotalFees srv) (platformTotalFees srv') = true)
  ∧ lt (platformTotalFees srv') pos_zero = false
  ∧ match dataOf (snd (deposit body random now srv)) with
    | Some d =>
        d_platformTotalFees d = platformTotalFees srv'
        ∧ platformTotalFees srv'
          = if Allocation_eqb
                 (allocation (lookupOrCreate srv (d_investor d) (d_strategyId d)))
                 (d_allocation d)
            then platformTotalFees srv
            else Number_toFixed8 (add (platformTotalFees srv) (feeCharged d))
    | None => platformTotalFees srv' = platformTotalFees srv
    end.
Proof.
  intros Hreqs Hmore Hbody srv srv'.
  pose proof (ledgerInv_reachable reqs Hreqs) as Hinv.
  pose proof (feesInv_reachable reqs Hreqs) as Hf.
  pose proof (coerceAmount_wellFormed body Hbody) as Wa.
  split; [reflexivity|]. split; [|split; [|split]].
  - apply (feesInv_run more srv);
      [apply wellTypedRequests_wellFormed|..]; assumption.
  - apply (feesInv_deposit body random now srv); assumption.
  - apply notNegative_never_negative.
    apply (ledgerInv_deposit body random now srv); assumption.
  - apply (platform_fees_recurrence body random now srv).
Qed.

Lemma platform_fees_step_witness :
  let reqs := [ {| r_body := depositOf "inv1" "s1" (JNumber (num 1000));
                   r_random := random_high; r_now := 1 |} ] in
  let more := [ {| r_body := depositOf "inv2" "s1" (JNumber (num 2000));
                   r_random := random_high; r_now := 2 |};
                {| r_body := depositOf "inv1" "s1" (JNumber (num 10));
                   r_random := random_low; r_now := 3 |} ] in
  let body := depositOf "inv2" "s1" (JNumber (num 2000)) in
  wellTypedRequests reqs
  ∧ wellTypedRequests more
  ∧ wellTyped body
  ∧ platformTotalFees (fst (run reqs start)) = num 5
  ∧ platformTotalFees (fst (run more (fst (run reqs start))))
    = of_decimal false 20025 (-3)
  ∧ (platformTotalFees (fst (run more (fst (run reqs start)))) = S754_nan
     ∨ le (platformTotalFees (fst (run reqs start)))
          (platformTotalFees (fst (run more (fst (run reqs start))))) = true)
  ∧ lt (platformTotalFees
             (fst (deposit body random_high 2 (fst (run reqs start)))))
          pos_zero = false.
Proof.
  intros reqs more body.
  assert (H1 : wellTypedRequests reqs).
  { apply Forall_cons. split; [vm_compute; reflexivity|apply Forall_nil_2]. }
  assert (H2 : wellTypedRequests more).
  { repeat (apply Forall_cons; split); try apply Forall_nil_2;
      vm_compute; reflexivity. }
  assert (H3 : wellTyped body) by (vm_compute; reflexivity).
  pose proof (platform_fees_step reqs more body random_high 2 H1 H2 H3)
    as (_ & Hmono & _ & Hneg & _).
  split; [exact H1|]. split; [exact H2|]. split; [exact H3|].
  split; [vm_compute; reflexivity|]. split; [vm_compute; reflexivity|].
  split; [exact Hmono|exact Hneg].
Defined.
